(** * Vault curator: armor scoring, duplicate detection and cleanup planning

    A shallow embedding of the classification core of the repository
    (types.ts, dim/parser.ts, analysis/armor-scorer.ts,
    analysis/duplicate-finder.ts, planner/cleanup-planner.ts), followed by
    the properties established about it.

    Conventions of the embedding.
    - JavaScript numbers that hold integers (stat values, power levels,
      item hashes, the rounded armor score) are [Z].  The only fractional
      arithmetic of the scorer (the linear base score [total / 60 * 20] and
      the weighted profile averages) is carried out in [Q], with
      [Math.round x = floor (x + 1/2)].  For integer stats the base score is
      a multiple of 1/3, so the double-precision result rounds to the same
      integer as the exact one.
    - [Array.prototype.sort] is stable; it is modelled by a stable insertion
      sort ([JS.sort]).  The comparators of this program are consistent, so
      every stable sort returns the same array.
    - A JavaScript [Map] that is iterated is an association list in
      insertion order; a [Map] that is only looked up is a [gmap].
    - An optional field ([stats?], [score?], [protectedBy?]) is an [option].
    - Records share one name space: where two interfaces of the program
      have a field of the same name ([name], [id], [classType], [itemHash],
      [reason], [keep]), the later record prefixes it.
    - [new Date()] is a reading of the clock, passed to [generatePlan] as
      [now]. *)

From Stdlib Require Import ZArith QArith Qround List String Ascii.
From Stdlib Require Import DecimalString DecimalZ DecimalPos Permutation Sorted Lia Lqa.
From stdpp Require Import base strings gmap.

Open Scope string_scope.
Open Scope list_scope.
Open Scope Z_scope.

(* ===================================================================== *)
(** ** JavaScript library functions used by the program *)
(* ===================================================================== *)

Module JS.

(** [Math.round]: the nearest integer, halves rounded up. *)
Definition Math_round (x : Q) : Z := Qfloor (x + (1 # 2)).

(** [Math.max] on a rational accumulator. *)
Definition Qmax (x y : Q) : Q := if Qle_bool x y then y else x.

(** [n.toString()] and the template-literal rendering of an integer
    (JavaScript switches to exponent notation from 10^21 on; item hashes
    are 32-bit and scores, totals and power levels are small). *)
Definition toString (n : Z) : string := NilZero.string_of_int (Z.to_int n).

(** [parseInt s]; [None] stands for NaN. *)
Definition parseInt (s : string) : option Z :=
  option_map Z.of_int (NilZero.int_of_string s).

(** [arr.join(sep)]. *)
Fixpoint join (sep : string) (l : list string) : string :=
  match l with
  | [] => ""
  | [x] => x
  | x :: rest => x +:+ sep +:+ join sep rest
  end.

Section Sort.
Context {A : Type}.
Variable cmp : A -> A -> Z.

(** Stable insertion: [x] stood before every element of [l] in the
    original array, so it stays before the elements it ties with. *)
Fixpoint insert (x : A) (l : list A) : list A :=
  match l with
  | [] => [x]
  | y :: l' => if cmp x y <=? 0 then x :: y :: l' else y :: insert x l'
  end.

(** [arr.sort(cmp)]. *)
Definition sort (l : list A) : list A := fold_right insert [] l.
End Sort.

(** [arr.slice(0, n)] and [arr.slice(n)] for a non-negative count. *)
Definition slice_to {A} (n : nat) (l : list A) : list A := firstn n l.
Definition slice_from {A} (n : nat) (l : list A) : list A := skipn n l.

(** [Math.min(...xs)] and [Math.max(...xs)]; the program only spreads
    the six stat values, never an empty array. *)
Definition Math_min_list (xs : list Z) : Z :=
  match xs with [] => 0 | x :: rest => fold_left Z.min rest x end.
Definition Math_max_list (xs : list Z) : Z :=
  match xs with [] => 0 | x :: rest => fold_left Z.max rest x end.

(** [Map.get] and [Map.set] on an insertion-ordered map with string keys:
    [set] overwrites in place when the key is present and appends
    otherwise. *)
Fixpoint Map_get {V} (k : string) (m : list (string * V)) : option V :=
  match m with
  | [] => None
  | (k', v) :: m' => if String.eqb k' k then Some v else Map_get k m'
  end.

Fixpoint Map_set {V} (k : string) (v : V) (m : list (string * V)) : list (string * V) :=
  match m with
  | [] => [(k, v)]
  | (k', v') :: m' =>
      if String.eqb k' k then (k', v) :: m' else (k', v') :: Map_set k v m'
  end.

(** The line feed used by [join('\n')]. *)
Definition LF : string := String (ascii_of_nat 10) EmptyString.

End JS.

(* ===================================================================== *)
(** ** types.ts *)
(* ===================================================================== *)

Inductive ItemLocation := LocUnknown | Inventory | Vault | Vendor | Postmaster.

Inductive ItemTier :=
  TierUnknown | Currency | Basic | Common | Rare | Legendary | Exotic.

Inductive ArmorSlot := Helmet | Gauntlets | Chest | Legs | ClassItem.

Inductive DestinyClass := Titan | Hunter | Warlock | ClassUnknown.

Inductive ItemType := weapon | armor | other.

Inductive Action := KEEP | REVIEW | JUNK.

#[global] Instance ItemLocation_eq_dec : EqDecision ItemLocation.
Proof. solve_decision. Defined.
#[global] Instance ItemTier_eq_dec : EqDecision ItemTier.
Proof. solve_decision. Defined.
#[global] Instance ItemType_eq_dec : EqDecision ItemType.
Proof. solve_decision. Defined.
#[global] Instance Action_eq_dec : EqDecision Action.
Proof. solve_decision. Defined.

Record ArmorStats := {
  mobility : Z;
  resilience : Z;
  recovery : Z;
  discipline : Z;
  intellect : Z;
  strength : Z;
  total : Z
}.

Record InventoryItem := {
  itemInstanceId : string;
  itemHash : Z;
  name : string;
  itemType : ItemType;
  tier : ItemTier;
  location : ItemLocation;
  characterId : option string;
  isEquipped : bool;
  isLocked : bool;
  isMasterworked : bool;
  powerLevel : Z;
  armorSlot : option ArmorSlot;
  classType : option DestinyClass;
  stats : option ArmorStats;
  damageType : option Z;
  weaponType : option string
}.

Record CleanupRecommendation := {
  item : InventoryItem;
  action : Action;
  reason : string;
  score : option Z;
  protectedBy : option (list string)
}.

Record PlanSummary := {
  totalAnalyzed : nat;
  keep : nat;
  review : nat;
  junk : nat;
  protectedItems : nat
}.

Record CleanupPlan := {
  generatedAt : Z;
  summary : PlanSummary;
  recommendations : list CleanupRecommendation
}.

Record DIMLoadout := {
  loadoutId : string;
  loadoutName : string;
  loadoutClass : DestinyClass;
  itemIds : list string
}.

Record DIMBackup := {
  loadouts : list DIMLoadout;
  tags : gmap string string;
  notes : gmap string string
}.

Record ProtectionRules := {
  protectDIMLoadouts : bool;
  protectLockedItems : bool;
  protectMasterworked : bool;
  protectExotics : bool;
  protectHighStatArmor : bool;
  highStatThreshold : Z;
  customProtectedIds : list string
}.

(* ===================================================================== *)
(** ** dim/parser.ts: the lookups of the loaded backup *)
(* ===================================================================== *)

Module DIMParser.

(** The parser object: [backup] is [null] until a backup is loaded. *)
Record t := { backup : option DIMBackup }.

Definition loaded (p : t) : bool :=
  match backup p with Some _ => true | None => false end.

Definition includes (ids : list string) (id : string) : bool :=
  existsb (String.eqb id) ids.

Definition isInLoadout (p : t) (itemInstanceId : string) : bool :=
  match backup p with
  | None => false
  | Some b => existsb (fun l => includes (itemIds l) itemInstanceId) (loadouts b)
  end.

Definition getLoadoutsForItem (p : t) (itemInstanceId : string) : list DIMLoadout :=
  match backup p with
  | None => []
  | Some b => List.filter (fun l => includes (itemIds l) itemInstanceId) (loadouts b)
  end.

Definition getTag (p : t) (itemInstanceId : string) : option string :=
  match backup p with
  | None => None
  | Some b => tags b !! itemInstanceId
  end.

Definition getNote (p : t) (itemInstanceId : string) : option string :=
  match backup p with
  | None => None
  | Some b => notes b !! itemInstanceId
  end.

End DIMParser.

(* ===================================================================== *)
(** ** analysis/armor-scorer.ts *)
(* ===================================================================== *)

Record StatWeights := {
  w_mobility : Q;
  w_resilience : Q;
  w_recovery : Q;
  w_discipline : Q;
  w_intellect : Q;
  w_strength : Q
}.

Record StatProfile := {
  profileName : string;
  description : string;
  weights : StatWeights
}.

Definition mkWeights (m r rc d i s : Q) : StatWeights :=
  {| w_mobility := m; w_resilience := r; w_recovery := rc;
     w_discipline := d; w_intellect := i; w_strength := s |}.

(** The predefined profiles, in the insertion order of the object literal. *)
Definition STAT_PROFILES : list (string * StatProfile) :=
  [ ("pvp_hunter",
     {| profileName := "PvP Hunter";
        description := "High mobility and recovery for Crucible";
        weights := mkWeights (15#10) (12#10) (13#10) (8#10) (7#10) (5#10) |});
    ("pvp_titan",
     {| profileName := "PvP Titan";
        description := "High resilience with recovery focus";
        weights := mkWeights (5#10) (15#10) (13#10) (8#10) (7#10) (7#10) |});
    ("pvp_warlock",
     {| profileName := "PvP Warlock";
        description := "Recovery focused with resilience";
        weights := mkWeights (5#10) (13#10) (15#10) (9#10) (7#10) (5#10) |});
    ("pve_ability",
     {| profileName := "PvE Ability Spam";
        description := "Maximum ability regeneration";
        weights := mkWeights (3#10) (10#10) (8#10) (15#10) (5#10) (13#10) |});
    ("pve_balanced",
     {| profileName := "PvE Balanced";
        description := "Well-rounded for general PvE";
        weights := mkWeights (5#10) (12#10) (10#10) (12#10) (6#10) (8#10) |});
    ("gm_nightfall",
     {| profileName := "GM Nightfall";
        description := "Survival focused with discipline";
        weights := mkWeights (3#10) (15#10) (12#10) (13#10) (5#10) (5#10) |}) ].

Record ArmorAnalysis := {
  totalStats : Z;
  hasSpike : bool;
  hasSuperSpike : bool;
  topStats : list (string * Z);
  weakStats : list (string * Z);
  isWellDistributed : bool;
  artificeSlot : bool
}.

Record ArmorScore := {
  totalScore : Z;
  profileScores : list (string * Q);
  bestProfile : string;
  bestProfileScore : Q;
  analysis : ArmorAnalysis
}.

Record Thresholds := {
  minTotalStats : Z;
  goodTotalStats : Z;
  excellentTotalStats : Z;
  spikeThreshold : Z;
  superSpikeThreshold : Z;
  weakStatThreshold : Z
}.

Record ComparisonResult := {
  winner : option InventoryItem;
  cmpReason : string;
  score1 : option ArmorScore;
  score2 : option ArmorScore
}.

Module ArmorScorer.

(** The scorer object: its profile map (insertion ordered) and its
    threshold table. *)
Record t := {
  profiles : list (string * StatProfile);
  customThresholds : Thresholds
}.

Definition defaultThresholds : Thresholds :=
  {| minTotalStats := 60; goodTotalStats := 65; excellentTotalStats := 68;
     spikeThreshold := 20; superSpikeThreshold := 26; weakStatThreshold := 6 |}.

(** [new ArmorScorer()]. *)
Definition new : t :=
  {| profiles := STAT_PROFILES; customThresholds := defaultThresholds |}.

Definition addProfile (s : t) (id : string) (profile : StatProfile) : t :=
  {| profiles := JS.Map_set id profile (profiles s);
     customThresholds := customThresholds s |}.

Definition statValues (stats : ArmorStats) : list (string * Z) :=
  [ ("Mobility", mobility stats);
    ("Resilience", resilience stats);
    ("Recovery", recovery stats);
    ("Discipline", discipline stats);
    ("Intellect", intellect stats);
    ("Strength", strength stats) ].

Definition analyzeStats (s : t) (stats : ArmorStats) : ArmorAnalysis :=
  let th := customThresholds s in
  let sv := statValues stats in
  let sorted := JS.sort (fun a b => snd b - snd a) sv in
  let topStats := JS.slice_to 2 sorted in
  let weakStats := List.filter (fun x => snd x <=? weakStatThreshold th) sv in
  let hasSpike := existsb (fun x => snd x >=? spikeThreshold th) sv in
  let hasSuperSpike := existsb (fun x => snd x >=? superSpikeThreshold th) sv in
  let minStat := JS.Math_min_list (List.map snd sv) in
  let maxStat := JS.Math_max_list (List.map snd sv) in
  let isWellDistributed := (minStat >=? 6) && (maxStat - minStat <=? 15) in
  {| totalStats := total stats;
     hasSpike := hasSpike;
     hasSuperSpike := hasSuperSpike;
     topStats := topStats;
     weakStats := weakStats;
     isWellDistributed := isWellDistributed;
     artificeSlot := false |}.

Definition calculateProfileScore (stats : ArmorStats) (profile : StatProfile) : Q :=
  let w := weights profile in
  let weightedSum :=
    (inject_Z (mobility stats) * w_mobility w +
     inject_Z (resilience stats) * w_resilience w +
     inject_Z (recovery stats) * w_recovery w +
     inject_Z (discipline stats) * w_discipline w +
     inject_Z (intellect stats) * w_intellect w +
     inject_Z (strength stats) * w_strength w)%Q in
  let totalWeight :=
    (w_mobility w + w_resilience w + w_recovery w +
     w_discipline w + w_intellect w + w_strength w)%Q in
  (inject_Z (JS.Math_round ((weightedSum / totalWeight) * 10)) / 10)%Q.

(** The five contributions that [calculateTotalScore] adds to [score],
    in the order of the source. *)
Definition baseScore (s : t) (stats : ArmorStats) : Q :=
  let th := customThresholds s in
  if total stats >=? excellentTotalStats th then 40%Q
  else if total stats >=? goodTotalStats th then 30%Q
  else if total stats >=? minTotalStats th then 20%Q
  else JS.Qmax 0 ((inject_Z (total stats) / inject_Z (minTotalStats th)) * 20)%Q.

Definition spikeBonus (a : ArmorAnalysis) : Q :=
  if hasSuperSpike a then 30%Q else if hasSpike a then 20%Q else 0%Q.

Definition distributionBonus (a : ArmorAnalysis) : Q :=
  if isWellDistributed a then 15%Q else 0%Q.

Definition weakPenalty (a : ArmorAnalysis) : Q :=
  inject_Z (Z.min (Z.of_nat (length (weakStats a)) * 5) 15).

Definition topStatSum (a : ArmorAnalysis) : Z :=
  fold_left (fun sum x => sum + snd x) (topStats a) 0.

Definition topStatBonus (a : ArmorAnalysis) : Q :=
  if topStatSum a >=? 45 then 15%Q
  else if topStatSum a >=? 40 then 10%Q
  else if topStatSum a >=? 35 then 5%Q
  else 0%Q.

Definition calculateTotalScore (s : t) (stats : ArmorStats) (a : ArmorAnalysis) : Z :=
  let score := 0%Q in
  let score := (score + baseScore s stats)%Q in
  let score := (score + spikeBonus a)%Q in
  let score := (score + distributionBonus a)%Q in
  let score := (score - weakPenalty a)%Q in
  let score := (score + topStatBonus a)%Q in
  Z.max 0 (Z.min 100 (JS.Math_round score)).

(** [a > b] on profile scores. *)
Definition Qgtb (a b : Q) : bool := negb (Qle_bool a b).

(** One iteration of the loop over the profile map. *)
Definition scoreStep (stats : ArmorStats)
    (acc : list (string * Q) * string * Q) (entry : string * StatProfile)
    : list (string * Q) * string * Q :=
  let '(profileScores, bestProfile, bestProfileScore) := acc in
  let '(id, profile) := entry in
  let score := calculateProfileScore stats profile in
  let profileScores := JS.Map_set id score profileScores in
  if Qgtb score bestProfileScore
  then (profileScores, id, score)
  else (profileScores, bestProfile, bestProfileScore).

Definition scoreArmor (s : t) (it : InventoryItem) : option ArmorScore :=
  match itemType it, stats it with
  | armor, Some st =>
      let analysis := analyzeStats s st in
      let '(profileScores, bestProfile, bestProfileScore) :=
        fold_left (scoreStep st) (profiles s) ([], "", 0%Q) in
      let totalScore := calculateTotalScore s st analysis in
      Some {| totalScore := totalScore;
              profileScores := profileScores;
              bestProfile := bestProfile;
              bestProfileScore := bestProfileScore;
              analysis := analysis |}
  | _, _ => None
  end.

(** Template-literal rendering of a profile score, a multiple of 1/10. *)
Definition showTenths (q : Q) : string :=
  let n := Qfloor (q * 10) in
  let a := Z.abs n in
  (if n <? 0 then "-" else "") +:+ JS.toString (a / 10) +:+
  (if a mod 10 =? 0 then "" else "." +:+ JS.toString (a mod 10)).

Definition compareArmor (s : t) (item1 item2 : InventoryItem) : ComparisonResult :=
  let score1 := scoreArmor s item1 in
  let score2 := scoreArmor s item2 in
  match score1, score2 with
  | None, None =>
      {| winner := None; cmpReason := "Neither item has stats";
         score1 := score1; score2 := score2 |}
  | None, Some _ =>
      {| winner := Some item2; cmpReason := "First item has no stats";
         score1 := score1; score2 := score2 |}
  | Some _, None =>
      {| winner := Some item1; cmpReason := "Second item has no stats";
         score1 := score1; score2 := score2 |}
  | Some s1, Some s2 =>
      let scoreDiff := totalScore s1 - totalScore s2 in
      if Z.abs scoreDiff <? 5 then
        let profile1Best := bestProfileScore s1 in
        let profile2Best := bestProfileScore s2 in
        if Qgtb profile1Best (profile2Best + 2)%Q then
          {| winner := Some item1;
             cmpReason := "Better for " +:+ bestProfile s1 +:+ " builds (" +:+
                          showTenths profile1Best +:+ " vs " +:+
                          showTenths profile2Best +:+ ")";
             score1 := score1; score2 := score2 |}
        else if Qgtb profile2Best (profile1Best + 2)%Q then
          {| winner := Some item2;
             cmpReason := "Better for " +:+ bestProfile s2 +:+ " builds (" +:+
                          showTenths profile2Best +:+ " vs " +:+
                          showTenths profile1Best +:+ ")";
             score1 := score1; score2 := score2 |}
        else
          {| winner := None;
             cmpReason := "Too close to call (" +:+ JS.toString (totalScore s1) +:+
                          " vs " +:+ JS.toString (totalScore s2) +:+ ")";
             score1 := score1; score2 := score2 |}
      else
        let winner := if scoreDiff >? 0 then item1 else item2 in
        let winnerScore := if scoreDiff >? 0 then s1 else s2 in
        let loserScore := if scoreDiff >? 0 then s2 else s1 in
        {| winner := Some winner;
           cmpReason := "Higher overall score (" +:+ JS.toString (totalScore winnerScore) +:+
                        " vs " +:+ JS.toString (totalScore loserScore) +:+ ")";
           score1 := score1; score2 := score2 |}
  end.

End ArmorScorer.

Definition mkStats (m r rc d i s : Z) : ArmorStats :=
  {| mobility := m; resilience := r; recovery := rc; discipline := d;
     intellect := i; strength := s; total := m + r + rc + d + i + s |}.

Definition mkArmor (id : string) (h : Z) (st : option ArmorStats) : InventoryItem :=
  {| itemInstanceId := id; itemHash := h; name := "armor"; itemType := armor;
     tier := Legendary; location := Vault; characterId := None;
     isEquipped := false; isLocked := false; isMasterworked := false;
     powerLevel := 1800; armorSlot := Some Helmet; classType := Some Titan;
     stats := st; damageType := None; weaponType := None |}.


(** The comparator that ranks weapon copies: masterworked first, then
    locked, then the higher power level.  [DuplicateFinder.recommendWeapons]
    and [CleanupPlanner.analyzeWeapon] each spell out this same function. *)
Definition weaponOrder (a b : InventoryItem) : Z :=
  if negb (Bool.eqb (isMasterworked a) (isMasterworked b)) then
    (if isMasterworked a then -1 else 1)
  else if negb (Bool.eqb (isLocked a) (isLocked b)) then
    (if isLocked a then -1 else 1)
  else powerLevel b - powerLevel a.

(* ===================================================================== *)
(** ** analysis/duplicate-finder.ts *)
(* ===================================================================== *)

Record DuplicateRecommendation := {
  rec_keep : list InventoryItem;
  rec_discard : list InventoryItem;
  rec_review : list InventoryItem;
  reasoning : string
}.

Record DuplicateGroup := {
  g_itemHash : option Z;          (* [parseInt(hash)]; [None] is NaN *)
  g_name : string;
  g_slot : option ArmorSlot;
  g_classType : option DestinyClass;
  g_items : list InventoryItem;
  g_recommendation : DuplicateRecommendation
}.

Record DuplicateFinderOptions := {
  includeWeapons : bool;
  includeArmor : bool;
  minDuplicates : Z;
  keepCount : nat
}.

Definition DEFAULT_OPTIONS : DuplicateFinderOptions :=
  {| includeWeapons := true; includeArmor := true; minDuplicates := 2; keepCount := 1 |}.

Module DuplicateFinder.

Record t := {
  scorer : ArmorScorer.t;
  options : DuplicateFinderOptions
}.

(** [new DuplicateFinder(options)], the options already merged over
    [DEFAULT_OPTIONS]. *)
Definition new (o : DuplicateFinderOptions) : t :=
  {| scorer := ArmorScorer.new; options := o |}.

Definition scoreOf (s : option ArmorScore) : Z :=
  match s with Some sc => totalScore sc | None => 0 end.

Definition showScore (s : option ArmorScore) : string :=
  match s with Some sc => JS.toString (totalScore sc) | None => "undefined" end.

Definition showTotal (it : InventoryItem) : string :=
  match stats it with Some st => JS.toString (total st) | None => "undefined" end.

(** The second loop of [recommendArmor]: the scored items after the kept
    ones, against the best score of the group. *)
Fixpoint processRemaining (bestScore : option ArmorScore)
    (rest : list (InventoryItem * option ArmorScore))
    (acc : list InventoryItem * list InventoryItem * list string)
    : list InventoryItem * list InventoryItem * list string :=
  match rest with
  | [] => acc
  | (it, sc) :: rest' =>
      let '(discard, review, reasons) := acc in
      let acc' :=
        match bestScore, sc with
        | Some b, Some s =>
            if totalScore b - totalScore s >? 15 then
              (discard ++ [it], review,
               reasons ++ ["Discard " +:+ name it +:+ " (score: " +:+
                           JS.toString (totalScore s) +:+ ", significantly worse than best)"])
            else if totalScore s >=? 60 then
              (discard, review ++ [it],
               reasons ++ ["Review " +:+ name it +:+ " (score: " +:+
                           JS.toString (totalScore s) +:+ ", may be useful for specific builds)"])
            else
              (discard ++ [it], review,
               reasons ++ ["Discard " +:+ name it +:+ " (score: " +:+
                           JS.toString (totalScore s) +:+ ", low quality)"])
        | _, Some s =>
            if totalScore s >=? 60 then
              (discard, review ++ [it],
               reasons ++ ["Review " +:+ name it +:+ " (score: " +:+
                           JS.toString (totalScore s) +:+ ", may be useful for specific builds)"])
            else
              (discard ++ [it], review,
               reasons ++ ["Discard " +:+ name it +:+ " (score: " +:+
                           JS.toString (totalScore s) +:+ ", low quality)"])
        | _, None =>
            (discard ++ [it], review,
             reasons ++ ["Discard " +:+ name it +:+ " (score: 0, low quality)"])
        end in
      processRemaining bestScore rest' acc'
  end.

(** The last loop of [recommendArmor]: locked or masterworked discards
    move to review. *)
Fixpoint factorProtection (discard : list InventoryItem)
    (acc : list InventoryItem * list InventoryItem * list string)
    : list InventoryItem * list InventoryItem * list string :=
  match discard with
  | [] => acc
  | it :: rest =>
      let '(review, unprotectedDiscard, reasons) := acc in
      if isLocked it || isMasterworked it then
        factorProtection rest
          (review ++ [it], unprotectedDiscard,
           reasons ++ ["Moved " +:+ name it +:+ " to review (" +:+
                       (if isLocked it then "locked" else "masterworked") +:+ ")"])
      else
        factorProtection rest (review, unprotectedDiscard ++ [it], reasons)
  end.

Definition recommendArmor (f : t) (items : list InventoryItem) : DuplicateRecommendation :=
  let scored := List.map (fun it => (it, ArmorScorer.scoreArmor (scorer f) it)) items in
  let withScores :=
    List.filter (fun s => match snd s with Some _ => true | None => false end) scored in
  let withoutScores :=
    List.filter (fun s => match snd s with Some _ => false | None => true end) scored in
  let withScores := JS.sort (fun a b => scoreOf (snd b) - scoreOf (snd a)) withScores in
  let kc := keepCount (options f) in
  let kept := firstn (Nat.min kc (length withScores)) withScores in
  let keep := List.map fst kept in
  let reasons :=
    List.map (fun s => "Keep " +:+ name (fst s) +:+ " (score: " +:+ showScore (snd s) +:+
                       ", stats: " +:+ showTotal (fst s) +:+ ")") kept in
  let bestScore := match withScores with s :: _ => snd s | [] => None end in
  let '(discard, review, reasons) :=
    processRemaining bestScore (skipn kc withScores) ([], [], reasons) in
  let review := review ++ List.map fst withoutScores in
  let reasons :=
    reasons ++ List.map (fun s => "Review " +:+ name (fst s) +:+ " (no stats available)")
                        withoutScores in
  let protectedKeep : list InventoryItem := [] in
  let '(review, unprotectedDiscard, reasons) :=
    factorProtection discard (review, [], reasons) in
  {| rec_keep := keep ++ protectedKeep;
     rec_discard := unprotectedDiscard;
     rec_review := review;
     reasoning := JS.join JS.LF reasons |}.

Definition recommendWeapons (f : t) (items : list InventoryItem) : DuplicateRecommendation :=
  let sorted := JS.sort weaponOrder items in
  let keep := JS.slice_to (keepCount (options f)) sorted in
  let remaining := JS.slice_from (keepCount (options f)) sorted in
  let review := List.filter (fun it => isLocked it || isMasterworked it) remaining in
  let discard := List.filter (fun it => negb (isLocked it || isMasterworked it)) remaining in
  let reasoning :=
    JS.join JS.LF
      (List.filter (fun s => negb (String.eqb s ""))
         [ "Keep " +:+
             JS.join ", "
               (List.map (fun i => name i +:+ " (PL: " +:+ JS.toString (powerLevel i) +:+
                                   (if isMasterworked i then ", MW" else "") +:+ ")") keep);
           if (0 <? length discard)%nat
           then "Discard " +:+ JS.toString (Z.of_nat (length discard)) +:+
                " lower-priority duplicates"
           else "";
           if (0 <? length review)%nat
           then "Review " +:+ JS.toString (Z.of_nat (length review)) +:+
                " items (locked or masterworked)"
           else "" ]) in
  {| rec_keep := keep; rec_discard := discard; rec_review := review;
     reasoning := reasoning |}.

Definition generateRecommendation (f : t) (items : list InventoryItem)
    : DuplicateRecommendation :=
  match items with
  | first :: _ =>
      match itemType first with
      | armor => recommendArmor f items
      | _ => recommendWeapons f items
      end
  | [] => recommendWeapons f items
  end.

(** One iteration of the grouping loop. *)
Definition groupStep (f : t) (groups : list (string * list InventoryItem))
    (it : InventoryItem) : list (string * list InventoryItem) :=
  match itemType it with
  | weapon => if negb (includeWeapons (options f)) then groups else
      let key := JS.toString (itemHash it) in
      let group := match JS.Map_get key groups with Some g => g | None => [] end in
      JS.Map_set key (group ++ [it]) groups
  | armor => if negb (includeArmor (options f)) then groups else
      let key := JS.toString (itemHash it) in
      let group := match JS.Map_get key groups with Some g => g | None => [] end in
      JS.Map_set key (group ++ [it]) groups
  | other => groups
  end.

Definition groupByHash (f : t) (items : list InventoryItem)
    : list (string * list InventoryItem) :=
  fold_left (groupStep f) items [].

(** One iteration of the loop that turns the map entries into groups. *)
Definition toGroup (f : t) (entry : string * list InventoryItem)
    : option DuplicateGroup :=
  let '(hash, groupItems) := entry in
  if Z.of_nat (length groupItems) <? minDuplicates (options f) then None
  else
    match groupItems with
    | [] => None
    | firstItem :: _ =>
        Some {| g_itemHash := JS.parseInt hash;
                g_name := name firstItem;
                g_slot := armorSlot firstItem;
                g_classType := classType firstItem;
                g_items := groupItems;
                g_recommendation := generateRecommendation f groupItems |}
    end.

Definition collectGroups (f : t) (groups : list (string * list InventoryItem))
    : list DuplicateGroup :=
  flat_map (fun e => match toGroup f e with Some g => [g] | None => [] end) groups.

Definition groupSizeOrder (a b : DuplicateGroup) : Z :=
  Z.of_nat (length (g_items b)) - Z.of_nat (length (g_items a)).

Definition findDuplicates (f : t) (items : list InventoryItem) : list DuplicateGroup :=
  JS.sort groupSizeOrder (collectGroups f (groupByHash f items)).

End DuplicateFinder.

(* ===================================================================== *)
(** ** planner/cleanup-planner.ts *)
(* ===================================================================== *)

Definition DEFAULT_PROTECTION_RULES : ProtectionRules :=
  {| protectDIMLoadouts := true;
     protectLockedItems := true;
     protectMasterworked := true;
     protectExotics := true;
     protectHighStatArmor := true;
     highStatThreshold := 65;
     customProtectedIds := [] |}.

Record CleanupPlannerConfig := {
  cfg_protectionRules : ProtectionRules;
  includeCharacterInventory : bool;
  onlyVault : bool
}.

Module CleanupPlanner.

(** The planner object.  [dimParser] is the parser the planner was
    constructed with, in the state it has when a method runs. *)
Record t := {
  dimParser : DIMParser.t;
  armorScorer : ArmorScorer.t;
  duplicateFinder : DuplicateFinder.t;
  protectionRules : ProtectionRules;
  config : CleanupPlannerConfig
}.

(** [new CleanupPlanner(dimParser, config)]; an absent field of the
    partial configuration is [None]. *)
Definition new (parser : DIMParser.t) (rules : option ProtectionRules)
    (inclChar : option bool) (vaultOnly : option bool) : t :=
  let r := match rules with Some r => r | None => DEFAULT_PROTECTION_RULES end in
  {| dimParser := parser;
     armorScorer := ArmorScorer.new;
     duplicateFinder := DuplicateFinder.new DEFAULT_OPTIONS;
     protectionRules := r;
     config := {| cfg_protectionRules := r;
                  includeCharacterInventory :=
                    match inclChar with Some b => b | None => false end;
                  onlyVault := match vaultOnly with Some b => b | None => true end |} |}.

(** [updateProtectionRules] with every field supplied. *)
Definition updateProtectionRules (p : t) (rules : ProtectionRules) : t :=
  {| dimParser := dimParser p;
     armorScorer := armorScorer p;
     duplicateFinder := duplicateFinder p;
     protectionRules := rules;
     config := {| cfg_protectionRules := rules;
                  includeCharacterInventory := includeCharacterInventory (config p);
                  onlyVault := onlyVault (config p) |} |}.

Definition pushIf {A} (c : bool) (x : A) (l : list A) : list A :=
  if c then l ++ [x] else l.

(** The array [protectedBy] of [analyzeItem] once every rule and the DIM
    tag have been checked. *)
Definition protectionReasons (p : t) (it : InventoryItem) : list string :=
  let rules := protectionRules p in
  let protectedBy : list string := [] in
  let protectedBy :=
    if protectDIMLoadouts rules && DIMParser.loaded (dimParser p) then
      let loadouts := DIMParser.getLoadoutsForItem (dimParser p) (itemInstanceId it) in
      pushIf (0 <? length loadouts)%nat
        ("DIM Loadouts: " +:+ JS.join ", " (List.map loadoutName loadouts)) protectedBy
    else protectedBy in
  let protectedBy :=
    pushIf (protectLockedItems rules && isLocked it) "Locked in game" protectedBy in
  let protectedBy :=
    pushIf (protectMasterworked rules && isMasterworked it) "Masterworked" protectedBy in
  let protectedBy :=
    pushIf (protectExotics rules && bool_decide (tier it = Exotic)) "Exotic item"
      protectedBy in
  let protectedBy :=
    pushIf (DIMParser.includes (customProtectedIds rules) (itemInstanceId it))
      "Custom protection" protectedBy in
  if DIMParser.loaded (dimParser p) then
    match DIMParser.getTag (dimParser p) (itemInstanceId it) with
    | Some tag =>
        if String.eqb tag "favorite" then protectedBy ++ ["DIM Favorite"]
        else if String.eqb tag "keep" then protectedBy ++ ["DIM Keep tag"]
        else protectedBy
    | None => protectedBy
    end
  else protectedBy.

(** The array [reasons] of [analyzeItem] once the DIM tag has been
    checked. *)
Definition tagReasons (p : t) (it : InventoryItem) : list string :=
  if DIMParser.loaded (dimParser p) then
    match DIMParser.getTag (dimParser p) (itemInstanceId it) with
    | Some tag =>
        if String.eqb tag "favorite" then []
        else if String.eqb tag "keep" then []
        else if String.eqb tag "junk" then ["Tagged as junk in DIM"]
        else []
    | None => []
    end
  else [].

Definition hasBetterDuplicate (p : t) (it : InventoryItem)
    (allItems : list InventoryItem) : bool :=
  let duplicates :=
    List.filter
      (fun i => (itemHash i =? itemHash it) &&
                negb (String.eqb (itemInstanceId i) (itemInstanceId it)) &&
                bool_decide (itemType i = armor)) allItems in
  match duplicates with
  | [] => false
  | _ =>
      match ArmorScorer.scoreArmor (armorScorer p) it with
      | None => false
      | Some itemScore =>
          existsb
            (fun dupe =>
               match ArmorScorer.scoreArmor (armorScorer p) dupe with
               | Some dupeScore => totalScore dupeScore >? totalScore itemScore + 10
               | None => false
               end) duplicates
      end
  end.

(** The high-stat check of [analyzeArmor]: the stats of the item when
    the rule is on, the item has stats and their total reaches the
    threshold. *)
Definition highStatProtected (p : t) (it : InventoryItem) : option ArmorStats :=
  match stats it with
  | Some st =>
      if protectHighStatArmor (protectionRules p) &&
         (total st >=? highStatThreshold (protectionRules p))
      then Some st else None
  | None => None
  end.

Definition analyzeArmor (p : t) (it : InventoryItem) (allItems : list InventoryItem)
    (existingReasons : list string) : CleanupRecommendation :=
  let reasons := existingReasons in
  match ArmorScorer.scoreArmor (armorScorer p) it with
  | Some armorScore =>
      let score := totalScore armorScore in
      match highStatProtected p it with
      | Some st =>
          {| item := it; action := KEEP;
             reason := "High stat armor (" +:+ JS.toString (total st) +:+ " total)";
             score := Some score;
             protectedBy := Some ["High stats: " +:+ JS.toString (total st) +:+ " total"] |}
      | None =>
          if score >=? 75 then
            let reasons :=
              reasons ++ ["Excellent armor score: " +:+ JS.toString score +:+ "/100"] in
            {| item := it; action := KEEP; reason := JS.join ". " reasons;
               score := Some score; protectedBy := None |}
          else if score >=? 50 then
            let reasons :=
              reasons ++ ["Decent armor score: " +:+ JS.toString score +:+ "/100"] in
            if hasBetterDuplicate p it allItems then
              let reasons := reasons ++ ["Better duplicate exists"] in
              {| item := it; action := REVIEW; reason := JS.join ". " reasons;
                 score := Some score; protectedBy := None |}
            else
              {| item := it; action := KEEP; reason := JS.join ". " reasons;
                 score := Some score; protectedBy := None |}
          else if score >=? 30 then
            let reasons :=
              reasons ++ ["Below average armor score: " +:+ JS.toString score +:+ "/100"] in
            {| item := it; action := REVIEW; reason := JS.join ". " reasons;
               score := Some score; protectedBy := None |}
          else
            let reasons :=
              reasons ++ ["Poor armor score: " +:+ JS.toString score +:+ "/100"] in
            {| item := it; action := JUNK; reason := JS.join ". " reasons;
               score := Some score; protectedBy := None |}
      end
  | None =>
      let reasons := reasons ++ ["Unable to score (no stats)"] in
      {| item := it; action := REVIEW; reason := JS.join ". " reasons;
         score := None; protectedBy := None |}
  end.

Definition analyzeWeapon (p : t) (it : InventoryItem) (allItems : list InventoryItem)
    (existingReasons : list string) : CleanupRecommendation :=
  let reasons := existingReasons in
  let duplicates :=
    List.filter
      (fun i => (itemHash i =? itemHash it) &&
                negb (String.eqb (itemInstanceId i) (itemInstanceId it))) allItems in
  match duplicates with
  | [] =>
      let reasons := reasons ++ ["Only copy of this weapon"] in
      {| item := it; action := KEEP; reason := JS.join ". " reasons;
         score := None; protectedBy := None |}
  | _ :: _ =>
      let allCopies := it :: duplicates in
      let sorted := JS.sort weaponOrder allCopies in
      (* [sorted] is [allCopies] itself, sorted in place; its length is
         that of the unsorted array. *)
      let bestCopy := match sorted with b :: _ => b | [] => it end in
      if String.eqb (itemInstanceId bestCopy) (itemInstanceId it) then
        let reasons :=
          reasons ++ ["Best copy among " +:+ JS.toString (Z.of_nat (length sorted)) +:+
                      " duplicates"] in
        {| item := it; action := KEEP; reason := JS.join ". " reasons;
           score := None; protectedBy := None |}
      else
        let reasons :=
          reasons ++ ["Duplicate (" +:+ JS.toString (Z.of_nat (length duplicates)) +:+
                      " others exist)"] in
        let reasons := reasons ++ ["Not the best copy"] in
        {| item := it; action := JUNK; reason := JS.join ". " reasons;
           score := None; protectedBy := None |}
  end.

Definition analyzeItem (p : t) (it : InventoryItem) (allItems : list InventoryItem)
    : CleanupRecommendation :=
  let protectedBy := protectionReasons p it in
  let reasons := tagReasons p it in
  if (0 <? length protectedBy)%nat then
    {| item := it; action := KEEP;
       reason := "Protected: " +:+ JS.join ", " protectedBy;
       score := None;
       protectedBy := Some protectedBy |}
  else
    match itemType it with
    | armor => analyzeArmor p it allItems reasons
    | _ => analyzeWeapon p it allItems reasons
    end.

Definition actionOrder (a : Action) : Z :=
  match a with JUNK => 0 | REVIEW => 1 | KEEP => 2 end.

Definition isProtected (r : CleanupRecommendation) : bool :=
  match protectedBy r with
  | Some l => (0 <? length l)%nat
  | None => false
  end.

Definition targetItems (p : t) (items : list InventoryItem) : list InventoryItem :=
  List.filter
    (fun it =>
       if onlyVault (config p) && negb (bool_decide (location it = Vault)) then false
       else bool_decide (itemType it = weapon) || bool_decide (itemType it = armor))
    items.

(** [generatePlan]; [now] is the value [new Date()] yields during the
    call. *)
Definition generatePlan (p : t) (now : Z) (items : list InventoryItem) : CleanupPlan :=
  let targetItems := targetItems p items in
  let recommendations := List.map (fun it => analyzeItem p it targetItems) targetItems in
  let recommendations :=
    JS.sort (fun a b => actionOrder (action a) - actionOrder (action b)) recommendations in
  let summary :=
    {| totalAnalyzed := length recommendations;
       keep := length (List.filter (fun r => bool_decide (action r = KEEP)) recommendations);
       review := length (List.filter (fun r => bool_decide (action r = REVIEW)) recommendations);
       junk := length (List.filter (fun r => bool_decide (action r = JUNK)) recommendations);
       protectedItems := length (List.filter isProtected recommendations) |} in
  {| generatedAt := now; summary := summary; recommendations := recommendations |}.

Definition getJunkItems (plan : CleanupPlan) : list InventoryItem :=
  List.map item (List.filter (fun r => bool_decide (action r = JUNK)) (recommendations plan)).

Definition getReviewItems (plan : CleanupPlan) : list InventoryItem :=
  List.map item (List.filter (fun r => bool_decide (action r = REVIEW)) (recommendations plan)).

End CleanupPlanner.

(* ===================================================================== *)
(** ** Vocabulary of the properties and fixtures *)
(* ===================================================================== *)

Import CleanupPlanner.

(** [d] ranks strictly above [x]: masterworked beats not masterworked, then
    locked beats unlocked, then the higher power level wins. *)
Definition ranksAbove (d x : InventoryItem) : Prop :=
  (isMasterworked d = true /\ isMasterworked x = false) \/
  (isMasterworked d = isMasterworked x /\ isLocked d = true /\ isLocked x = false) \/
  (isMasterworked d = isMasterworked x /\ isLocked d = isLocked x /\
   powerLevel x < powerLevel d).


Definition mkWeapon (id : string) (h : Z) (pl : Z) : InventoryItem :=
  {| itemInstanceId := id; itemHash := h; name := "weapon"; itemType := weapon;
     tier := Legendary; location := Vault; characterId := None;
     isEquipped := false; isLocked := false; isMasterworked := false;
     powerLevel := pl; armorSlot := None; classType := None;
     stats := None; damageType := None; weaponType := None |}.

Definition lockItem (it : InventoryItem) : InventoryItem :=
  {| itemInstanceId := itemInstanceId it; itemHash := itemHash it; name := name it;
     itemType := itemType it; tier := tier it; location := location it;
     characterId := characterId it; isEquipped := isEquipped it; isLocked := true;
     isMasterworked := isMasterworked it; powerLevel := powerLevel it;
     armorSlot := armorSlot it; classType := classType it; stats := stats it;
     damageType := damageType it; weaponType := weaponType it |}.

(** A planner with the default rules and no backup loaded. *)
Definition plainPlanner : CleanupPlanner.t :=
  CleanupPlanner.new {| DIMParser.backup := None |} None None None.

(** The stat vector of scenario A: Mobility 2, Resilience 20, Recovery 26,
    Discipline 15, Intellect 6, Strength 8. *)
Definition scenarioA_stats : ArmorStats := mkStats 2 20 26 15 6 8.

Definition scenarioA_item : InventoryItem := mkArmor "scenario-a" 101 (Some scenarioA_stats).

(** A scorer with the built-in thresholds and any profile map. *)
Definition scorerWith (profs : list (string * StatProfile)) : ArmorScorer.t :=
  {| ArmorScorer.profiles := profs;
     ArmorScorer.customThresholds := ArmorScorer.defaultThresholds |}.

(** The item reaches the high-stat protection threshold: the rule is on and
    the stat total is at least the configured threshold. *)
Definition meetsHighStatThreshold (p : CleanupPlanner.t) (it : InventoryItem) : Prop :=
  protectHighStatArmor (protectionRules p) = true /\
  exists st, stats it = Some st /\ highStatThreshold (protectionRules p) <= total st.

(** Some other armor candidate of the same definition scores more than 10
    points above the item. *)
Definition betterDuplicateExists (p : CleanupPlanner.t) (it : InventoryItem)
    (candidates : list InventoryItem) : Prop :=
  exists d sd si,
    In d candidates /\
    itemHash d = itemHash it /\
    itemInstanceId d <> itemInstanceId it /\
    itemType d = armor /\
    ArmorScorer.scoreArmor (armorScorer p) d = Some sd /\
    ArmorScorer.scoreArmor (armorScorer p) it = Some si /\
    totalScore si + 10 < totalScore sd.

(** Scenario E: an armor piece scoring 42. *)
Definition scenarioE_item : InventoryItem :=
  mkArmor "scenario-e" 202 (Some (mkStats 2 10 2 6 2 30)).

(** The other copies of [it]: the candidates with its definition
    identifier and another instance identifier (the array [duplicates] of
    [analyzeWeapon]). *)
Definition otherCopies (it : InventoryItem) (candidates : list InventoryItem)
    : list InventoryItem :=
  List.filter
    (fun i => (itemHash i =? itemHash it) &&
              negb (String.eqb (itemInstanceId i) (itemInstanceId it))) candidates.

Definition weaponRec (it : InventoryItem) (a : Action) (reasons : list string)
    : CleanupRecommendation :=
  {| item := it; action := a; reason := JS.join ". " reasons;
     score := None; protectedBy := None |}.

(** Scenario B: three copies of one weapon at power 1810, 1805 and 1800,
    none locked or masterworked. *)
Definition scenarioB_items : list InventoryItem :=
  [mkWeapon "b-1810" 303 1810; mkWeapon "b-1805" 303 1805; mkWeapon "b-1800" 303 1800].

(** Two copies of one weapon that tie on the whole ranking key. *)
Definition tied_items : list InventoryItem :=
  [mkWeapon "t-1" 404 1810; mkWeapon "t-2" 404 1810].

(** "The item at the top of the ranking gets KEEP and every other copy gets
    JUNK": some copy [top] is kept and all the others are junked. *)
Definition one_kept_rest_junked (recs : list CleanupRecommendation) : Prop :=
  exists top,
    forall rec, In rec recs ->
      (item rec = top -> action rec = KEEP) /\
      (item rec <> top -> action rec = JUNK).

(** The planner [p] with the backup [b] loaded in its parser. *)
Definition withBackup (p : CleanupPlanner.t) (b : DIMBackup) : CleanupPlanner.t :=
  {| dimParser := {| DIMParser.backup := Some b |};
     armorScorer := armorScorer p;
     duplicateFinder := duplicateFinder p;
     protectionRules := protectionRules p;
     config := config p |}.

(** The backup [b] with the item tagged junk, and with the item untagged. *)
Definition taggedJunk (b : DIMBackup) (id : string) : DIMBackup :=
  {| loadouts := loadouts b; tags := <[id := "junk"]> (tags b); notes := notes b |}.

Definition untagged (b : DIMBackup) (id : string) : DIMBackup :=
  {| loadouts := loadouts b; tags := delete id (tags b); notes := notes b |}.

Definition junkNote : string := "Tagged as junk in DIM. ".

(** What the grouping loop maintains: every member of the group stored
    under a key is an input item that is not of category other and whose
    definition identifier prints as that key. *)
Definition groupsInv (items : list InventoryItem)
    (groups : list (string * list InventoryItem)) : Prop :=
  forall k grp, In (k, grp) groups ->
    forall x, In x grp ->
      JS.toString (itemHash x) = k /\ itemType x <> other /\ In x items.

(** No protection rule applies to the item: it is in no loadout of the
    loaded backup (when loadouts protect), it is not locked (when locks
    protect), not masterworked (when masterwork protects), not exotic
    (when exotics protect), not on the custom list, and not tagged
    favorite or keep in the loaded backup. *)
Definition unprotected (p : CleanupPlanner.t) (it : InventoryItem) : Prop :=
  let rules := protectionRules p in
  let parser := dimParser p in
  ~ (protectDIMLoadouts rules = true /\ DIMParser.loaded parser = true /\
     DIMParser.getLoadoutsForItem parser (itemInstanceId it) <> []) /\
  ~ (protectLockedItems rules = true /\ isLocked it = true) /\
  ~ (protectMasterworked rules = true /\ isMasterworked it = true) /\
  ~ (protectExotics rules = true /\ tier it = Exotic) /\
  ~ In (itemInstanceId it) (customProtectedIds rules) /\
  ~ (DIMParser.loaded parser = true /\
     (DIMParser.getTag parser (itemInstanceId it) = Some "favorite" \/
      DIMParser.getTag parser (itemInstanceId it) = Some "keep")).

(* ===================================================================== *)
(** ** Further methods of the planner *)
(* ===================================================================== *)

Record TransferEntry := {
  te_itemInstanceId : string;
  te_itemHash : Z
}.

(** [generateTransferPlan]; the method does not read its
    [targetCharacterId] argument. *)
Definition generateTransferPlan (plan : CleanupPlan) (targetCharacterId : string)
    : list TransferEntry :=
  let junkItems := getJunkItems plan in
  List.map
    (fun it => {| te_itemInstanceId := itemInstanceId it; te_itemHash := itemHash it |})
    (List.filter (fun it => bool_decide (location it = Vault)) junkItems).

(** The recommendations of a plan before they are sorted: one per
    candidate, in the order of the candidates. *)
Definition unsortedRecommendations (p : CleanupPlanner.t) (items : list InventoryItem)
    : list CleanupRecommendation :=
  List.map (fun it => analyzeItem p it (targetItems p items)) (targetItems p items).

Definition withAction (a : Action) (recs : list CleanupRecommendation)
    : list CleanupRecommendation :=
  List.filter (fun r => bool_decide (action r = a)) recs.

(** The stat total is the sum of the six stats, as the inventory client
    computes it. *)
Definition totalIsSum (st : ArmorStats) : Prop :=
  total st = mobility st + resilience st + recovery st + discipline st +
             intellect st + strength st.

(** Scenario C: an armor piece that a loadout of the backup references and
    that is tagged junk. *)
Definition scenarioC_item : InventoryItem :=
  mkArmor "scenario-c" 606 (Some (mkStats 2 2 2 2 2 2)).


(** The protection rule with the given label applies to the item. *)
Definition ruleApplies (p : CleanupPlanner.t) (it : InventoryItem) (label : string) : Prop :=
  let rules := protectionRules p in
  let parser := dimParser p in
  let id := itemInstanceId it in
  (protectDIMLoadouts rules = true /\ DIMParser.loaded parser = true /\
   DIMParser.getLoadoutsForItem parser id <> [] /\
   label = "DIM Loadouts: " +:+
           JS.join ", " (List.map loadoutName (DIMParser.getLoadoutsForItem parser id))) \/
  (protectLockedItems rules = true /\ isLocked it = true /\ label = "Locked in game") \/
  (protectMasterworked rules = true /\ isMasterworked it = true /\ label = "Masterworked") \/
  (protectExotics rules = true /\ tier it = Exotic /\ label = "Exotic item") \/
  (In id (customProtectedIds rules) /\ label = "Custom protection") \/
  (DIMParser.loaded parser = true /\ DIMParser.getTag parser id = Some "favorite" /\
   label = "DIM Favorite") \/
  (DIMParser.loaded parser = true /\ DIMParser.getTag parser id = Some "keep" /\
   label = "DIM Keep tag").

Definition transferEntry (it : InventoryItem) : TransferEntry :=
  {| te_itemInstanceId := itemInstanceId it; te_itemHash := itemHash it |}.

(* ===================================================================== *)
(** ** dim/parser.ts: parsing an export, and the set-valued queries *)
(* ===================================================================== *)

Record DIMLoadoutItem := {
  li_id : option string;          (* instance id, absent for generic items *)
  li_hash : Z;
  li_amount : option Z
}.

Record DIMLoadoutExport := {
  le_id : string;
  le_name : string;
  le_classType : Z;
  le_equipped : list DIMLoadoutItem;
  le_unequipped : list DIMLoadoutItem
}.

Record DIMTagExport := {
  tx_id : string;
  tx_tag : string
}.

Record DIMAnnotationExport := {
  an_id : string;
  an_tag : option string;
  an_notes : option string
}.

(** The export file; each of the three recognised fields may be absent.
    The [settings] field is never read. *)
Record DIMExportFile := {
  ex_loadouts : option (list DIMLoadoutExport);
  ex_tags : option (list DIMTagExport);
  ex_annotations : option (list DIMAnnotationExport)
}.

(** The value of an optional string when it is truthy: present and not
    empty. *)
Definition truthyString (s : option string) : option string :=
  match s with
  | Some (String c rest) => Some (String c rest)
  | _ => None
  end.

(** [classType as DestinyClass]: the cast keeps the number; the numbers 0
    to 3 are the members of the enum, and the embedding sends every other
    number to the member Unknown. *)
Definition asDestinyClass (n : Z) : DestinyClass :=
  match n with
  | 0 => Titan
  | 1 => Hunter
  | 2 => Warlock
  | _ => ClassUnknown
  end.

(** The instance identifiers one loadout contributes: equipped items first,
    then unequipped ones, items without a truthy id skipped. *)
Definition instanceIds (le : DIMLoadoutExport) : list string :=
  flat_map (fun it => match truthyString (li_id it) with Some id => [id] | None => [] end)
           (le_equipped le ++ le_unequipped le).

Definition parseLoadout (le : DIMLoadoutExport) : list DIMLoadout :=
  let itemIds := instanceIds le in
  if (0 <? length itemIds)%nat then
    [ {| loadoutId := le_id le; loadoutName := le_name le;
         loadoutClass := asDestinyClass (le_classType le); itemIds := itemIds |} ]
  else [].

Definition orEmpty {A} (l : option (list A)) : list A :=
  match l with Some x => x | None => [] end.

(** [parseExport]. *)
Definition parseExport (data : DIMExportFile) : DIMBackup :=
  let loadouts := flat_map parseLoadout (orEmpty (ex_loadouts data)) in
  let tags : gmap string string :=
    fold_left (fun m t => <[tx_id t := tx_tag t]> m) (orEmpty (ex_tags data)) ∅ in
  let tags :=
    fold_left
      (fun m a => match truthyString (an_tag a) with
                  | Some t => <[an_id a := t]> m
                  | None => m
                  end)
      (orEmpty (ex_annotations data)) tags in
  let notes : gmap string string :=
    fold_left
      (fun m a => match truthyString (an_notes a) with
                  | Some n => <[an_id a := n]> m
                  | None => m
                  end)
      (orEmpty (ex_annotations data)) ∅ in
  {| loadouts := loadouts; tags := tags; notes := notes |}.

(** The parser after [parseFromString] or [loadBackup] succeeded on a
    document whose JSON value is [data]: the backup is replaced. *)
Definition loadExport (p : DIMParser.t) (data : DIMExportFile) : DIMParser.t :=
  {| DIMParser.backup := Some (parseExport data) |}.

Definition getAllLoadoutItemIds (p : DIMParser.t) : gset string :=
  match DIMParser.backup p with
  | None => ∅
  | Some b =>
      fold_left
        (fun ids l => fold_left (fun ids id => {[id]} ∪ ids) (itemIds l) ids)
        (loadouts b) ∅
  end.

(** The three tag queries run the same loop with their own tag. *)
Definition idsTagged (tag : string) (p : DIMParser.t) : gset string :=
  match DIMParser.backup p with
  | None => ∅
  | Some b =>
      map_fold (fun id t (ids : gset string) =>
                  if String.eqb t tag then {[id]} ∪ ids else ids) ∅ (tags b)
  end.

Definition getFavoriteItemIds : DIMParser.t -> gset string := idsTagged "favorite".
Definition getJunkItemIds : DIMParser.t -> gset string := idsTagged "junk".
Definition getKeepItemIds : DIMParser.t -> gset string := idsTagged "keep".

(** The last binding of a key in a list of bindings. *)
Fixpoint lastBinding (id : string) (l : list (string * string)) : option string :=
  match l with
  | [] => None
  | (k, v) :: rest =>
      match lastBinding id rest with
      | Some v' => Some v'
      | None => if String.eqb k id then Some v else None
      end
  end.

Definition legacyTags (data : DIMExportFile) : list (string * string) :=
  List.map (fun t => (tx_id t, tx_tag t)) (orEmpty (ex_tags data)).

Definition annotationTags (data : DIMExportFile) : list (string * string) :=
  flat_map (fun a => match truthyString (an_tag a) with
                     | Some t => [(an_id a, t)]
                     | None => []
                     end) (orEmpty (ex_annotations data)).

Definition annotationNotes (data : DIMExportFile) : list (string * string) :=
  flat_map (fun a => match truthyString (an_notes a) with
                     | Some n => [(an_id a, n)]
                     | None => []
                     end) (orEmpty (ex_annotations data)).

(* ===================================================================== *)
(** ** bungie/client.ts: turning a raw inventory entry into an item *)
(* ===================================================================== *)

Record RawInventoryItem := {
  raw_itemHash : Z;
  raw_itemInstanceId : option string;
  bucketHash : Z;
  state : Z
}.

(** An item instance component; each optional part is reduced to the one
    number the client reads from it. *)
Record ItemInstance := {
  primaryStat : option Z;         (* primaryStat?.value *)
  quality : option Z;             (* quality?.currentProgress *)
  energy : option Z               (* energy?.energyCapacity *)
}.

Module BungieClient.

Definition weaponBuckets : list Z := [1498876634; 2465295065; 953998645].

Definition armorBuckets : list Z :=
  [3448274439; 3551918588; 14239492; 20886954; 1585787867].

Definition includesZ (l : list Z) (x : Z) : bool := existsb (Z.eqb x) l.

Definition getItemType (bucket : Z) : ItemType :=
  if includesZ weaponBuckets bucket then weapon
  else if includesZ armorBuckets bucket then armor
  else other.

Definition getArmorSlot (bucket : Z) : option ArmorSlot :=
  if bucket =? 3448274439 then Some Helmet
  else if bucket =? 3551918588 then Some Gauntlets
  else if bucket =? 14239492 then Some Chest
  else if bucket =? 20886954 then Some Legs
  else if bucket =? 1585787867 then Some ClassItem
  else None.

(** [stats] maps the decimal rendering of a stat hash to its value. *)
Definition getStatValue (stats : gmap string Z) (hash : Z) : Z :=
  match stats !! JS.toString hash with
  | Some v => v
  | None => 0
  end.

Definition extractArmorStats (stats : gmap string Z) : ArmorStats :=
  let mobility := getStatValue stats 2996146975 in
  let resilience := getStatValue stats 392767087 in
  let recovery := getStatValue stats 1943323491 in
  let discipline := getStatValue stats 1735777505 in
  let intellect := getStatValue stats 144602215 in
  let strength := getStatValue stats 4244567218 in
  {| mobility := mobility; resilience := resilience; recovery := recovery;
     discipline := discipline; intellect := intellect; strength := strength;
     total := mobility + resilience + recovery + discipline + intellect + strength |}.

Definition orZero (x : option Z) : Z := match x with Some v => v | None => 0 end.

(** [processRawItem]; [None] is the [null] the method returns for an entry
    it skips.  The two records are looked up by own string keys. *)
Definition processRawItem (rawItem : RawInventoryItem)
    (instances : gmap string ItemInstance)
    (statsData : gmap string (gmap string Z))
    (loc : ItemLocation) (charId : option string) (equipped : bool)
    : option InventoryItem :=
  match truthyString (raw_itemInstanceId rawItem) with
  | None => None
  | Some instanceId =>
      match instances !! instanceId with
      | None => None
      | Some instance =>
          let itemType := getItemType (bucketHash rawItem) in
          match itemType with
          | other => None
          | _ =>
              let stats :=
                match itemType, statsData !! instanceId with
                | armor, Some st => Some (extractArmorStats st)
                | _, _ => None
                end in
              Some {| itemInstanceId := instanceId;
                      itemHash := raw_itemHash rawItem;
                      name := "Item " +:+ JS.toString (raw_itemHash rawItem);
                      itemType := itemType;
                      tier := if orZero (quality instance) >? 0 then Legendary else Rare;
                      location := loc;
                      characterId := charId;
                      isEquipped := equipped;
                      isLocked := state rawItem =? 1;
                      isMasterworked := orZero (energy instance) >=? 10;
                      powerLevel := orZero (primaryStat instance);
                      armorSlot := match itemType with
                                   | armor => getArmorSlot (bucketHash rawItem)
                                   | _ => None
                                   end;
                      classType := None;
                      stats := stats;
                      damageType := None;
                      weaponType := None |}
          end
      end
  end.

End BungieClient.

(* ===================================================================== *)
(** ** mcp/server.ts: the build-safety check and the vault summary *)
(* ===================================================================== *)

Record BuildSafety := {
  bs_name : string;
  bs_instanceId : string;
  safeToDismantle : bool;
  bs_reasons : list string;
  bs_loadouts : list string;
  dimTag : option string;
  dimNote : option string
}.

Record VaultSummary := {
  vs_totalItems : nat;
  vs_weapons : nat;
  vs_armor : nat;
  vs_other : nat;
  vaultCapacity : Z;
  vaultUsedPercent : Z
}.

Module VaultCuratorServer.

Definition isTag (tag : option string) (t : string) : bool :=
  match tag with Some s => String.eqb s t | None => false end.

(** [checkBuildSafety] on the cached inventory; [None] is the thrown
    "Item not found" error. *)
Definition checkBuildSafety (inventory : list InventoryItem) (parser : DIMParser.t)
    (id : string) : option BuildSafety :=
  match List.find (fun i => String.eqb (itemInstanceId i) id) inventory with
  | None => None
  | Some it =>
      let inLoadouts := DIMParser.getLoadoutsForItem parser id in
      let tag := DIMParser.getTag parser id in
      let note := DIMParser.getNote parser id in
      let isSafe :=
        (length inLoadouts =? 0)%nat &&
        negb (isTag tag "favorite") &&
        negb (isTag tag "keep") &&
        negb (isLocked it) &&
        negb (isMasterworked it) in
      Some {| bs_name := name it;
              bs_instanceId := itemInstanceId it;
              safeToDismantle := isSafe;
              bs_reasons :=
                (if (0 <? length inLoadouts)%nat
                 then ["Used in " +:+ JS.toString (Z.of_nat (length inLoadouts)) +:+
                       " DIM loadout(s): " +:+
                       JS.join ", " (List.map loadoutName inLoadouts)]
                 else []) ++
                (match truthyString tag with
                 | Some t => ["DIM tag: " +:+ t]
                 | None => []
                 end) ++
                (match truthyString note with
                 | Some _ => ["Has DIM note"]
                 | None => []
                 end) ++
                (if isLocked it then ["Item is locked"] else []) ++
                (if isMasterworked it then ["Item is masterworked"] else []);
              bs_loadouts := List.map loadoutName inLoadouts;
              dimTag := tag;
              dimNote := note |}
  end.

(** [getVaultSummary] on the cached inventory. *)
Definition getVaultSummary (inventory : list InventoryItem) : VaultSummary :=
  let vaultItems := List.filter (fun i => bool_decide (location i = Vault)) inventory in
  {| vs_totalItems := length vaultItems;
     vs_weapons := length (List.filter (fun i => bool_decide (itemType i = weapon)) vaultItems);
     vs_armor := length (List.filter (fun i => bool_decide (itemType i = armor)) vaultItems);
     vs_other := length (List.filter (fun i => bool_decide (itemType i = other)) vaultItems);
     vaultCapacity := 600;
     vaultUsedPercent :=
       JS.Math_round (inject_Z (Z.of_nat (length vaultItems)) / 600 * 100)%Q |}.

End VaultCuratorServer.

(** The rules [r] with the exotic rule set to [b]. *)
Definition setExotics (r : ProtectionRules) (b : bool) : ProtectionRules :=
  {| protectDIMLoadouts := protectDIMLoadouts r;
     protectLockedItems := protectLockedItems r;
     protectMasterworked := protectMasterworked r;
     protectExotics := b;
     protectHighStatArmor := protectHighStatArmor r;
     highStatThreshold := highStatThreshold r;
     customProtectedIds := customProtectedIds r |}.

(** The item is what the client makes of some raw inventory entry. *)
Definition fromClient (it : InventoryItem) : Prop :=
  exists raw instances statsData loc charId equipped,
    BungieClient.processRawItem raw instances statsData loc charId equipped = Some it.

Definition clientFixture_raw : RawInventoryItem :=
  {| raw_itemHash := 4242; raw_itemInstanceId := Some "c-1";
     bucketHash := 3448274439; state := 0 |}.

Definition clientFixture_instances : gmap string ItemInstance :=
  {[ "c-1" := {| primaryStat := Some 1810; quality := Some 5; energy := Some 3 |} ]}.

Definition clientFixture_stats : gmap string (gmap string Z) :=
  {[ "c-1" := {[ "2996146975" := 2; "392767087" := 10; "1943323491" := 2;
                 "1735777505" := 6; "144602215" := 2 ]} ]}.

Definition byAction (a b : CleanupRecommendation) : Z :=
  actionOrder (action a) - actionOrder (action b).

Definition sumZ (l : list Z) : Z := fold_right Z.add 0 l.

Definition statList (st : ArmorStats) : list Z :=
  List.map snd (ArmorScorer.statValues st).




Definition totalWeight (w : StatWeights) : Q :=
  (w_mobility w + w_resilience w + w_recovery w +
   w_discipline w + w_intellect w + w_strength w)%Q.

(** The rule of the second loop of [recommendArmor] for a member with score
    [sc] in a group whose best score is [best]. *)
Definition discardRule (best sc : option ArmorScore) : Prop :=
  match best, sc with
  | Some b, Some s => 15 < totalScore b - totalScore s \/ totalScore s < 60
  | None, Some s => totalScore s < 60
  | _, None => True
  end.

Definition reviewRule (best sc : option ArmorScore) : Prop :=
  match best, sc with
  | Some b, Some s => totalScore b - totalScore s <= 15 /\ 60 <= totalScore s
  | None, Some s => 60 <= totalScore s
  | _, None => False
  end.

Definition byScore (a b : InventoryItem * option ArmorScore) : Z :=
  DuplicateFinder.scoreOf (snd b) - DuplicateFinder.scoreOf (snd a).

Definition scorable (f : DuplicateFinder.t) (it : InventoryItem) : bool :=
  match ArmorScorer.scoreArmor (DuplicateFinder.scorer f) it with
  | Some _ => true
  | None => false
  end.




Definition scenarioC_export : DIMExportFile :=
  {| ex_loadouts :=
       Some [ {| le_id := "l1"; le_name := "PvP Build"; le_classType := 0;
                 le_equipped := [ {| li_id := Some "scenario-c"; li_hash := 606;
                                     li_amount := None |} ];
                 le_unequipped := [] |} ];
     ex_tags := Some [ {| tx_id := "scenario-c"; tx_tag := "junk" |} ];
     ex_annotations := None |}.

Definition exportPlanner (data : DIMExportFile) : CleanupPlanner.t :=
  CleanupPlanner.new (loadExport {| DIMParser.backup := None |} data) None None None.

(** ** [DuplicateFinder.getSummary] *)

#[global] Instance ArmorSlot_eq_dec : EqDecision ArmorSlot.
Proof. solve_decision. Defined.

Record DuplicateSummary := {
  ds_totalGroups : Z;
  ds_totalDuplicates : Z;
  ds_totalDiscard : Z;
  ds_totalReview : Z;
  ds_bySlot : list (ArmorSlot * Z)
}.

(** The [Map<ArmorSlot, number>] of the summary, in insertion order. *)
Fixpoint bySlot_get (k : ArmorSlot) (m : list (ArmorSlot * Z)) : option Z :=
  match m with
  | [] => None
  | (k', v) :: m' => if bool_decide (k' = k) then Some v else bySlot_get k m'
  end.

Fixpoint bySlot_set (k : ArmorSlot) (v : Z) (m : list (ArmorSlot * Z))
    : list (ArmorSlot * Z) :=
  match m with
  | [] => [(k, v)]
  | (k', v') :: m' =>
      if bool_decide (k' = k) then (k', v) :: m' else (k', v') :: bySlot_set k v m'
  end.

(** One turn of the loop of [getSummary]. *)
Definition summaryStep (acc : DuplicateSummary) (group : DuplicateGroup)
    : DuplicateSummary :=
  let n := Z.of_nat (length (g_items group)) in
  {| ds_totalGroups := ds_totalGroups acc;
     ds_totalDuplicates := ds_totalDuplicates acc + (n - 1);
     ds_totalDiscard :=
       ds_totalDiscard acc + Z.of_nat (length (rec_discard (g_recommendation group)));
     ds_totalReview :=
       ds_totalReview acc + Z.of_nat (length (rec_review (g_recommendation group)));
     ds_bySlot :=
       match g_slot group with
       | Some slot =>
           bySlot_set slot
             (match bySlot_get slot (ds_bySlot acc) with Some c => c | None => 0 end + n)
             (ds_bySlot acc)
       | None => ds_bySlot acc
       end |}.

Definition getSummary (groups : list DuplicateGroup) : DuplicateSummary :=
  fold_left summaryStep groups
    {| ds_totalGroups := Z.of_nat (length groups); ds_totalDuplicates := 0;
       ds_totalDiscard := 0; ds_totalReview := 0; ds_bySlot := [] |}.

(** Number of members of the groups, and of those of the groups in [slot]. *)
Definition memberCount (groups : list DuplicateGroup) : Z :=
  sumZ (List.map (fun g => Z.of_nat (length (g_items g))) groups).

Definition keptCount (groups : list DuplicateGroup) : Z :=
  sumZ (List.map (fun g => Z.of_nat (length (rec_keep (g_recommendation g)))) groups).

Definition inSlot (slot : ArmorSlot) (g : DuplicateGroup) : bool :=
  bool_decide (g_slot g = Some slot).

(* ===================================================================== *)
(** * Properties *)
(* ===================================================================== *)

(** ** The stable sort *)

Section SortFacts.
Context {A : Type}.
Variable cmp : A -> A -> Z.

Lemma insert_perm (x : A) (l : list A) : Permutation (JS.insert cmp x l) (x :: l).
Proof.
  induction l as [|y l IH]; simpl.
  - apply Permutation_refl.
  - destruct (cmp x y <=? 0).
    + apply Permutation_refl.
    + eapply perm_trans; [apply perm_skip, IH | apply perm_swap].
Qed.

Lemma sort_perm (l : list A) : Permutation (JS.sort cmp l) l.
Proof.
  induction l as [|x l IH]; simpl.
  - apply perm_nil.
  - eapply perm_trans; [apply insert_perm | apply perm_skip, IH].
Qed.

Lemma In_sort (x : A) (l : list A) : In x (JS.sort cmp l) <-> In x l.
Proof.
  split; apply Permutation_in;
    [apply sort_perm | apply Permutation_sym, sort_perm].
Qed.

Lemma length_sort (l : list A) : length (JS.sort cmp l) = length l.
Proof. apply Permutation_length, sort_perm. Qed.

(** A consistent comparator: the sign of [cmp b a] is opposed to that of
    [cmp a b], and "not after" is transitive. *)
Hypothesis cmp_total : forall a b, 0 < cmp a b -> cmp b a <= 0.
Hypothesis cmp_trans : forall a b c, cmp a b <= 0 -> cmp b c <= 0 -> cmp a c <= 0.

Lemma insert_sorted (x : A) (l : list A) :
  StronglySorted (fun a b => cmp a b <= 0) l ->
  StronglySorted (fun a b => cmp a b <= 0) (JS.insert cmp x l).
Proof.
  induction l as [|y l IH]; simpl; intros Hs.
  - constructor; [constructor | constructor].
  - inversion Hs as [|? ? Hl Hy]; subst.
    destruct (cmp x y <=? 0) eqn:E.
    + apply Z.leb_le in E. constructor; [exact Hs|].
      constructor; [exact E|].
      rewrite List.Forall_forall in Hy. apply List.Forall_forall. intros b Hb.
      eapply cmp_trans; [exact E | apply Hy, Hb].
    + apply Z.leb_gt in E. constructor; [apply IH, Hl|].
      apply List.Forall_forall. intros b Hb.
      apply (Permutation_in _ (insert_perm x l)) in Hb.
      destruct Hb as [<-|Hb].
      * apply cmp_total. exact E.
      * rewrite List.Forall_forall in Hy. apply Hy, Hb.
Qed.

Lemma sort_sorted (l : list A) :
  StronglySorted (fun a b => cmp a b <= 0) (JS.sort cmp l).
Proof.
  induction l as [|x l IH]; simpl.
  - constructor.
  - apply insert_sorted, IH.
Qed.

(** The element placed first stays first exactly when nothing behind it
    must come before it. *)
Lemma sort_head_first (x : A) (l : list A) :
  (forall d, In d l -> cmp x d <= 0) ->
  exists rest, JS.sort cmp (x :: l) = x :: rest.
Proof.
  intros H. simpl.
  destruct (JS.sort cmp l) as [|y s] eqn:E; simpl.
  - eexists; reflexivity.
  - assert (Hy : In y l) by (apply In_sort; rewrite E; left; reflexivity).
    apply H in Hy. apply Z.leb_le in Hy. rewrite Hy. eexists; reflexivity.
Qed.

Lemma sort_head_other (x : A) (l : list A) :
  (exists d, In d l /\ 0 < cmp x d) ->
  exists b rest, JS.sort cmp (x :: l) = b :: rest /\ In b l /\ 0 < cmp x b.
Proof.
  intros (d & Hd & Hlt). simpl.
  pose proof (sort_sorted l) as Hs.
  destruct (JS.sort cmp l) as [|y s] eqn:E.
  - apply In_sort in Hd. rewrite E in Hd. destruct Hd.
  - assert (Hy : In y l) by (apply In_sort; rewrite E; left; reflexivity).
    assert (Hyd : cmp y d <= 0).
    { apply In_sort in Hd. rewrite E in Hd. destruct Hd as [->|Hd].
      - destruct (Z.lt_ge_cases 0 (cmp d d)) as [Hp|Hn]; [|lia].
        apply cmp_total in Hp. exact Hp.
      - inversion Hs as [|? ? _ Hall]; subst.
        rewrite List.Forall_forall in Hall. apply Hall, Hd. }
    assert (Hxy : 0 < cmp x y).
    { destruct (Z.lt_ge_cases 0 (cmp x y)) as [Hp|Hn]; [exact Hp|].
      assert (cmp x d <= 0) by (eapply cmp_trans; [|exact Hyd]; lia). lia. }
    simpl. apply Z.leb_gt in Hxy as Hb. rewrite Hb.
    exists y, (JS.insert cmp x s). repeat split; assumption.
Qed.
End SortFacts.

(** ** Integers and their decimal rendering *)

Lemma parseInt_toString (z : Z) : JS.parseInt (JS.toString z) = Some z.
Proof.
  unfold JS.parseInt, JS.toString.
  rewrite NilZero.isi.
  - simpl. f_equal. apply DecimalZ.of_to.
  - destruct z; simpl; try discriminate.
    intros H. injection H as H. revert H. apply Unsigned.to_uint_nonnil.
  - destruct z; simpl; try discriminate.
    intros H. injection H as H. revert H. apply Unsigned.to_uint_nonnil.
Qed.

Lemma toString_inj (a b : Z) : JS.toString a = JS.toString b -> a = b.
Proof.
  intros H. pose proof (parseInt_toString a) as Ha.
  rewrite H, parseInt_toString in Ha. congruence.
Qed.

(** ** The weapon ranking *)

Lemma weaponOrder_total (a b : InventoryItem) :
  0 < weaponOrder a b -> weaponOrder b a <= 0.
Proof.
  unfold weaponOrder.
  destruct (isMasterworked a), (isMasterworked b), (isLocked a), (isLocked b);
    simpl; lia.
Qed.

Lemma weaponOrder_trans (a b c : InventoryItem) :
  weaponOrder a b <= 0 -> weaponOrder b c <= 0 -> weaponOrder a c <= 0.
Proof.
  unfold weaponOrder.
  destruct (isMasterworked a), (isMasterworked b), (isMasterworked c),
    (isLocked a), (isLocked b), (isLocked c); simpl; lia.
Qed.

Lemma weaponOrder_ranksAbove (x d : InventoryItem) :
  0 < weaponOrder x d <-> ranksAbove d x.
Proof.
  unfold weaponOrder, ranksAbove.
  destruct (isMasterworked x), (isMasterworked d), (isLocked x), (isLocked d);
    simpl; split; intros H; try lia;
    try (destruct H as [[? ?]|[(? & ? & ?)|(? & ? & ?)]]; try discriminate; lia);
    try (left; split; reflexivity);
    try (right; left; repeat split; reflexivity);
    try (right; right; repeat split; try reflexivity; lia).
Qed.


(** ** Structure of a plan *)

Lemma analyzeArmor_item p it all rs : item (analyzeArmor p it all rs) = it.
Proof.
  unfold analyzeArmor.
  destruct (ArmorScorer.scoreArmor _ it); [|reflexivity].
  destruct (highStatProtected p it); [reflexivity|].
  repeat (match goal with |- context [if ?c then _ else _] => destruct c end);
    reflexivity.
Qed.

Lemma analyzeWeapon_item p it all rs : item (analyzeWeapon p it all rs) = it.
Proof.
  unfold analyzeWeapon.
  destruct (List.filter _ all); [reflexivity|].
  match goal with |- context [if ?c then _ else _] => destruct c end; reflexivity.
Qed.

Lemma analyzeItem_item p it all : item (analyzeItem p it all) = it.
Proof.
  unfold analyzeItem.
  destruct (0 <? length (protectionReasons p it))%nat; [reflexivity|].
  destruct (itemType it);
    auto using analyzeArmor_item, analyzeWeapon_item.
Qed.

(** Every recommendation of a plan is the analysis of a candidate against
    the whole candidate list, and conversely. *)
Lemma plan_recommendation p now items rec :
  In rec (recommendations (generatePlan p now items)) <->
  exists it, In it (targetItems p items) /\
             rec = analyzeItem p it (targetItems p items).
Proof.
  unfold generatePlan; simpl. rewrite In_sort, in_map_iff.
  split; intros (it & H1 & H2); exists it; [split; [exact H2 | symmetry; exact H1]|].
  split; [symmetry; exact H2 | exact H1].
Qed.

Lemma plan_recommendation_item p now items rec :
  In rec (recommendations (generatePlan p now items)) ->
  In (item rec) (targetItems p items) /\
  rec = analyzeItem p (item rec) (targetItems p items).
Proof.
  intros H. apply plan_recommendation in H as (it & Hin & ->).
  rewrite analyzeItem_item. split; [exact Hin | reflexivity].
Qed.

Lemma targetItems_type p items it :
  In it (targetItems p items) -> itemType it = weapon \/ itemType it = armor.
Proof.
  unfold targetItems. rewrite filter_In. intros [_ H].
  destruct (onlyVault (config p) && negb (bool_decide (location it = Vault)));
    [discriminate|].
  apply orb_prop in H as [H|H]; apply bool_decide_eq_true in H; auto.
Qed.

Lemma length_zero_ltb {A} (l : list A) : (0 <? length l)%nat = false <-> l = [].
Proof. destruct l; unfold Nat.ltb; simpl; split; intros H; congruence. Qed.

(** An unprotected item is analysed by its type alone. *)
Lemma analyzeItem_unprotected p it all :
  protectionReasons p it = [] ->
  analyzeItem p it all =
  match itemType it with
  | armor => analyzeArmor p it all (tagReasons p it)
  | _ => analyzeWeapon p it all (tagReasons p it)
  end.
Proof. intros H. unfold analyzeItem. rewrite H. reflexivity. Qed.

Lemma analyzeItem_protected p it all :
  protectionReasons p it <> [] ->
  analyzeItem p it all =
  {| item := it; action := KEEP;
     reason := "Protected: " +:+ JS.join ", " (protectionReasons p it);
     score := None; protectedBy := Some (protectionReasons p it) |}.
Proof.
  intros H. unfold analyzeItem.
  destruct (0 <? length (protectionReasons p it))%nat eqn:E; [reflexivity|].
  apply length_zero_ltb in E. contradiction.
Qed.

Lemma tagReasons_cases p it :
  tagReasons p it = [] \/ tagReasons p it = ["Tagged as junk in DIM"].
Proof.
  unfold tagReasons.
  destruct (DIMParser.loaded (dimParser p)); [|left; reflexivity].
  destruct (DIMParser.getTag (dimParser p) (itemInstanceId it)) as [tag|];
    [|left; reflexivity].
  destruct (String.eqb tag "favorite"); [left; reflexivity|].
  destruct (String.eqb tag "keep"); [left; reflexivity|].
  destruct (String.eqb tag "junk"); [right|left]; reflexivity.
Qed.

Lemma analyzeArmor_protected_keep p it all rs l :
  protectedBy (analyzeArmor p it all rs) = Some l ->
  action (analyzeArmor p it all rs) = KEEP.
Proof.
  unfold analyzeArmor.
  destruct (ArmorScorer.scoreArmor _ it); [|discriminate].
  destruct (highStatProtected p it); [reflexivity|].
  repeat (match goal with |- context [if ?c then _ else _] => destruct c end);
    simpl; intros H; try discriminate; reflexivity.
Qed.

Lemma analyzeWeapon_unprotected p it all rs :
  protectedBy (analyzeWeapon p it all rs) = None.
Proof.
  unfold analyzeWeapon.
  destruct (List.filter _ all); [reflexivity|].
  match goal with |- context [if ?c then _ else _] => destruct c end; reflexivity.
Qed.

Lemma analyzeItem_protected_keep p it all l :
  protectedBy (analyzeItem p it all) = Some l ->
  action (analyzeItem p it all) = KEEP.
Proof.
  unfold analyzeItem.
  destruct (0 <? length (protectionReasons p it))%nat; [reflexivity|].
  destruct (itemType it).
  - rewrite analyzeWeapon_unprotected. discriminate.
  - apply analyzeArmor_protected_keep.
  - rewrite analyzeWeapon_unprotected. discriminate.
Qed.

(** ** What "unprotected" means *)

Lemma pushIf_nil {A} (c : bool) (x : A) (l : list A) :
  pushIf c x l = [] <-> c = false /\ l = [].
Proof.
  unfold pushIf. destruct c.
  - split; [intros H; apply app_eq_nil in H as [_ H]; discriminate | intros [H _]; discriminate].
  - tauto.
Qed.

Lemma includes_In ids id : DIMParser.includes ids id = true <-> In id ids.
Proof.
  unfold DIMParser.includes. rewrite existsb_exists. split.
  - intros (x & Hx & E). apply String.eqb_eq in E. subst. exact Hx.
  - intros H. exists id. split; [exact H | apply String.eqb_refl].
Qed.

Lemma tag_overlay_nil (ld : bool) (tg : option string) (l : list string) :
  (if ld then
     match tg with
     | Some tag =>
         if String.eqb tag "favorite" then l ++ ["DIM Favorite"]
         else if String.eqb tag "keep" then l ++ ["DIM Keep tag"]
         else l
     | None => l
     end
   else l) = [] <->
  l = [] /\ ~ (ld = true /\ (tg = Some "favorite" \/ tg = Some "keep")).
Proof.
  destruct ld.
  - destruct tg as [tag|].
    + destruct (String.eqb tag "favorite") eqn:Ef.
      { apply String.eqb_eq in Ef. subst tag. split.
        - intros H. apply app_eq_nil in H as [_ H]. discriminate.
        - intros [_ H]. exfalso. apply H. auto. }
      destruct (String.eqb tag "keep") eqn:Ek.
      { apply String.eqb_eq in Ek. subst tag. split.
        - intros H. apply app_eq_nil in H as [_ H]. discriminate.
        - intros [_ H]. exfalso. apply H. auto. }
      apply String.eqb_neq in Ef, Ek. split.
      * intros ->. split; [reflexivity|]. intros [_ [H|H]]; congruence.
      * tauto.
    + split; [|tauto]. intros ->. split; [reflexivity|].
      intros [_ [H|H]]; discriminate.
  - split; [|tauto]. intros ->. split; [reflexivity|]. intros [H _]. discriminate.
Qed.

Lemma protectionReasons_nil_iff p it :
  protectionReasons p it = [] <-> unprotected p it.
Proof.
  unfold protectionReasons, unprotected. cbv zeta.
  rewrite tag_overlay_nil, !pushIf_nil.
  rewrite !andb_false_iff, bool_decide_eq_false.
  assert (Hinc : DIMParser.includes (customProtectedIds (protectionRules p))
                   (itemInstanceId it) = false <->
                 ~ In (itemInstanceId it) (customProtectedIds (protectionRules p))).
  { rewrite <- includes_In. destruct (DIMParser.includes _ _); split; congruence. }
  rewrite Hinc.
  assert (Hload :
    (if protectDIMLoadouts (protectionRules p) && DIMParser.loaded (dimParser p)
     then pushIf
            (0 <? length (DIMParser.getLoadoutsForItem (dimParser p) (itemInstanceId it)))%nat
            ("DIM Loadouts: " +:+
             JS.join ", "
               (List.map loadoutName
                  (DIMParser.getLoadoutsForItem (dimParser p) (itemInstanceId it))))
            []
     else []) = [] <->
    ~ (protectDIMLoadouts (protectionRules p) = true /\
       DIMParser.loaded (dimParser p) = true /\
       DIMParser.getLoadoutsForItem (dimParser p) (itemInstanceId it) <> [])).
  { destruct (protectDIMLoadouts (protectionRules p)), (DIMParser.loaded (dimParser p));
      simpl; try (split; [intros _ (H1 & H2 & _); discriminate | reflexivity]).
    rewrite pushIf_nil, length_zero_ltb. split.
    - intros [H _] (_ & _ & Hn). contradiction.
    - intros H. split; [|reflexivity].
      destruct (DIMParser.getLoadoutsForItem _ _); [reflexivity|].
      exfalso. apply H. repeat split; discriminate. }
  rewrite Hload.
  destruct (protectLockedItems (protectionRules p)), (isLocked it),
    (protectMasterworked (protectionRules p)), (isMasterworked it),
    (protectExotics (protectionRules p)); intuition congruence.
Qed.

(** ** Protection forces KEEP *)

(** C1. Every recommendation of a plan whose protection-reason list
    [protectedBy] is present and non-empty has the action KEEP. *)
Theorem protected_recommendation_is_keep p now items rec l :
  In rec (recommendations (generatePlan p now items)) ->
  protectedBy rec = Some l ->
  l <> [] ->
  action rec = KEEP.
Proof.
  intros Hin Hp _.
  apply plan_recommendation in Hin as (it & _ & ->).
  eapply analyzeItem_protected_keep, Hp.
Qed.

Lemma protected_recommendation_is_keep_witness :
  let it := lockItem (mkWeapon "w1" 11 1800) in
  let rec := analyzeItem plainPlanner it [it] in
  In rec (recommendations (generatePlan plainPlanner 0 [it])) /\
  protectedBy rec = Some ["Locked in game"] /\
  ["Locked in game"] <> [] /\
  action rec = KEEP.
Proof.
  intros it rec.
  assert (H1 : In rec (recommendations (generatePlan plainPlanner 0 [it])))
    by (left; reflexivity).
  assert (H2 : protectedBy rec = Some ["Locked in game"]) by reflexivity.
  assert (H3 : ["Locked in game"] <> @nil string) by discriminate.
  split; [exact H1 | split; [exact H2 | split; [exact H3 |]]].
  exact (protected_recommendation_is_keep plainPlanner 0 [it] rec _ H1 H2 H3).
Defined.

(** ** The armor score *)

Lemma scoreArmor_total s it st :
  itemType it = armor -> stats it = Some st ->
  exists sc, ArmorScorer.scoreArmor s it = Some sc /\
             totalScore sc =
             ArmorScorer.calculateTotalScore s st (ArmorScorer.analyzeStats s st) /\
             analysis sc = ArmorScorer.analyzeStats s st.
Proof.
  intros Ht Hs. unfold ArmorScorer.scoreArmor. rewrite Ht, Hs.
  destruct (fold_left _ _ _) as [[ps bp] bs].
  eexists. split; [reflexivity|]. split; reflexivity.
Qed.

Lemma scoreArmor_None s it :
  ArmorScorer.scoreArmor s it = None <-> itemType it <> armor \/ stats it = None.
Proof.
  unfold ArmorScorer.scoreArmor.
  destruct (itemType it); try (split; [left; discriminate | reflexivity]).
  destruct (stats it).
  - destruct (fold_left _ _ _) as [[ps bp] bs].
    split; [discriminate | intros [H|H]; congruence].
  - split; [right; reflexivity | reflexivity].
Qed.

(** C2, as the code computes it. For the armor item with stats Mobility 2,
    Resilience 20, Recovery 26, Discipline 15, Intellect 6, Strength 8
    (total 77), [scoreArmor] returns the total score 75: base 40, super-spike
    bonus 30, distribution bonus 0, weak-stat penalty 10 (two stats at or
    below 6: Mobility and Intellect) and top-stat bonus 15. *)
Theorem scenarioA_score profs it :
  itemType it = armor ->
  stats it = Some scenarioA_stats ->
  let s := scorerWith profs in
  let a := ArmorScorer.analyzeStats s scenarioA_stats in
  total scenarioA_stats = 77 /\
  option_map totalScore (ArmorScorer.scoreArmor s it) = Some 75 /\
  ArmorScorer.baseScore s scenarioA_stats = 40%Q /\
  ArmorScorer.spikeBonus a = 30%Q /\
  ArmorScorer.distributionBonus a = 0%Q /\
  weakStats a = [("Mobility", 2); ("Intellect", 6)] /\
  ArmorScorer.weakPenalty a = 10%Q /\
  topStats a = [("Recovery", 26); ("Resilience", 20)] /\
  ArmorScorer.topStatBonus a = 15%Q /\
  JS.Math_round (0 + 40 + 30 + 0 - 10 + 15)%Q = 75.
Proof.
  intros Ht Hs s a.
  destruct (scoreArmor_total s it _ Ht Hs) as (sc & Hsc & Htot & _).
  rewrite Hsc. simpl option_map. rewrite Htot.
  repeat split; vm_compute; reflexivity.
Qed.

Lemma scenarioA_score_witness :
  itemType scenarioA_item = armor /\
  stats scenarioA_item = Some scenarioA_stats /\
  option_map totalScore (ArmorScorer.scoreArmor (scorerWith STAT_PROFILES) scenarioA_item)
  = Some 75.
Proof.
  split; [reflexivity | split; [reflexivity |]].
  exact (proj1 (proj2 (scenarioA_score STAT_PROFILES scenarioA_item eq_refl eq_refl))).
Defined.

(** C2, as stated, fails: the score of the scenario A item is not 80, and
    the weak-stat penalty is not 5. *)
Lemma scenarioA_score_is_not_80 :
  option_map totalScore (ArmorScorer.scoreArmor ArmorScorer.new scenarioA_item) <> Some 80 /\
  ArmorScorer.weakPenalty (ArmorScorer.analyzeStats ArmorScorer.new scenarioA_stats) <> 5%Q.
Proof. split; vm_compute; discriminate. Qed.

(** C3. For every armor item with a stat vector, whatever its six stats,
    [scoreArmor] returns a score whose total is an integer between 0 and
    100. *)
Theorem totalScore_in_range s it st :
  itemType it = armor ->
  stats it = Some st ->
  exists sc, ArmorScorer.scoreArmor s it = Some sc /\ 0 <= totalScore sc <= 100.
Proof.
  intros Ht Hs.
  destruct (scoreArmor_total s it st Ht Hs) as (sc & Hsc & Htot & _).
  exists sc. split; [exact Hsc|].
  rewrite Htot. unfold ArmorScorer.calculateTotalScore. lia.
Qed.

Lemma totalScore_in_range_witness :
  let it := mkArmor "zero" 5 (Some (mkStats 0 0 0 0 0 0)) in
  itemType it = armor /\
  stats it = Some (mkStats 0 0 0 0 0 0) /\
  exists sc, ArmorScorer.scoreArmor ArmorScorer.new it = Some sc /\
             0 <= totalScore sc <= 100.
Proof.
  intros it.
  split; [reflexivity | split; [reflexivity |]].
  exact (totalScore_in_range ArmorScorer.new it _ eq_refl eq_refl).
Defined.

(** The lower clamp is not idle: with all six stats at zero only the
    weak-stat penalty of 15 contributes, and the score is raised to 0. *)
Example zero_stats_score :
  let lo := mkStats 0 0 0 0 0 0 in
  let a := ArmorScorer.analyzeStats ArmorScorer.new lo in
  ArmorScorer.weakPenalty a = 15%Q /\
  ArmorScorer.spikeBonus a = 0%Q /\
  ArmorScorer.topStatBonus a = 0%Q /\
  ArmorScorer.calculateTotalScore ArmorScorer.new lo a = 0.
Proof. repeat split; vm_compute; reflexivity. Qed.

(** ** Comparing two armor pieces *)

Lemma Qgtb_true (a b : Q) : ArmorScorer.Qgtb a b = true <-> (b < a)%Q.
Proof.
  unfold ArmorScorer.Qgtb. rewrite negb_true_iff.
  split.
  - intros H. apply Qnot_le_lt. intros Hle.
    apply Qle_bool_iff in Hle. congruence.
  - intros H. destruct (Qle_bool a b) eqn:E; [|reflexivity].
    apply Qle_bool_iff in E. lra.
Qed.

(** The two margin tests of the "too close" branch never both succeed. *)
Lemma margins_exclusive (x y : Q) :
  ArmorScorer.Qgtb x (y + 2)%Q = true -> ArmorScorer.Qgtb y (x + 2)%Q = true -> False.
Proof. rewrite !Qgtb_true. intros H1 H2. lra. Qed.

(** C9. [compareArmor] is anti-symmetric in its winner: with the two inputs
    swapped the same item wins (so a win of [item1] becomes a win of
    [item2]), a tie stays a tie, and each item receives the same score in
    both calls. *)
Theorem compareArmor_antisymmetric s a b :
  let r := ArmorScorer.compareArmor s a b in
  let r' := ArmorScorer.compareArmor s b a in
  winner r' = winner r /\
  (winner r = None \/ winner r = Some a \/ winner r = Some b) /\
  (winner r = None <-> winner r' = None) /\
  score1 r = ArmorScorer.scoreArmor s a /\
  score2 r = ArmorScorer.scoreArmor s b /\
  score1 r' = score2 r /\
  score2 r' = score1 r.
Proof.
  unfold ArmorScorer.compareArmor.
  destruct (ArmorScorer.scoreArmor s a) as [sa|], (ArmorScorer.scoreArmor s b) as [sb|];
    simpl; try (repeat split; auto; fail).
  replace (Z.abs (totalScore sb - totalScore sa))
    with (Z.abs (totalScore sa - totalScore sb)) by lia.
  destruct (Z.abs (totalScore sa - totalScore sb) <? 5) eqn:Eclose.
  - destruct (ArmorScorer.Qgtb (bestProfileScore sa) (bestProfileScore sb + 2)) eqn:E1,
      (ArmorScorer.Qgtb (bestProfileScore sb) (bestProfileScore sa + 2)) eqn:E2;
      simpl; try (repeat split; auto; fail).
    destruct (margins_exclusive _ _ E1 E2).
  - apply Z.ltb_ge in Eclose.
    destruct (totalScore sa - totalScore sb >? 0) eqn:Ea,
      (totalScore sb - totalScore sa >? 0) eqn:Eb; simpl;
      try (repeat split; auto; fail); lia.
Qed.

(** Both outcomes occur: a decisive comparison and a tie. *)
Example compareArmor_cases :
  let good := mkArmor "good" 7 (Some (mkStats 2 20 26 15 6 8)) in
  let poor := mkArmor "poor" 7 (Some (mkStats 2 16 16 10 10 10)) in
  let bare := mkArmor "bare" 7 None in
  winner (ArmorScorer.compareArmor ArmorScorer.new good poor) = Some good /\
  winner (ArmorScorer.compareArmor ArmorScorer.new poor good) = Some good /\
  winner (ArmorScorer.compareArmor ArmorScorer.new bare poor) = Some poor /\
  winner (ArmorScorer.compareArmor ArmorScorer.new poor bare) = Some poor /\
  winner (ArmorScorer.compareArmor ArmorScorer.new good good) = None /\
  cmpReason (ArmorScorer.compareArmor ArmorScorer.new good poor)
  = "Higher overall score (75 vs 15)".
Proof. repeat split; vm_compute; reflexivity. Qed.

(** ** Unprotected armor *)

Lemma highStatProtected_None p it :
  highStatProtected p it = None <-> ~ meetsHighStatThreshold p it.
Proof.
  unfold highStatProtected, meetsHighStatThreshold.
  destruct (stats it) as [st|].
  - destruct (protectHighStatArmor (protectionRules p)); simpl.
    + destruct (total st >=? highStatThreshold (protectionRules p)) eqn:E.
      * split; [discriminate|]. intros H. exfalso. apply H.
        split; [reflexivity|]. exists st. split; [reflexivity|].
        apply Z.geb_le, E.
      * split; [|reflexivity]. intros _ (_ & st' & Hst & Hle).
        injection Hst as <-. apply Z.geb_le in Hle. congruence.
    + split; [|reflexivity]. intros _ [H _]. discriminate.
  - split; [|reflexivity]. intros _ (_ & st & H & _). discriminate.
Qed.

(** The early exit on an empty duplicate list changes nothing: the loop
    over no duplicates finds none. *)
Lemma hasBetterDuplicate_loop p it all :
  hasBetterDuplicate p it all =
  match ArmorScorer.scoreArmor (armorScorer p) it with
  | None => false
  | Some itemScore =>
      existsb
        (fun dupe =>
           match ArmorScorer.scoreArmor (armorScorer p) dupe with
           | Some dupeScore => totalScore dupeScore >? totalScore itemScore + 10
           | None => false
           end)
        (List.filter
           (fun i => (itemHash i =? itemHash it) &&
                     negb (String.eqb (itemInstanceId i) (itemInstanceId it)) &&
                     bool_decide (itemType i = armor)) all)
  end.
Proof.
  unfold hasBetterDuplicate.
  destruct (List.filter _ all);
    destruct (ArmorScorer.scoreArmor (armorScorer p) it); reflexivity.
Qed.

Lemma hasBetterDuplicate_spec p it all :
  hasBetterDuplicate p it all = true <-> betterDuplicateExists p it all.
Proof.
  rewrite hasBetterDuplicate_loop. unfold betterDuplicateExists.
  destruct (ArmorScorer.scoreArmor (armorScorer p) it) as [si|].
  - rewrite existsb_exists. split.
    + intros (d & Hd & Hf). apply filter_In in Hd as [Hin Hc].
      apply andb_prop in Hc as [Hc Hty]. apply andb_prop in Hc as [Hh Hid].
      apply Z.eqb_eq in Hh. apply negb_true_iff, String.eqb_neq in Hid.
      apply bool_decide_eq_true in Hty.
      destruct (ArmorScorer.scoreArmor (armorScorer p) d) as [sd|] eqn:Esd;
        [|discriminate].
      exists d, sd, si. repeat split; auto. apply Z.gtb_lt in Hf. exact Hf.
    + intros (d & sd & si' & Hin & Hh & Hid & Hty & Hsd & Hsi & Hlt).
      injection Hsi as <-. exists d. split.
      * apply filter_In. split; [exact Hin|].
        apply andb_true_intro. split; [apply andb_true_intro; split|].
        -- apply Z.eqb_eq, Hh.
        -- apply negb_true_iff, String.eqb_neq, Hid.
        -- apply bool_decide_eq_true, Hty.
      * rewrite Hsd. apply Z.gtb_lt, Hlt.
  - split; [discriminate|]. intros (d & sd & si & _ & _ & _ & _ & _ & H & _).
    discriminate.
Qed.

(** When instance identifiers are unique among the candidates, the
    condition that the better copy is another instance is automatic. *)
Lemma betterDuplicateExists_unique_ids p it all :
  List.NoDup (List.map itemInstanceId all) -> In it all ->
  (betterDuplicateExists p it all <->
   exists d sd si,
     In d all /\ itemHash d = itemHash it /\ itemType d = armor /\
     ArmorScorer.scoreArmor (armorScorer p) d = Some sd /\
     ArmorScorer.scoreArmor (armorScorer p) it = Some si /\
     totalScore si + 10 < totalScore sd).
Proof.
  intros Hnd Hit. split.
  - intros (d & sd & si & H1 & H2 & _ & H4 & H5 & H6 & H7).
    exists d, sd, si. repeat split; assumption.
  - intros (d & sd & si & H1 & H2 & H4 & H5 & H6 & H7).
    exists d, sd, si. repeat split; try assumption.
    intros Hid.
    assert (d = it).
    { clear - Hnd Hit H1 Hid. induction all as [|x l IH]; [destruct H1|].
      simpl in Hnd. inversion Hnd as [|? ? Hnin Hnd']; subst.
      destruct H1 as [->|H1], Hit as [->|Hit]; auto.
      - exfalso. apply Hnin. rewrite Hid. apply in_map, Hit.
      - exfalso. apply Hnin. rewrite <- Hid. apply in_map, H1. }
    subst d. rewrite H5 in H6. injection H6 as ->. lia.
Qed.

Ltac split_geb :=
  repeat match goal with
  | H : (_ >=? _) = true |- _ => apply Z.geb_le in H
  | H : (_ >=? _) = false |- _ => rewrite Z.geb_leb in H; apply Z.leb_gt in H
  end.

(** C4. An unprotected armor candidate that is scorable and does not reach
    the high-stat protection threshold is classified by its total score:
    75 or more is KEEP; 50 to 74 is KEEP unless another armor candidate of
    the same definition scores more than 10 points higher, and then REVIEW;
    30 to 49 is REVIEW, the reason ending in
    "Below average armor score: <score>/100"; below 30 is JUNK.
    Unprotected armor that cannot be scored is REVIEW. *)
Theorem unprotected_armor_tiers p now items rec :
  In rec (recommendations (generatePlan p now items)) ->
  itemType (item rec) = armor ->
  unprotected p (item rec) ->
  (ArmorScorer.scoreArmor (armorScorer p) (item rec) = None -> action rec = REVIEW) /\
  (forall s,
     ArmorScorer.scoreArmor (armorScorer p) (item rec) = Some s ->
     ~ meetsHighStatThreshold p (item rec) ->
     let sc := totalScore s in
     (75 <= sc -> action rec = KEEP) /\
     (50 <= sc < 75 ->
        (betterDuplicateExists p (item rec) (targetItems p items) ->
         action rec = REVIEW) /\
        (~ betterDuplicateExists p (item rec) (targetItems p items) ->
         action rec = KEEP)) /\
     (30 <= sc < 50 ->
        action rec = REVIEW /\
        exists pre, reason rec =
                    pre +:+ "Below average armor score: " +:+ JS.toString sc +:+ "/100") /\
     (sc < 30 -> action rec = JUNK)).
Proof.
  intros Hin. apply plan_recommendation in Hin as (it & _ & ->).
  rewrite analyzeItem_item. intros Hty Hun. apply protectionReasons_nil_iff in Hun.
  rewrite (analyzeItem_unprotected _ _ _ Hun), Hty. unfold analyzeArmor.
  split.
  - intros ->. reflexivity.
  - intros s -> Hhigh. apply highStatProtected_None in Hhigh. rewrite Hhigh.
    cbv zeta.
    destruct (totalScore s >=? 75) eqn:E75; [split_geb; simpl; repeat split; lia|].
    destruct (totalScore s >=? 50) eqn:E50.
    { destruct (hasBetterDuplicate p it (targetItems p items)) eqn:Eb.
      - apply hasBetterDuplicate_spec in Eb.
        split_geb; simpl; repeat split; try lia; try reflexivity.
        intros Hn; contradiction.
      - assert (Hn : ~ betterDuplicateExists p it (targetItems p items)).
        { intros H. apply hasBetterDuplicate_spec in H. congruence. }
        split_geb; simpl; repeat split; try lia; try reflexivity.
        intros Hyes; contradiction. }
    destruct (totalScore s >=? 30) eqn:E30.
    { split_geb; simpl. repeat split; try lia.
      destruct (tagReasons_cases p it) as [-> | ->].
      - exists "". reflexivity.
      - exists "Tagged as junk in DIM. ". reflexivity. }
    split_geb; simpl; repeat split; lia.
Qed.

Lemma unprotected_armor_tiers_witness :
  let rec := analyzeItem plainPlanner scenarioE_item [scenarioE_item] in
  In rec (recommendations (generatePlan plainPlanner 0 [scenarioE_item])) /\
  itemType (item rec) = armor /\
  unprotected plainPlanner (item rec) /\
  score rec = Some 42 /\
  action rec = REVIEW /\
  exists pre, reason rec = pre +:+ "Below average armor score: 42/100".
Proof.
  intros rec.
  assert (H1 : In rec (recommendations (generatePlan plainPlanner 0 [scenarioE_item])))
    by (left; reflexivity).
  assert (H2 : itemType (item rec) = armor) by reflexivity.
  assert (H3 : unprotected plainPlanner (item rec))
    by (apply protectionReasons_nil_iff; reflexivity).
  split; [exact H1 | split; [exact H2 | split; [exact H3 | split; [reflexivity|]]]].
  destruct (unprotected_armor_tiers plainPlanner 0 [scenarioE_item] rec H1 H2 H3)
    as [_ T].
  destruct (scoreArmor_total (armorScorer plainPlanner) scenarioE_item _ eq_refl eq_refl)
    as (s & Es & Htot & _).
  assert (Hs : totalScore s = 42) by (rewrite Htot; vm_compute; reflexivity).
  assert (Hhigh : ~ meetsHighStatThreshold plainPlanner (item rec)).
  { intros (_ & st & Hst & Hle). vm_compute in Hst. injection Hst as <-.
    vm_compute in Hle. apply Hle. reflexivity. }
  destruct (T s Es Hhigh) as (_ & _ & T30 & _).
  rewrite Hs in T30. apply T30. lia.
Defined.

(** ** Unprotected weapons *)

Lemma otherCopies_In it all d :
  In d (otherCopies it all) <->
  In d all /\ itemHash d = itemHash it /\ itemInstanceId d <> itemInstanceId it.
Proof.
  unfold otherCopies. rewrite filter_In, andb_true_iff, Z.eqb_eq, negb_true_iff,
    String.eqb_neq. tauto.
Qed.

Lemma analyzeWeapon_only_copy p it all rs :
  otherCopies it all = [] ->
  analyzeWeapon p it all rs = weaponRec it KEEP (rs ++ ["Only copy of this weapon"]).
Proof.
  unfold analyzeWeapon, otherCopies. intros ->. reflexivity.
Qed.

Lemma analyzeWeapon_best p it all rs :
  otherCopies it all <> [] ->
  (forall d, In d (otherCopies it all) -> ~ ranksAbove d it) ->
  analyzeWeapon p it all rs =
  weaponRec it KEEP
    (rs ++ ["Best copy among " +:+
            JS.toString (Z.of_nat (S (length (otherCopies it all)))) +:+ " duplicates"]).
Proof.
  intros Hne Hbest. unfold analyzeWeapon. fold (otherCopies it all).
  destruct (otherCopies it all) as [|d0 dl] eqn:E; [contradiction|].
  destruct (sort_head_first weaponOrder it (d0 :: dl)) as [rest Hs].
  { intros d Hd. apply Hbest in Hd.
    destruct (Z.lt_ge_cases 0 (weaponOrder it d)) as [Hp|Hn]; [|lia].
    apply weaponOrder_ranksAbove in Hp. contradiction. }
  pose proof (length_sort weaponOrder (it :: d0 :: dl)) as Hlen.
  rewrite Hs in *. rewrite String.eqb_refl, Hlen. reflexivity.
Qed.

Lemma analyzeWeapon_outranked p it all rs :
  (exists d, In d (otherCopies it all) /\ ranksAbove d it) ->
  analyzeWeapon p it all rs =
  weaponRec it JUNK
    (rs ++ ["Duplicate (" +:+ JS.toString (Z.of_nat (length (otherCopies it all))) +:+
            " others exist)"] ++ ["Not the best copy"]).
Proof.
  intros (d & Hd & Hab). unfold analyzeWeapon. fold (otherCopies it all).
  destruct (otherCopies it all) as [|d0 dl] eqn:E; [destruct Hd|].
  destruct (sort_head_other weaponOrder weaponOrder_total weaponOrder_trans
              it (d0 :: dl)) as (b & rest & Hs & Hb & _).
  { exists d. split; [exact Hd|]. apply weaponOrder_ranksAbove, Hab. }
  rewrite Hs.
  rewrite <- E in Hb. apply otherCopies_In in Hb as (_ & _ & Hid).
  apply String.eqb_neq in Hid. rewrite Hid.
  unfold weaponRec. rewrite <- app_assoc. reflexivity.
Qed.

(** Whether some other copy ranks strictly above the item is decidable, so
    the two cases above are exhaustive. *)
Lemma ranksAbove_dec d x : {ranksAbove d x} + {~ ranksAbove d x}.
Proof.
  destruct (Z_lt_dec 0 (weaponOrder x d)) as [H|H].
  - left. apply weaponOrder_ranksAbove, H.
  - right. intros Hab. apply H, weaponOrder_ranksAbove, Hab.
Defined.

Lemma outranked_or_best it (l : list InventoryItem) :
  (exists d, In d l /\ ranksAbove d it) \/ (forall d, In d l -> ~ ranksAbove d it).
Proof.
  induction l as [|x l [IH|IH]].
  - right. intros d [].
  - left. destruct IH as (d & Hd & H). exists d. split; [right; exact Hd | exact H].
  - destruct (ranksAbove_dec x it) as [H|H].
    + left. exists x. split; [left; reflexivity | exact H].
    + right. intros d [<-|Hd]; [exact H | apply IH, Hd].
Qed.

(** C5, as the code behaves. For an unprotected weapon candidate: with no
    other candidate of its definition the action is KEEP and the reason ends
    in "Only copy of this weapon"; otherwise it is KEEP ("Best copy among N
    duplicates") when no other copy ranks strictly above it by masterworked,
    then locked, then power level, and JUNK ("Not the best copy") when some
    other copy does; the action is never REVIEW.  In scenario B the 1810
    copy is KEEP and the two others are JUNK with "Not the best copy". *)
Theorem unprotected_weapon_rule :
  (forall p now items rec,
     In rec (recommendations (generatePlan p now items)) ->
     itemType (item rec) = weapon ->
     unprotected p (item rec) ->
     let it := item rec in
     let others := otherCopies it (targetItems p items) in
     (others = [] ->
      action rec = KEEP /\
      reason rec = JS.join ". " (tagReasons p it ++ ["Only copy of this weapon"])) /\
     (others <> [] ->
      (forall d, In d others -> ~ ranksAbove d it) ->
      action rec = KEEP /\
      reason rec =
        JS.join ". "
          (tagReasons p it ++
           ["Best copy among " +:+ JS.toString (Z.of_nat (S (length others))) +:+
            " duplicates"])) /\
     ((exists d, In d others /\ ranksAbove d it) ->
      action rec = JUNK /\
      reason rec =
        JS.join ". "
          (tagReasons p it ++
           ["Duplicate (" +:+ JS.toString (Z.of_nat (length others)) +:+ " others exist)";
            "Not the best copy"])) /\
     action rec <> REVIEW) /\
  List.map (fun r => (powerLevel (item r), action r, reason r))
    (recommendations (generatePlan plainPlanner 0 scenarioB_items)) =
  [ (1805, JUNK, "Duplicate (2 others exist). Not the best copy");
    (1800, JUNK, "Duplicate (2 others exist). Not the best copy");
    (1810, KEEP, "Best copy among 3 duplicates") ].
Proof.
  split; [|vm_compute; reflexivity].
  intros p now items rec Hin.
  apply plan_recommendation in Hin as (it & _ & ->).
  rewrite analyzeItem_item. intros Hty Hun. cbv zeta.
  apply protectionReasons_nil_iff in Hun.
  rewrite (analyzeItem_unprotected _ _ _ Hun), Hty.
  repeat apply conj.
  - intros H. rewrite (analyzeWeapon_only_copy _ _ _ _ H). split; reflexivity.
  - intros Hne H. rewrite (analyzeWeapon_best _ _ _ _ Hne H). split; reflexivity.
  - intros H. rewrite (analyzeWeapon_outranked _ _ _ _ H). split; reflexivity.
  - destruct (otherCopies it (targetItems p items)) as [|d0 dl] eqn:E.
    + rewrite (analyzeWeapon_only_copy _ _ _ _ E). discriminate.
    + destruct (outranked_or_best it (otherCopies it (targetItems p items))) as [H|H].
      * rewrite (analyzeWeapon_outranked _ _ _ _ H). discriminate.
      * rewrite (analyzeWeapon_best _ _ _ _ ltac:(rewrite E; discriminate) H).
        discriminate.
Qed.

Lemma unprotected_weapon_rule_witness :
  let it := mkWeapon "b-1805" 303 1805 in
  let rec := analyzeItem plainPlanner it scenarioB_items in
  In rec (recommendations (generatePlan plainPlanner 0 scenarioB_items)) /\
  itemType (item rec) = weapon /\
  unprotected plainPlanner (item rec) /\
  (exists d, In d (otherCopies it scenarioB_items) /\ ranksAbove d it) /\
  action rec = JUNK.
Proof.
  intros it rec.
  assert (H1 : In rec (recommendations (generatePlan plainPlanner 0 scenarioB_items)))
    by (left; reflexivity).
  assert (H2 : itemType (item rec) = weapon) by reflexivity.
  assert (H3 : unprotected plainPlanner (item rec))
    by (apply protectionReasons_nil_iff; reflexivity).
  assert (H4 : exists d, In d (otherCopies it scenarioB_items) /\ ranksAbove d it).
  { exists (mkWeapon "b-1810" 303 1810). split; [left; reflexivity|].
    right; right. split; [reflexivity | split; [reflexivity | simpl; lia]]. }
  split; [exact H1 | split; [exact H2 | split; [exact H3 | split; [exact H4|]]]].
  exact (proj1 (proj1 (proj2 (proj2
           (proj1 unprotected_weapon_rule plainPlanner 0 scenarioB_items rec H1 H2 H3)))
           H4)).
Defined.

(** C5, as stated, fails on copies that tie: both tied copies are
    unprotected weapons of one definition and both are kept, so no copy is
    "the" top with every other one junked. *)
Lemma tied_copies_not_one_kept :
  let recs := recommendations (generatePlan plainPlanner 0 tied_items) in
  List.map (fun r => (itemInstanceId (item r), itemHash (item r), itemType (item r),
                      protectionReasons plainPlanner (item r), action r)) recs =
  [ ("t-1", 404, weapon, [], KEEP); ("t-2", 404, weapon, [], KEEP) ] /\
  ~ one_kept_rest_junked recs.
Proof.
  split; [vm_compute; reflexivity|].
  intros (top & H).
  pose (r1 := analyzeItem plainPlanner (mkWeapon "t-1" 404 1810) tied_items).
  pose (r2 := analyzeItem plainPlanner (mkWeapon "t-2" 404 1810) tied_items).
  assert (H1 : In r1 (recommendations (generatePlan plainPlanner 0 tied_items)))
    by (left; reflexivity).
  assert (H2 : In r2 (recommendations (generatePlan plainPlanner 0 tied_items)))
    by (right; left; reflexivity).
  destruct (H r1 H1) as [_ J1]. destruct (H r2 H2) as [_ J2].
  assert (E1 : action r1 = KEEP) by reflexivity.
  assert (E2 : action r2 = KEEP) by reflexivity.
  assert (Hc : item r1 <> top \/ item r2 <> top).
  { destruct (string_dec (itemInstanceId top) "t-1") as [Ht|Ht].
    - right. intros Heq. rewrite <- Heq in Ht. vm_compute in Ht. discriminate.
    - left. intros Heq. apply Ht. rewrite <- Heq. reflexivity. }
  destruct Hc as [Hc|Hc]; [apply J1 in Hc | apply J2 in Hc]; congruence.
Qed.



(** ** The junk tag *)

Lemma protectionReasons_junk p b it :
  protectionReasons (withBackup p (taggedJunk b (itemInstanceId it))) it =
  protectionReasons (withBackup p (untagged b (itemInstanceId it))) it.
Proof.
  unfold protectionReasons, withBackup, DIMParser.loaded, DIMParser.getTag,
    DIMParser.getLoadoutsForItem; simpl.
  rewrite lookup_insert_eq, lookup_delete_eq. reflexivity.
Qed.

Lemma tagReasons_junk p b it :
  tagReasons (withBackup p (taggedJunk b (itemInstanceId it))) it =
  ["Tagged as junk in DIM"].
Proof.
  unfold tagReasons, withBackup, DIMParser.loaded, DIMParser.getTag; simpl.
  rewrite lookup_insert_eq. reflexivity.
Qed.

Lemma tagReasons_untagged p b it :
  tagReasons (withBackup p (untagged b (itemInstanceId it))) it = [].
Proof.
  unfold tagReasons, withBackup, DIMParser.loaded, DIMParser.getTag; simpl.
  rewrite lookup_delete_eq. reflexivity.
Qed.

(** The analysis of an unprotected item reads the planner only through its
    scorer and rules, which the backup does not touch. *)
Lemma analyzeArmor_withBackup p b it all rs :
  analyzeArmor (withBackup p b) it all rs = analyzeArmor p it all rs.
Proof. reflexivity. Qed.

Lemma analyzeWeapon_withBackup p b it all rs :
  analyzeWeapon (withBackup p b) it all rs = analyzeWeapon p it all rs.
Proof. reflexivity. Qed.

Lemma analyzeArmor_junk_note p it all :
  let rJ := analyzeArmor p it all ["Tagged as junk in DIM"] in
  let r0 := analyzeArmor p it all [] in
  action rJ = action r0 /\ score rJ = score r0 /\ protectedBy rJ = protectedBy r0 /\
  item rJ = item r0 /\
  (protectedBy r0 = None -> reason rJ = junkNote +:+ reason r0) /\
  (protectedBy r0 <> None -> reason rJ = reason r0).
Proof.
  unfold analyzeArmor.
  destruct (ArmorScorer.scoreArmor (armorScorer p) it) as [s|].
  - destruct (highStatProtected p it).
    + simpl. repeat split; auto. intros H; discriminate.
    + repeat (match goal with |- context [if ?c then _ else _] => destruct c end);
        simpl; repeat split; auto; intros H; congruence.
  - simpl. repeat split; auto. intros H; congruence.
Qed.

Lemma analyzeWeapon_junk_note p it all :
  let rJ := analyzeWeapon p it all ["Tagged as junk in DIM"] in
  let r0 := analyzeWeapon p it all [] in
  action rJ = action r0 /\ score rJ = score r0 /\ protectedBy rJ = protectedBy r0 /\
  item rJ = item r0 /\
  (protectedBy r0 = None -> reason rJ = junkNote +:+ reason r0) /\
  (protectedBy r0 <> None -> reason rJ = reason r0).
Proof.
  unfold analyzeWeapon.
  destruct (List.filter _ all).
  - simpl. repeat split; auto. intros H; congruence.
  - match goal with |- context [if ?c then _ else _] => destruct c end;
      simpl; repeat split; auto; intros H; congruence.
Qed.

(** C6, as the code behaves. Tagging an item junk in the build manifest
    never changes its action, score or protection list.  When the item is
    protected (by a rule, or as high-stat armor) the reason is unchanged;
    otherwise the reason gains the prefix "Tagged as junk in DIM. ",
    whatever the action is: KEEP as well as REVIEW and JUNK. *)
Theorem junk_tag_effect p b it all :
  let rJ := analyzeItem (withBackup p (taggedJunk b (itemInstanceId it))) it all in
  let r0 := analyzeItem (withBackup p (untagged b (itemInstanceId it))) it all in
  action rJ = action r0 /\
  score rJ = score r0 /\
  protectedBy rJ = protectedBy r0 /\
  (protectedBy r0 <> None -> reason rJ = reason r0) /\
  (protectedBy r0 = None -> reason rJ = junkNote +:+ reason r0).
Proof.
  unfold analyzeItem.
  rewrite protectionReasons_junk, tagReasons_junk, tagReasons_untagged.
  destruct (0 <? length _)%nat.
  - simpl. repeat split; auto. intros H; discriminate.
  - destruct (itemType it); rewrite !analyzeArmor_withBackup || rewrite !analyzeWeapon_withBackup.
    + destruct (analyzeWeapon_junk_note p it all) as (H1 & H2 & H3 & _ & H5 & H6).
      repeat split; assumption.
    + destruct (analyzeArmor_junk_note p it all) as (H1 & H2 & H3 & _ & H5 & H6).
      repeat split; assumption.
    + destruct (analyzeWeapon_junk_note p it all) as (H1 & H2 & H3 & _ & H5 & H6).
      repeat split; assumption.
Qed.

(** C6, as stated, fails: the junk note also enters the reason of an item
    whose action is KEEP.  A junk-tagged weapon without duplicates is kept,
    and its reason differs from that of the untagged weapon. *)
Lemma junk_note_in_keep_reason :
  let it := mkWeapon "j-1" 505 1810 in
  let b := {| loadouts := []; tags := ∅; notes := ∅ |} in
  let rJ := analyzeItem (withBackup plainPlanner (taggedJunk b "j-1")) it [it] in
  let r0 := analyzeItem (withBackup plainPlanner (untagged b "j-1")) it [it] in
  protectedBy rJ = None /\
  action rJ = KEEP /\
  reason r0 = "Only copy of this weapon" /\
  reason rJ = "Tagged as junk in DIM. Only copy of this weapon" /\
  ~ (reason rJ <> reason r0 -> action rJ = JUNK \/ action rJ = REVIEW).
Proof.
  repeat apply conj; try (vm_compute; reflexivity).
  intros H.
  assert (Hk : action (analyzeItem
                         (withBackup plainPlanner
                            (taggedJunk {| loadouts := []; tags := ∅; notes := ∅ |} "j-1"))
                         (mkWeapon "j-1" 505 1810) [mkWeapon "j-1" 505 1810]) = KEEP)
    by (vm_compute; reflexivity).
  destruct H as [H|H].
  - vm_compute. discriminate.
  - rewrite Hk in H. discriminate.
  - rewrite Hk in H. discriminate.
Qed.

(** ** Duplicate groups *)

Lemma Map_get_In {V} (k : string) (m : list (string * V)) (v : V) :
  JS.Map_get k m = Some v -> In (k, v) m.
Proof.
  induction m as [|[k' v'] m IH]; simpl; [discriminate|].
  destruct (String.eqb k' k) eqn:E.
  - apply String.eqb_eq in E. intros H. injection H as <-. left. congruence.
  - intros H. right. apply IH, H.
Qed.

Lemma Map_set_In {V} (k : string) (v : V) (m : list (string * V)) k' v' :
  In (k', v') (JS.Map_set k v m) -> (k' = k /\ v' = v) \/ In (k', v') m.
Proof.
  induction m as [|[k0 v0] m IH]; simpl.
  - intros [H|[]]. injection H as <- <-. left. split; reflexivity.
  - destruct (String.eqb k0 k) eqn:E.
    + apply String.eqb_eq in E. intros [H|H].
      * injection H as <- <-. left. split; [exact E | reflexivity].
      * right. right. exact H.
    + intros [H|H]; [right; left; exact H|].
      destruct (IH H) as [Hk|Hin]; [left; exact Hk | right; right; exact Hin].
Qed.

Lemma groupStep_inv f items groups it :
  In it items -> groupsInv items groups ->
  groupsInv items (DuplicateFinder.groupStep f groups it).
Proof.
  intros Hit Hinv.
  assert (Hadd : itemType it <> other ->
            groupsInv items
              (JS.Map_set (JS.toString (itemHash it))
                 (match JS.Map_get (JS.toString (itemHash it)) groups with
                  | Some g => g
                  | None => []
                  end ++ [it]) groups)).
  { intros Hty k grp Hin x Hx.
    apply Map_set_In in Hin as [[-> ->]|Hin]; [|exact (Hinv _ _ Hin _ Hx)].
    apply in_app_or in Hx as [Hx|[<-|[]]].
    - destruct (JS.Map_get _ groups) as [g|] eqn:E; [|destruct Hx].
      apply Map_get_In in E. exact (Hinv _ _ E _ Hx).
    - repeat split; assumption. }
  unfold DuplicateFinder.groupStep.
  destruct (itemType it) eqn:Ety.
  - destruct (negb _); [exact Hinv | apply Hadd; discriminate].
  - destruct (negb _); [exact Hinv | apply Hadd; discriminate].
  - exact Hinv.
Qed.

Lemma groupByHash_inv f items : groupsInv items (DuplicateFinder.groupByHash f items).
Proof.
  unfold DuplicateFinder.groupByHash.
  assert (H : forall l groups,
             (forall x, In x l -> In x items) -> groupsInv items groups ->
             groupsInv items (fold_left (DuplicateFinder.groupStep f) l groups)).
  { induction l as [|x l IH]; simpl; intros groups Hl Hinv; [exact Hinv|].
    apply IH.
    - intros y Hy. apply Hl. right. exact Hy.
    - apply groupStep_inv; [apply Hl; left; reflexivity | exact Hinv]. }
  apply H; [auto|]. intros k grp [].
Qed.

Lemma collectGroups_In f groups g :
  In g (DuplicateFinder.collectGroups f groups) ->
  exists k grp first rest,
    In (k, grp) groups /\ grp = first :: rest /\
    g_items g = grp /\ g_itemHash g = JS.parseInt k /\
    minDuplicates (DuplicateFinder.options f) <= Z.of_nat (length grp).
Proof.
  unfold DuplicateFinder.collectGroups. rewrite in_flat_map.
  intros ([k grp] & Hin & Hg). unfold DuplicateFinder.toGroup in Hg.
  destruct (Z.of_nat (length grp) <? minDuplicates (DuplicateFinder.options f)) eqn:E;
    [destruct Hg|].
  apply Z.ltb_ge in E.
  destruct grp as [|first rest]; [destruct Hg|].
  destruct Hg as [<-|[]]. exists k, (first :: rest), first, rest.
  repeat split; auto.
Qed.

Lemma groupSizeOrder_total a b :
  0 < DuplicateFinder.groupSizeOrder a b -> DuplicateFinder.groupSizeOrder b a <= 0.
Proof. unfold DuplicateFinder.groupSizeOrder. lia. Qed.

Lemma groupSizeOrder_trans a b c :
  DuplicateFinder.groupSizeOrder a b <= 0 -> DuplicateFinder.groupSizeOrder b c <= 0 ->
  DuplicateFinder.groupSizeOrder a c <= 0.
Proof. unfold DuplicateFinder.groupSizeOrder. lia. Qed.

(** C7. Every group returned by [findDuplicates] holds only input items of
    one definition identifier (the group's [itemHash]), holds no item of
    category other, and has at least [minDuplicates] members; the groups
    come in descending order of size; the default [minDuplicates] is 2. *)
Theorem findDuplicates_groups f items :
  let groups := DuplicateFinder.findDuplicates f items in
  (forall g, In g groups ->
     (exists h, g_itemHash g = Some h /\
                forall x, In x (g_items g) -> itemHash x = h) /\
     (forall x y, In x (g_items g) -> In y (g_items g) -> itemHash x = itemHash y) /\
     (forall x, In x (g_items g) -> itemType x <> other /\ In x items) /\
     minDuplicates (DuplicateFinder.options f) <= Z.of_nat (length (g_items g))) /\
  StronglySorted (fun a b => (length (g_items b) <= length (g_items a))%nat) groups /\
  minDuplicates DEFAULT_OPTIONS = 2.
Proof.
  cbv zeta. split; [|split; [|reflexivity]].
  - intros g Hg. unfold DuplicateFinder.findDuplicates in Hg. apply In_sort in Hg.
    apply collectGroups_In in Hg as (k & grp & first & rest & Hin & Hgrp & Hit & Hh & Hmin).
    pose proof (groupByHash_inv f items _ _ Hin) as Hinv.
    rewrite Hit.
    assert (Hkey : forall x, In x grp -> itemHash x = itemHash first).
    { intros x Hx. apply toString_inj.
      destruct (Hinv x Hx) as [Hkx _].
      destruct (Hinv first) as [Hf _]; [rewrite Hgrp; left; reflexivity|].
      congruence. }
    repeat apply conj.
    + exists (itemHash first). split; [|exact Hkey].
      rewrite Hh. destruct (Hinv first) as [<- _]; [rewrite Hgrp; left; reflexivity|].
      apply parseInt_toString.
    + intros x y Hx Hy. rewrite (Hkey x Hx), (Hkey y Hy). reflexivity.
    + intros x Hx. destruct (Hinv x Hx) as (_ & H1 & H2). split; assumption.
    + exact Hmin.
  - unfold DuplicateFinder.findDuplicates.
    pose proof (sort_sorted DuplicateFinder.groupSizeOrder groupSizeOrder_total
                  groupSizeOrder_trans
                  (DuplicateFinder.collectGroups f (DuplicateFinder.groupByHash f items)))
      as Hs.
    induction Hs as [|a l Hl IH Ha]; constructor; [exact IH|].
    rewrite List.Forall_forall in Ha |- *. intros b Hb. specialize (Ha b Hb).
    unfold DuplicateFinder.groupSizeOrder in Ha. lia.
Qed.

Example findDuplicates_example :
  List.map (fun g => (g_itemHash g, List.map itemInstanceId (g_items g)))
    (DuplicateFinder.findDuplicates (DuplicateFinder.new DEFAULT_OPTIONS)
       [ mkWeapon "a" 7 1810; mkWeapon "b" 8 1805; mkWeapon "c" 7 1800;
         mkWeapon "d" 8 1; mkWeapon "e" 8 1; mkWeapon "f" 9 1 ]) =
  [ (Some 8, ["b"; "d"; "e"]); (Some 7, ["a"; "c"]) ].
Proof. vm_compute. reflexivity. Qed.

(** ** Repeating a plan *)

(** [generatePlan] reads the planner through its parser, scorer, rules and
    vault filter only. *)
Lemma generatePlan_reads p p' now items :
  dimParser p = dimParser p' ->
  armorScorer p = armorScorer p' ->
  protectionRules p = protectionRules p' ->
  onlyVault (config p) = onlyVault (config p') ->
  generatePlan p now items = generatePlan p' now items.
Proof.
  destruct p as [dp sc df pr cf], p' as [dp' sc' df' pr' cf']; simpl.
  intros <- <- <- Hv.
  unfold generatePlan, targetItems, analyzeItem, analyzeArmor, analyzeWeapon,
    hasBetterDuplicate, highStatProtected, protectionReasons, tagReasons; simpl.
  rewrite Hv. reflexivity.
Qed.

(** [generatePlan] and the methods it calls assign no field of the planner,
    of its scorer or of its parser, and the only arrays they sort in place
    are arrays they have just built ([recommendations], [allCopies]); the
    input array is only filtered.  So the planner a second call finds is the
    planner of the first call, and the two calls differ in the clock reading
    alone. *)


(** Setting the rules to their current value between the two calls changes
    nothing either, while a real change of the rules can change the plan. *)
Lemma generatePlan_after_same_rules p now items :
  generatePlan (updateProtectionRules p (protectionRules p)) now items =
  generatePlan p now items.
Proof. apply generatePlan_reads; reflexivity. Qed.

Example generatePlan_after_new_rules :
  let it := lockItem (mkWeapon "w1" 11 1800) in
  let open := {| protectDIMLoadouts := true; protectLockedItems := false;
                 protectMasterworked := true; protectExotics := true;
                 protectHighStatArmor := true; highStatThreshold := 65;
                 customProtectedIds := [] |} in
  List.map reason (recommendations (generatePlan plainPlanner 0 [it])) =
    ["Protected: Locked in game"] /\
  List.map reason
    (recommendations (generatePlan (updateProtectionRules plainPlanner open) 0 [it])) =
    ["Only copy of this weapon"].
Proof. split; vm_compute; reflexivity. Qed.

(* ===================================================================== *)
(** * Further properties *)
(* ===================================================================== *)

(** ** Order and counts of a plan *)

Section StableFilter.
Context {A : Type}.
Variable cmp : A -> A -> Z.
Variable P : A -> bool.

(** [P] selects a class of the comparator: an element that must come
    strictly before one of the class is not in the class. *)
Hypothesis P_class : forall x y, P x = true -> 0 < cmp x y -> P y = false.

Lemma filter_insert (x : A) (l : list A) :
  List.filter P (JS.insert cmp x l) = List.filter P (x :: l).
Proof.
  induction l as [|y l IH]; [reflexivity|].
  simpl JS.insert. destruct (cmp x y <=? 0) eqn:E; [reflexivity|].
  apply Z.leb_gt in E.
  change (List.filter P (y :: JS.insert cmp x l))
    with (if P y then y :: List.filter P (JS.insert cmp x l)
          else List.filter P (JS.insert cmp x l)).
  rewrite IH. simpl.
  destruct (P x) eqn:Px.
  - rewrite (P_class x y Px E). reflexivity.
  - reflexivity.
Qed.

(** The sort keeps the elements of one class in their original order. *)
Lemma filter_sort (l : list A) : List.filter P (JS.sort cmp l) = List.filter P l.
Proof.
  induction l as [|x l IH]; [reflexivity|].
  simpl JS.sort. rewrite filter_insert. simpl. rewrite IH. reflexivity.
Qed.
End StableFilter.

Lemma byAction_total a b : 0 < byAction a b -> byAction b a <= 0.
Proof. unfold byAction. lia. Qed.

Lemma byAction_trans a b c : byAction a b <= 0 -> byAction b c <= 0 -> byAction a c <= 0.
Proof. unfold byAction. lia. Qed.

Lemma withAction_nil a (l : list CleanupRecommendation) :
  (forall r, In r l -> action r <> a) -> withAction a l = [].
Proof.
  induction l as [|x l IH]; intros H; [reflexivity|].
  unfold withAction in *. simpl.
  rewrite bool_decide_eq_false_2 by (apply H; left; reflexivity).
  apply IH. intros r Hr. apply H. right. exact Hr.
Qed.

Lemma sorted_by_action_split (l : list CleanupRecommendation) :
  StronglySorted (fun a b => byAction a b <= 0) l ->
  l = withAction JUNK l ++ withAction REVIEW l ++ withAction KEEP l.
Proof.
  induction 1 as [|x l Hs IH Hx]; [reflexivity|].
  rewrite List.Forall_forall in Hx. unfold byAction in Hx.
  unfold withAction in *. simpl.
  destruct (action x) eqn:Ex; simpl.
  - fold (withAction JUNK l). fold (withAction REVIEW l).
    rewrite (withAction_nil JUNK l), (withAction_nil REVIEW l).
    + simpl. f_equal. rewrite IH at 1.
      fold (withAction JUNK l). fold (withAction REVIEW l).
      rewrite (withAction_nil JUNK l), (withAction_nil REVIEW l); [reflexivity| |];
        intros r Hr E; specialize (Hx r Hr); rewrite E in Hx; simpl in Hx; lia.
    + intros r Hr E; specialize (Hx r Hr); rewrite E in Hx; simpl in Hx; lia.
    + intros r Hr E; specialize (Hx r Hr); rewrite E in Hx; simpl in Hx; lia.
  - fold (withAction JUNK l).
    rewrite (withAction_nil JUNK l).
    + simpl. f_equal. rewrite IH at 1.
      fold (withAction JUNK l). rewrite (withAction_nil JUNK l); [reflexivity|].
      intros r Hr E; specialize (Hx r Hr); rewrite E in Hx; simpl in Hx; lia.
    + intros r Hr E; specialize (Hx r Hr); rewrite E in Hx; simpl in Hx; lia.
  - f_equal. exact IH.
Qed.

Lemma recommendations_sorted p now items :
  recommendations (generatePlan p now items) =
  JS.sort byAction (unsortedRecommendations p items).
Proof. reflexivity. Qed.

(** X1. The recommendations of a plan are the JUNK ones, then the REVIEW
    ones, then the KEEP ones, and inside each of the three the
    recommendations keep the order of the candidate items. *)
Theorem plan_order_stable p now items :
  recommendations (generatePlan p now items) =
  withAction JUNK (unsortedRecommendations p items) ++
  withAction REVIEW (unsortedRecommendations p items) ++
  withAction KEEP (unsortedRecommendations p items).
Proof.
  rewrite recommendations_sorted.
  rewrite (sorted_by_action_split _
             (sort_sorted byAction byAction_total byAction_trans _)) at 1.
  unfold withAction.
  rewrite !filter_sort; [reflexivity| | |];
    intros x y Hx Hlt; apply bool_decide_eq_true in Hx;
    apply bool_decide_eq_false; intros Hy; unfold byAction in Hlt;
    rewrite Hx, Hy in Hlt; simpl in Hlt; lia.
Qed.

Lemma length_by_action (l : list CleanupRecommendation) :
  length l =
  (length (withAction KEEP l) + length (withAction REVIEW l) +
   length (withAction JUNK l))%nat.
Proof.
  induction l as [|x l IH]; [reflexivity|].
  unfold withAction in *. simpl. destruct (action x); simpl; lia.
Qed.

Lemma filter_length_le {A} (P Q : A -> bool) (l : list A) :
  (forall x, In x l -> P x = true -> Q x = true) ->
  (length (List.filter P l) <= length (List.filter Q l))%nat.
Proof.
  induction l as [|x l IH]; intros H; [simpl; lia|].
  assert (IH' := IH (fun y Hy => H y (or_intror Hy))).
  simpl. destruct (P x) eqn:Px.
  - rewrite (H x (or_introl eq_refl) Px). simpl. lia.
  - destruct (Q x); simpl; lia.
Qed.

(** X2. The summary of a plan counts every candidate once: [totalAnalyzed]
    is the number of candidate items and equals keep + review + junk, and
    the number of protected items is at most the number kept. *)
Theorem plan_summary_counts p now items :
  let s := summary (generatePlan p now items) in
  totalAnalyzed s = length (targetItems p items) /\
  totalAnalyzed s = (keep s + review s + junk s)%nat /\
  (protectedItems s <= keep s)%nat /\
  junk s = length (getJunkItems (generatePlan p now items)) /\
  review s = length (getReviewItems (generatePlan p now items)).
Proof.
  cbv zeta. unfold generatePlan; simpl.
  fold (unsortedRecommendations p items). fold byAction.
  repeat apply conj.
  - rewrite length_sort. unfold unsortedRecommendations. apply length_map.
  - apply (length_by_action (JS.sort byAction (unsortedRecommendations p items))).
  - apply filter_length_le. intros r Hr Hp.
    apply In_sort in Hr. unfold unsortedRecommendations in Hr.
    apply in_map_iff in Hr as (it & <- & _).
    apply bool_decide_eq_true.
    unfold isProtected in Hp.
    destruct (protectedBy (analyzeItem p it (targetItems p items))) as [l|] eqn:E;
      [|discriminate].
    eapply analyzeItem_protected_keep, E.
  - unfold getJunkItems. simpl. rewrite length_map. reflexivity.
  - unfold getReviewItems. simpl. rewrite length_map. reflexivity.
Qed.

Lemma targetItems_In p items it :
  In it (targetItems p items) <->
  In it items /\
  (itemType it = weapon \/ itemType it = armor) /\
  (onlyVault (config p) = true -> location it = Vault).
Proof.
  unfold targetItems. rewrite filter_In.
  destruct (onlyVault (config p)); simpl.
  - destruct (bool_decide (location it = Vault)) eqn:El; simpl.
    + apply bool_decide_eq_true in El.
      rewrite orb_true_iff, !bool_decide_eq_true. tauto.
    + apply bool_decide_eq_false in El. split; [intros [_ H]; discriminate|].
      intros (_ & _ & H). exfalso. apply El, H. reflexivity.
  - rewrite orb_true_iff, !bool_decide_eq_true.
    split; [intros (H1 & H2); repeat split; auto; discriminate | tauto].
Qed.

(** X3. A plan recommends on the candidates and on nothing else: the items
    of its recommendations are a rearrangement of the weapon and armor
    items of the input (of those in the vault when [onlyVault] is set), so
    an item of category other, or outside the vault under [onlyVault], gets
    no recommendation. *)
Theorem plan_scope p now items :
  Permutation (List.map item (recommendations (generatePlan p now items)))
              (targetItems p items) /\
  (forall it, In it (targetItems p items) <->
              In it items /\
              (itemType it = weapon \/ itemType it = armor) /\
              (onlyVault (config p) = true -> location it = Vault)).
Proof.
  split.
  - rewrite recommendations_sorted.
    eapply perm_trans; [apply Permutation_map, sort_perm|].
    unfold unsortedRecommendations. rewrite map_map.
    erewrite map_ext; [rewrite map_id; apply Permutation_refl|].
    intros it. apply analyzeItem_item.
  - intros it. apply targetItems_In.
Qed.

(** ** Protection and the actions *)

Lemma In_pushIf {A} (c : bool) (y x : A) (l : list A) :
  In x (pushIf c y l) <-> In x l \/ (c = true /\ x = y).
Proof.
  unfold pushIf. destruct c.
  - rewrite in_app_iff. simpl. intuition congruence.
  - intuition congruence.
Qed.

Lemma In_tag_overlay (ld : bool) (tg : option string) (l : list string) x :
  In x (if ld then
          match tg with
          | Some tag =>
              if String.eqb tag "favorite" then l ++ ["DIM Favorite"]
              else if String.eqb tag "keep" then l ++ ["DIM Keep tag"]
              else l
          | None => l
          end
        else l) <->
  In x l \/
  (ld = true /\ tg = Some "favorite" /\ x = "DIM Favorite") \/
  (ld = true /\ tg = Some "keep" /\ x = "DIM Keep tag").
Proof.
  destruct ld; [|intuition congruence].
  destruct tg as [tag|]; [|intuition congruence].
  destruct (String.eqb tag "favorite") eqn:Ef.
  { apply String.eqb_eq in Ef. subst tag. rewrite in_app_iff. simpl.
    intuition congruence. }
  destruct (String.eqb tag "keep") eqn:Ek.
  { apply String.eqb_eq in Ek. subst tag. rewrite in_app_iff. simpl.
    intuition congruence. }
  apply String.eqb_neq in Ef, Ek. intuition congruence.
Qed.

(** The array [protectedBy] names exactly the rules that apply. *)
Lemma In_protectionReasons p it label :
  In label (protectionReasons p it) <-> ruleApplies p it label.
Proof.
  unfold protectionReasons, ruleApplies. cbv zeta.
  rewrite In_tag_overlay, !In_pushIf, !andb_true_iff, bool_decide_eq_true, includes_In.
  assert (Hload :
    In label
      (if protectDIMLoadouts (protectionRules p) && DIMParser.loaded (dimParser p)
       then pushIf
              (0 <? length (DIMParser.getLoadoutsForItem (dimParser p) (itemInstanceId it)))%nat
              ("DIM Loadouts: " +:+
               JS.join ", "
                 (List.map loadoutName
                    (DIMParser.getLoadoutsForItem (dimParser p) (itemInstanceId it))))
              []
       else []) <->
    (protectDIMLoadouts (protectionRules p) = true /\
     DIMParser.loaded (dimParser p) = true /\
     DIMParser.getLoadoutsForItem (dimParser p) (itemInstanceId it) <> [] /\
     label = "DIM Loadouts: " +:+
             JS.join ", "
               (List.map loadoutName
                  (DIMParser.getLoadoutsForItem (dimParser p) (itemInstanceId it))))).
  { destruct (protectDIMLoadouts (protectionRules p)), (DIMParser.loaded (dimParser p));
      simpl; try (split; [intros [] | intros (H1 & H2 & _); discriminate]).
    rewrite In_pushIf. simpl.
    destruct (DIMParser.getLoadoutsForItem (dimParser p) (itemInstanceId it)) eqn:E.
    - split; [intros [[]|[H _]]; discriminate | intros (_ & _ & H & _); contradiction].
    - split.
      + intros [[]|[_ ->]]. repeat split; discriminate.
      + intros (_ & _ & _ & ->). right. split; reflexivity. }
  rewrite Hload. tauto.
Qed.



(** X5. A recommendation other than KEEP is only ever made for an item that
    no protection rule covers: a JUNK or REVIEW item is in no protecting
    loadout, is not locked, masterworked or exotic where those rules are
    on, is not on the custom list and is not tagged favorite or keep; and
    it carries no [protectedBy] list. *)
Theorem junk_and_review_are_unprotected p now items rec :
  In rec (recommendations (generatePlan p now items)) ->
  action rec <> KEEP ->
  unprotected p (item rec) /\ protectedBy rec = None.
Proof.
  intros Hin. apply plan_recommendation in Hin as (it & _ & ->).
  rewrite analyzeItem_item. intros Hact.
  destruct (protectionReasons p it) as [|r rs] eqn:E.
  - split; [apply protectionReasons_nil_iff, E|].
    destruct (protectedBy (analyzeItem p it (targetItems p items))) as [l|] eqn:El;
      [|reflexivity].
    exfalso. apply Hact. eapply analyzeItem_protected_keep, El.
  - exfalso. apply Hact. rewrite analyzeItem_protected by (rewrite E; discriminate).
    reflexivity.
Qed.

Lemma junk_and_review_are_unprotected_witness :
  let rec := analyzeItem plainPlanner scenarioE_item [scenarioE_item] in
  In rec (recommendations (generatePlan plainPlanner 0 [scenarioE_item])) /\
  action rec <> KEEP /\
  unprotected plainPlanner (item rec) /\ protectedBy rec = None.
Proof.
  intros rec.
  assert (H1 : In rec (recommendations (generatePlan plainPlanner 0 [scenarioE_item])))
    by (left; reflexivity).
  assert (H2 : action rec <> KEEP) by (vm_compute; discriminate).
  split; [exact H1 | split; [exact H2|]].
  exact (junk_and_review_are_unprotected plainPlanner 0 [scenarioE_item] rec H1 H2).
Defined.

Lemma filter_all_true {A} (P : A -> bool) (l : list A) :
  (forall x, In x l -> P x = true) -> List.filter P l = l.
Proof.
  induction l as [|x l IH]; intros H; [reflexivity|].
  simpl. rewrite (H x (or_introl eq_refl)). f_equal.
  apply IH. intros y Hy. apply H. right. exact Hy.
Qed.

Lemma plan_order_stable_aux p now items :
  List.filter (fun r => bool_decide (action r = JUNK))
    (recommendations (generatePlan p now items)) =
  withAction JUNK (unsortedRecommendations p items).
Proof.
  rewrite recommendations_sorted. unfold withAction. apply filter_sort.
  intros x y Hx Hlt. apply bool_decide_eq_true in Hx.
  apply bool_decide_eq_false. intros Hy. unfold byAction in Hlt.
  rewrite Hx, Hy in Hlt. simpl in Hlt. lia.
Qed.

(** X6. The transfer plan lists exactly the JUNK items of the plan that are
    in the vault, one entry per recommendation and in plan order; it is the
    same for every target character, and under [onlyVault] it has as many
    entries as the summary counts junk. *)
Theorem transfer_plan_is_vault_junk p now items target :
  let plan := generatePlan p now items in
  generateTransferPlan plan target =
    List.map (fun r => transferEntry (item r))
      (List.filter (fun r => bool_decide (location (item r) = Vault))
         (withAction JUNK (unsortedRecommendations p items))) /\
  (forall other, generateTransferPlan plan other = generateTransferPlan plan target) /\
  (onlyVault (config p) = true ->
   length (generateTransferPlan plan target) = junk (summary plan)).
Proof.
  cbv zeta.
  assert (Hj : getJunkItems (generatePlan p now items) =
               List.map item (withAction JUNK (unsortedRecommendations p items))).
  { unfold getJunkItems. rewrite plan_order_stable_aux. reflexivity. }
  repeat apply conj.
  - unfold generateTransferPlan. rewrite Hj.
    generalize (withAction JUNK (unsortedRecommendations p items)).
    induction l as [|r l IH]; [reflexivity|]. simpl.
    destruct (bool_decide (location (item r) = Vault)); simpl; rewrite IH; reflexivity.
  - reflexivity.
  - intros Hv. unfold generateTransferPlan. rewrite length_map.
    assert (Hall : forall it, In it (getJunkItems (generatePlan p now items)) ->
                              bool_decide (location it = Vault) = true).
    { intros it Hit. unfold getJunkItems in Hit. apply in_map_iff in Hit as (r & <- & Hr).
      apply filter_In in Hr as [Hr _].
      apply plan_recommendation_item in Hr as [Hr _].
      apply targetItems_In in Hr as (_ & _ & Hloc).
      apply bool_decide_eq_true, Hloc, Hv. }
    assert (Hn : junk (summary (generatePlan p now items)) =
                 length (getJunkItems (generatePlan p now items))).
    { unfold getJunkItems. rewrite length_map. reflexivity. }
    rewrite Hn, (filter_all_true _ _ Hall). reflexivity.
Qed.

(** ** The stat analysis and the score *)

Lemma Permutation_sumZ (l l' : list Z) : Permutation l l' -> sumZ l = sumZ l'.
Proof. induction 1; simpl; lia. Qed.

Lemma statList_sum st : totalIsSum st -> sumZ (statList st) = total st.
Proof. unfold totalIsSum, statList, sumZ. simpl. lia. Qed.

Lemma byValue_total (a b : string * Z) : 0 < snd b - snd a -> snd a - snd b <= 0.
Proof. lia. Qed.

Lemma byValue_trans (a b c : string * Z) :
  snd b - snd a <= 0 -> snd c - snd b <= 0 -> snd c - snd a <= 0.
Proof. lia. Qed.

Lemma topStats_shape s st :
  exists t1 t2 rest,
    topStats (ArmorScorer.analyzeStats s st) = [t1; t2] /\
    Permutation (t1 :: t2 :: rest) (ArmorScorer.statValues st) /\
    snd t2 <= snd t1 /\
    (forall y, In y rest -> snd y <= snd t2) /\
    ArmorScorer.topStatSum (ArmorScorer.analyzeStats s st) = snd t1 + snd t2.
Proof.
  unfold ArmorScorer.analyzeStats, ArmorScorer.topStatSum, JS.slice_to. cbn [topStats].
  set (cmp := fun a b : string * Z => snd b - snd a).
  pose proof (sort_perm cmp (ArmorScorer.statValues st)) as Hp.
  pose proof (sort_sorted cmp byValue_total byValue_trans (ArmorScorer.statValues st)) as Hs.
  pose proof (length_sort cmp (ArmorScorer.statValues st)) as Hl.
  destruct (JS.sort cmp (ArmorScorer.statValues st)) as [|t1 [|t2 rest]];
    try discriminate Hl.
  exists t1, t2, rest. simpl.
  inversion Hs as [|? ? Hs1 H1]; subst. inversion Hs1 as [|? ? _ H2]; subst.
  rewrite List.Forall_forall in H1, H2. unfold cmp in H1, H2.
  repeat split; auto.
  - specialize (H1 t2 (or_introl eq_refl)). lia.
  - intros y Hy. specialize (H2 y Hy). lia.
Qed.

(** X7. [topStats] holds two different entries of the stat list, the
    larger first; no stat exceeds the first, and none of the four other
    stats exceeds the second. *)
Theorem topStats_are_the_two_largest s st :
  exists t1 t2 rest,
    topStats (ArmorScorer.analyzeStats s st) = [t1; t2] /\
    Permutation (t1 :: t2 :: rest) (ArmorScorer.statValues st) /\
    (forall y, In y (ArmorScorer.statValues st) -> snd y <= snd t1) /\
    (forall y, In y rest -> snd y <= snd t2) /\
    length rest = 4%nat.
Proof.
  destruct (topStats_shape s st) as (t1 & t2 & rest & Ht & Hp & H21 & Hr & _).
  exists t1, t2, rest. repeat apply conj; auto.
  - intros y Hy. apply (Permutation_in _ (Permutation_sym Hp)) in Hy.
    destruct Hy as [<-|[<-|Hy]]; [lia | exact H21 | specialize (Hr y Hy); lia].
  - apply Permutation_length in Hp. simpl in Hp. lia.
Qed.

Lemma topStatSum_room s st c :
  totalIsSum st ->
  (forall v, In v (statList st) -> c <= v) ->
  ArmorScorer.topStatSum (ArmorScorer.analyzeStats s st) + 4 * c <= total st.
Proof.
  intros Hsum Hc.
  destruct (topStats_shape s st) as (t1 & t2 & rest & _ & Hp & _ & _ & ->).
  rewrite <- (statList_sum st Hsum). unfold statList.
  rewrite <- (Permutation_sumZ _ _ (Permutation_map snd Hp)).
  assert (Hlen : length rest = 4%nat).
  { apply Permutation_length in Hp. simpl in Hp. lia. }
  assert (Hrest : forall y, In y rest -> c <= snd y).
  { intros y Hy. apply Hc. unfold statList. apply in_map.
    eapply Permutation_in; [exact Hp|]. right. right. exact Hy. }
  destruct rest as [|a [|b [|c' [|d [|e rest]]]]]; try discriminate Hlen.
  pose proof (Hrest a (or_introl eq_refl)).
  pose proof (Hrest b (or_intror (or_introl eq_refl))).
  pose proof (Hrest c' (or_intror (or_intror (or_introl eq_refl)))).
  pose proof (Hrest d (or_intror (or_intror (or_intror (or_introl eq_refl))))).
  unfold sumZ. simpl. lia.
Qed.

Lemma Math_round_le (x : Q) (n : Z) : (x <= inject_Z n)%Q -> JS.Math_round x <= n.
Proof.
  intros H. unfold JS.Math_round.
  assert (Hn : Qfloor (inject_Z n + (1 # 2)) = n).
  { unfold Qfloor, inject_Z, Qplus. simpl.
    assert (E : (n * 2 + 1) / 2 = n) by (Z.div_mod_to_equations; lia).
    exact E. }
  transitivity (Qfloor (inject_Z n + (1 # 2))); [|rewrite Hn; lia].
  apply Qfloor_resp_le. lra.
Qed.

Section DefaultThresholds.
Variable s : ArmorScorer.t.
Variable st : ArmorStats.
Hypothesis Hth : ArmorScorer.customThresholds s = ArmorScorer.defaultThresholds.

Let a := ArmorScorer.analyzeStats s st.

Lemma superSpike_some :
  hasSuperSpike a = true -> exists v, In v (statList st) /\ 26 <= v.
Proof.
  unfold a, ArmorScorer.analyzeStats. cbn [hasSuperSpike]. rewrite Hth.
  cbn [superSpikeThreshold ArmorScorer.defaultThresholds].
  rewrite existsb_exists. intros (x & Hx & Hge).
  exists (snd x). split; [apply in_map, Hx | apply Z.geb_le, Hge].
Qed.

Lemma noSuperSpike_all :
  hasSuperSpike a = false -> forall v, In v (statList st) -> v < 26.
Proof.
  unfold a, ArmorScorer.analyzeStats. cbn [hasSuperSpike]. rewrite Hth.
  cbn [superSpikeThreshold ArmorScorer.defaultThresholds].
  intros H v Hv. unfold statList in Hv. apply in_map_iff in Hv as (x & <- & Hx).
  destruct (Z_lt_dec (snd x) 26) as [Hlt|Hge]; [exact Hlt|].
  assert (existsb (fun x => snd x >=? 26) (ArmorScorer.statValues st) = true).
  { apply existsb_exists. exists x. split; [exact Hx | apply Z.geb_le; lia]. }
  congruence.
Qed.

Lemma wellDistributed_all :
  isWellDistributed a = true ->
  forall v, In v (statList st) ->
    6 <= v /\ forall w, In w (statList st) -> w - v <= 15.
Proof.
  unfold a, ArmorScorer.analyzeStats, statList. cbn [isWellDistributed].
  destruct st as [m r rc d i sg t]. simpl.
  rewrite andb_true_iff, Z.geb_le, Z.leb_le. intros [Hmin Hspread] v Hv.
  split.
  - repeat (destruct Hv as [<-|Hv]; [lia|]). destruct Hv.
  - intros w Hw.
    repeat (destruct Hv as [<-|Hv];
            [repeat (destruct Hw as [<-|Hw]; [lia|]); destruct Hw|]).
    destruct Hv.
Qed.

Lemma noWeak_all :
  weakStats a = [] -> forall v, In v (statList st) -> 7 <= v.
Proof.
  unfold a, ArmorScorer.analyzeStats. cbn [weakStats]. rewrite Hth.
  cbn [weakStatThreshold ArmorScorer.defaultThresholds].
  intros H v Hv. unfold statList in Hv. apply in_map_iff in Hv as (x & <- & Hx).
  destruct (Z_le_dec (snd x) 6) as [Hle|Hgt]; [|lia].
  assert (Hin : In x (List.filter (fun x => snd x <=? 6) (ArmorScorer.statValues st))).
  { apply filter_In. split; [exact Hx | apply Z.leb_le, Hle]. }
  rewrite H in Hin. destruct Hin.
Qed.

Lemma weakPenalty_cases :
  (weakStats a = [] /\ ArmorScorer.weakPenalty a = 0%Q) \/
  (5 <= ArmorScorer.weakPenalty a)%Q.
Proof.
  unfold ArmorScorer.weakPenalty.
  destruct (weakStats a) as [|x l]; [left; split; reflexivity|].
  right. change 5%Q with (inject_Z 5). rewrite <- Zle_Qle. simpl length. lia.
Qed.

Lemma weakPenalty_nonneg : (0 <= ArmorScorer.weakPenalty a)%Q.
Proof.
  unfold ArmorScorer.weakPenalty. change 0%Q with (inject_Z 0).
  rewrite <- Zle_Qle. lia.
Qed.

(** X8. With the built-in thresholds the distribution bonus and the
    weak-stat penalty overlap only at the value 6: when the analysis calls
    the stats well distributed, every stat it lists as weak is exactly 6. *)
Theorem wellDistributed_weak_is_six :
  isWellDistributed a = true ->
  forall y, In y (weakStats a) -> snd y = 6.
Proof.
  intros Hd y Hy.
  assert (Hy' := Hy). unfold a, ArmorScorer.analyzeStats in Hy'. cbn [weakStats] in Hy'.
  rewrite Hth in Hy'. cbn [weakStatThreshold ArmorScorer.defaultThresholds] in Hy'.
  apply filter_In in Hy' as [Hin Hle]. apply Z.leb_le in Hle.
  destruct (wellDistributed_all Hd (snd y)) as [Hge _]; [apply in_map, Hin|]. lia.
Qed.

Lemma baseScore_low : total st < 65 -> (ArmorScorer.baseScore s st <= 20)%Q.
Proof.
  intros Hlt. unfold ArmorScorer.baseScore. rewrite Hth.
  cbn [excellentTotalStats goodTotalStats minTotalStats ArmorScorer.defaultThresholds].
  destruct (total st >=? 68) eqn:E1; [apply Z.geb_le in E1; lia|].
  destruct (total st >=? 65) eqn:E2; [apply Z.geb_le in E2; lia|].
  destruct (total st >=? 60) eqn:E3; [lra|].
  rewrite Z.geb_leb in E3. apply Z.leb_gt in E3.
  unfold JS.Qmax. destruct (Qle_bool 0 _); [|lra].
  assert (H : (inject_Z (total st) <= inject_Z 60)%Q) by (rewrite <- Zle_Qle; lia).
  change (inject_Z 60) with 60%Q in *.
  assert (Hq : (inject_Z (total st) / 60 <= 1)%Q) by (apply Qle_shift_div_r; lra).
  set (q := (inject_Z (total st) / 60)%Q) in *. lra.
Qed.

Lemma low_total_bound :
  totalIsSum st -> total st < 65 ->
  ArmorScorer.calculateTotalScore s st a <= 60.
Proof.
  intros Hsum Hlt.
  pose proof (baseScore_low Hlt) as Hbase.
  pose proof weakPenalty_nonneg as Hpen0.
  pose proof weakPenalty_cases as Hpen.
  assert (E1 : hasSuperSpike a = true -> isWellDistributed a = true -> False).
  { intros H1 H2. destruct (superSpike_some H1) as (v & Hv & Hge).
    pose proof (topStatSum_room s st (v - 15) Hsum) as Hroom.
    destruct (topStats_shape s st)
      as (t1 & t2 & rest & _ & Hp & H21 & Hr & Htop).
    assert (Hall : forall w, In w (statList st) -> v - 15 <= w).
    { intros w Hw. destruct (wellDistributed_all H2 w Hw) as [_ H]. specialize (H v Hv). lia. }
    specialize (Hroom Hall). fold a in Htop, Hroom. rewrite Htop in Hroom.
    assert (Hv1 : In (snd t1) (statList st) /\ In (snd t2) (statList st)).
    { split; apply in_map; eapply Permutation_in; try exact Hp; simpl; auto. }
    assert (v <= snd t1).
    { unfold statList in Hv. apply in_map_iff in Hv as (x & <- & Hx).
      apply (Permutation_in _ (Permutation_sym Hp)) in Hx.
      destruct Hx as [<-|[<-|Hx]]; [lia | lia | specialize (Hr x Hx); lia]. }
    pose proof (Hall _ (proj2 Hv1)). lia. }
  assert (E2 : 40 <= ArmorScorer.topStatSum a -> weakStats a = [] -> False).
  { intros H1 H2. pose proof (topStatSum_room s st 7 Hsum (noWeak_all H2)) as H.
    fold a in H. lia. }
  assert (E3 : isWellDistributed a = true -> 45 <= ArmorScorer.topStatSum a -> False).
  { intros H1 H2.
    pose proof (topStatSum_room s st 6 Hsum
                  (fun v Hv => proj1 (wellDistributed_all H1 v Hv))) as H.
    fold a in H. lia. }
  unfold ArmorScorer.calculateTotalScore.
  assert (Hraw : (0 + ArmorScorer.baseScore s st + ArmorScorer.spikeBonus a +
                  ArmorScorer.distributionBonus a - ArmorScorer.weakPenalty a +
                  ArmorScorer.topStatBonus a <= inject_Z 60)%Q).
  { change (inject_Z 60) with 60%Q.
    unfold ArmorScorer.spikeBonus, ArmorScorer.distributionBonus, ArmorScorer.topStatBonus.
    destruct (hasSuperSpike a) eqn:Hss, (hasSpike a) eqn:Hsp,
      (isWellDistributed a) eqn:Hwd;
      try (exfalso; apply E1; reflexivity);
      destruct (ArmorScorer.topStatSum a >=? 45) eqn:T45;
      try (apply Z.geb_le in T45; exfalso; apply E3; [reflexivity | exact T45]);
      try (destruct Hpen as [[Hw _]|Hpen];
           [apply Z.geb_le in T45; exfalso; apply E2; [lia | exact Hw] | lra]);
      destruct (ArmorScorer.topStatSum a >=? 40) eqn:T40;
      try (destruct Hpen as [[Hw _]|Hpen];
           [apply Z.geb_le in T40; exfalso; apply E2; [lia | exact Hw] | lra]);
      destruct (ArmorScorer.topStatSum a >=? 35); lra. }
  pose proof (Math_round_le _ _ Hraw). lia.
Qed.

End DefaultThresholds.

Lemma wellDistributed_weak_is_six_witness :
  let st := mkStats 20 20 6 12 6 10 in
  let a := ArmorScorer.analyzeStats ArmorScorer.new st in
  isWellDistributed a = true /\
  In ("Recovery", 6) (weakStats a) /\
  snd ("Recovery", 6) = 6.
Proof.
  intros st a.
  assert (Hd : isWellDistributed a = true) by reflexivity.
  assert (Hy : In ("Recovery", 6) (weakStats a)) by (left; reflexivity).
  split; [exact Hd | split; [exact Hy|]].
  exact (wellDistributed_weak_is_six ArmorScorer.new st eq_refl Hd ("Recovery", 6) Hy).
Defined.

(** X9. With the built-in thresholds, an armor item whose stat total is the
    sum of its six stats and lies below 65 never scores above 60. *)
Theorem low_total_scores_at_most_60 s it st :
  ArmorScorer.customThresholds s = ArmorScorer.defaultThresholds ->
  itemType it = armor -> stats it = Some st ->
  totalIsSum st -> total st < 65 ->
  exists sc, ArmorScorer.scoreArmor s it = Some sc /\ totalScore sc <= 60.
Proof.
  intros Hth Ht Hs Hsum Hlt.
  destruct (scoreArmor_total s it st Ht Hs) as (sc & Hsc & Htot & _).
  exists sc. split; [exact Hsc|]. rewrite Htot.
  apply low_total_bound; assumption.
Qed.

Lemma low_total_scores_at_most_60_witness :
  let st := mkStats 22 14 7 7 7 7 in
  let it := mkArmor "low" 9 (Some st) in
  ArmorScorer.customThresholds ArmorScorer.new = ArmorScorer.defaultThresholds /\
  itemType it = armor /\ stats it = Some st /\ totalIsSum st /\ total st < 65 /\
  exists sc, ArmorScorer.scoreArmor ArmorScorer.new it = Some sc /\ totalScore sc <= 60.
Proof.
  intros st it.
  assert (H4 : totalIsSum st) by reflexivity.
  assert (H5 : total st < 65) by (vm_compute; reflexivity).
  split; [reflexivity | split; [reflexivity | split; [reflexivity |
    split; [exact H4 | split; [exact H5|]]]]].
  exact (low_total_scores_at_most_60 ArmorScorer.new it st eq_refl eq_refl eq_refl H4 H5).
Defined.

(** The bound is reached. *)
Example low_total_score_60 :
  option_map totalScore
    (ArmorScorer.scoreArmor ArmorScorer.new (mkArmor "low" 9 (Some (mkStats 22 14 7 7 7 7))))
  = Some 60.
Proof. vm_compute. reflexivity. Qed.

(** X10. Under rules that protect high-stat armor with a threshold of at
    most 65 (the default), and with the built-in scorer thresholds, an armor
    recommendation that carries no protection list has a score of at most
    60 whenever the stat total is the sum of the stats: the tier
    "Excellent armor score" (75 and more) is never the reason such an item
    is kept. *)
Theorem unprotected_armor_scores_at_most_60 p now items rec st sc :
  ArmorScorer.customThresholds (armorScorer p) = ArmorScorer.defaultThresholds ->
  protectHighStatArmor (protectionRules p) = true ->
  highStatThreshold (protectionRules p) <= 65 ->
  In rec (recommendations (generatePlan p now items)) ->
  itemType (item rec) = armor ->
  stats (item rec) = Some st ->
  totalIsSum st ->
  protectedBy rec = None ->
  score rec = Some sc ->
  sc <= 60 /\ total st < highStatThreshold (protectionRules p).
Proof.
  intros Hth Hrule Hthr Hin. apply plan_recommendation in Hin as (it & _ & ->).
  rewrite analyzeItem_item. intros Hty Hst Hsum.
  destruct (protectionReasons p it) as [|r rs] eqn:E.
  2:{ rewrite analyzeItem_protected by (rewrite E; discriminate). discriminate. }
  rewrite (analyzeItem_unprotected _ _ _ E), Hty. unfold analyzeArmor.
  destruct (scoreArmor_total (armorScorer p) it st Hty Hst) as (s0 & Hs0 & Htot & _).
  rewrite Hs0. unfold highStatProtected. rewrite Hst, Hrule. simpl.
  destruct (total st >=? highStatThreshold (protectionRules p)) eqn:Eh;
    [discriminate|].
  rewrite Z.geb_leb in Eh. apply Z.leb_gt in Eh.
  assert (Hb : totalScore s0 <= 60).
  { rewrite Htot. apply low_total_bound; [exact Hth | exact Hsum | lia]. }
  repeat (match goal with |- context [if ?c then _ else _] => destruct c end);
    simpl; intros _ Hsc; injection Hsc as <-; split; assumption.
Qed.

Lemma unprotected_armor_scores_at_most_60_witness :
  let rec := analyzeItem plainPlanner scenarioE_item [scenarioE_item] in
  ArmorScorer.customThresholds (armorScorer plainPlanner) = ArmorScorer.defaultThresholds /\
  protectHighStatArmor (protectionRules plainPlanner) = true /\
  highStatThreshold (protectionRules plainPlanner) <= 65 /\
  In rec (recommendations (generatePlan plainPlanner 0 [scenarioE_item])) /\
  itemType (item rec) = armor /\
  stats (item rec) = Some (mkStats 2 10 2 6 2 30) /\
  totalIsSum (mkStats 2 10 2 6 2 30) /\
  protectedBy rec = None /\
  score rec = Some 42 /\
  42 <= 60.
Proof.
  intros rec.
  assert (H3 : highStatThreshold (protectionRules plainPlanner) <= 65)
    by (vm_compute; discriminate).
  assert (H4 : In rec (recommendations (generatePlan plainPlanner 0 [scenarioE_item])))
    by (left; reflexivity).
  assert (H7 : totalIsSum (mkStats 2 10 2 6 2 30)) by reflexivity.
  assert (H9 : score rec = Some 42) by reflexivity.
  repeat (split; [first [reflexivity | assumption]|]).
  exact (proj1 (unprotected_armor_scores_at_most_60 plainPlanner 0 [scenarioE_item] rec
                  _ 42 eq_refl eq_refl H3 H4 eq_refl eq_refl H7 eq_refl H9)).
Defined.

(** ** Profile scores *)





Example bestProfile_examples :
  option_map bestProfile
    (ArmorScorer.scoreArmor ArmorScorer.new (mkArmor "zero" 5 (Some (mkStats 0 0 0 0 0 0))))
  = Some "" /\
  option_map bestProfile
    (ArmorScorer.scoreArmor ArmorScorer.new (mkArmor "flat" 5 (Some (mkStats 10 10 10 10 10 10))))
  = Some "pvp_hunter".
Proof. split; vm_compute; reflexivity. Qed.

Lemma Map_get_set_eq {V} (k : string) (v : V) (m : list (string * V)) :
  JS.Map_get k (JS.Map_set k v m) = Some v.
Proof.
  induction m as [|[k' v'] m IH]; simpl.
  - rewrite String.eqb_refl. reflexivity.
  - destruct (String.eqb k' k) eqn:E; simpl; rewrite E; [reflexivity | exact IH].
Qed.

Lemma Map_get_set_ne {V} (k k0 : string) (v : V) (m : list (string * V)) :
  k0 <> k -> JS.Map_get k0 (JS.Map_set k v m) = JS.Map_get k0 m.
Proof.
  intros Hne. induction m as [|[k' v'] m IH]; simpl.
  - destruct (String.eqb k k0) eqn:E; [apply String.eqb_eq in E; congruence | reflexivity].
  - destruct (String.eqb k' k) eqn:E; simpl.
    + apply String.eqb_eq in E. subst k'.
      destruct (String.eqb k k0) eqn:E0; [apply String.eqb_eq in E0; congruence|].
      reflexivity.
    + destruct (String.eqb k' k0); [reflexivity | exact IH].
Qed.

Lemma Map_set_keys {V} (k : string) (v : V) (m : list (string * V)) :
  List.map fst (JS.Map_set k v m) =
  if existsb (fun k' => String.eqb k' k) (List.map fst m)
  then List.map fst m else List.map fst m ++ [k].
Proof.
  induction m as [|[k' v'] m IH]; simpl; [reflexivity|].
  destruct (String.eqb k' k) eqn:E; simpl; [reflexivity|].
  rewrite IH. destruct (existsb _ _); reflexivity.
Qed.

Lemma NoDup_app_iff_helper (l : list string) (k : string) :
  List.NoDup l -> ~ In k l -> List.NoDup (l ++ [k]).
Proof.
  induction l as [|x l IH]; simpl; intros Hnd Hk.
  - constructor; [intros [] | constructor].
  - inversion Hnd as [|? ? Hx Hl]; subst. constructor.
    + rewrite in_app_iff. simpl. intros [H|[H|[]]]; [contradiction|].
      apply Hk. left. symmetry. exact H.
    + apply IH; [exact Hl | intros H; apply Hk; right; exact H].
Qed.

(** X12. [addProfile] registers the profile under its identifier without
    ever duplicating an identifier: an identifier already present keeps its
    place in the order with the new profile, a new one goes to the end; the
    other profiles are untouched, and the total score of an item does not
    depend on the profiles registered. *)
Theorem addProfile_registers s id prof :
  let s' := ArmorScorer.addProfile s id prof in
  JS.Map_get id (ArmorScorer.profiles s') = Some prof /\
  (forall k, k <> id ->
     JS.Map_get k (ArmorScorer.profiles s') = JS.Map_get k (ArmorScorer.profiles s)) /\
  List.map fst (ArmorScorer.profiles s') =
    (if existsb (fun k' => String.eqb k' id) (List.map fst (ArmorScorer.profiles s))
     then List.map fst (ArmorScorer.profiles s)
     else List.map fst (ArmorScorer.profiles s) ++ [id]) /\
  (List.NoDup (List.map fst (ArmorScorer.profiles s)) ->
   List.NoDup (List.map fst (ArmorScorer.profiles s'))) /\
  (forall it, option_map totalScore (ArmorScorer.scoreArmor s' it) =
              option_map totalScore (ArmorScorer.scoreArmor s it)).
Proof.
  cbv zeta. unfold ArmorScorer.addProfile. simpl.
  repeat apply conj.
  - apply Map_get_set_eq.
  - intros k Hk. apply Map_get_set_ne, Hk.
  - apply Map_set_keys.
  - intros Hnd. rewrite Map_set_keys.
    destruct (existsb _ _) eqn:E; [exact Hnd|].
    apply NoDup_app_iff_helper; [exact Hnd|].
    intros Hin.
    assert (existsb (fun k' => String.eqb k' id) (List.map fst (ArmorScorer.profiles s)) = true).
    { apply existsb_exists. exists id. split; [exact Hin | apply String.eqb_refl]. }
    congruence.
  - intros it. unfold ArmorScorer.scoreArmor.
    destruct (itemType it); try reflexivity.
    destruct (stats it) as [st|]; [|reflexivity].
    destruct (fold_left _ _ _) as [[ps bp] bs].
    destruct (fold_left _ _ _) as [[ps0 bp0] bs0].
    reflexivity.
Qed.

Lemma Math_round_ge (x : Q) (n : Z) : (inject_Z n <= x)%Q -> n <= JS.Math_round x.
Proof.
  intros H. unfold JS.Math_round.
  rewrite <- (Qfloor_Z n) at 1. apply Qfloor_resp_le. lra.
Qed.



(** ** Recommendations inside a duplicate group *)

Lemma filter_partition_perm {A} (P : A -> bool) (l : list A) :
  Permutation (List.filter P l ++ List.filter (fun x => negb (P x)) l) l.
Proof.
  induction l as [|x l IH]; simpl; [constructor|].
  destruct (P x); simpl.
  - constructor. exact IH.
  - eapply perm_trans; [apply Permutation_sym, Permutation_middle|].
    constructor. exact IH.
Qed.

Lemma sorted_firstn_skipn {A} (R : A -> A -> Prop) (l : list A) (n : nat) :
  StronglySorted R l ->
  forall x y, In x (firstn n l) -> In y (skipn n l) -> R x y.
Proof.
  intros Hs. revert n. induction Hs as [|a l Hl IH Ha]; intros n x y Hx Hy.
  - destruct n; destruct Hx.
  - destruct n as [|n]; [destruct Hx|]. simpl in Hx, Hy.
    destruct Hx as [<-|Hx].
    + rewrite List.Forall_forall in Ha. apply Ha.
      rewrite <- (firstn_skipn n l). apply in_or_app. right. exact Hy.
    + eapply IH; eassumption.
Qed.

(** X14. [recommendWeapons] splits a group three ways without losing or
    repeating an item: the first [keepCount] copies of the ranking are kept
    and no other copy ranks strictly above a kept one; of the rest, the
    locked or masterworked copies go to review and only copies that are
    neither locked nor masterworked are discarded. *)
Theorem recommendWeapons_partition f items :
  let r := DuplicateFinder.recommendWeapons f items in
  Permutation (rec_keep r ++ rec_discard r ++ rec_review r) items /\
  length (rec_keep r) = Nat.min (keepCount (DuplicateFinder.options f)) (length items) /\
  (forall x, In x (rec_discard r) -> isLocked x = false /\ isMasterworked x = false) /\
  (forall x, In x (rec_review r) -> isLocked x = true \/ isMasterworked x = true) /\
  (forall k x, In k (rec_keep r) -> In x (rec_discard r ++ rec_review r) ->
               ~ ranksAbove x k).
Proof.
  cbv zeta. unfold DuplicateFinder.recommendWeapons, JS.slice_to, JS.slice_from.
  cbn [rec_keep rec_discard rec_review].
  set (kc := keepCount (DuplicateFinder.options f)).
  set (sorted := JS.sort weaponOrder items).
  set (P := fun it : InventoryItem => isLocked it || isMasterworked it).
  repeat apply conj.
  - apply (perm_trans (l' := firstn kc sorted ++ skipn kc sorted));
      [|rewrite firstn_skipn; apply sort_perm].
    apply Permutation_app_head.
    eapply perm_trans; [apply Permutation_app_comm|].
    apply (filter_partition_perm P).
  - rewrite length_firstn. unfold sorted. rewrite length_sort. reflexivity.
  - intros x Hx. apply filter_In in Hx as [_ Hx]. unfold P in Hx.
    apply negb_true_iff, orb_false_iff in Hx. exact Hx.
  - intros x Hx. apply filter_In in Hx as [_ Hx]. unfold P in Hx.
    apply orb_true_iff in Hx. exact Hx.
  - intros k x Hk Hx Hab.
    assert (Hx' : In x (skipn kc sorted)).
    { apply in_app_or in Hx as [Hx|Hx]; apply filter_In in Hx; tauto. }
    pose proof (sorted_firstn_skipn _ sorted kc
                  (sort_sorted weaponOrder weaponOrder_total weaponOrder_trans items)
                  k x Hk Hx') as Hle.
    apply weaponOrder_ranksAbove in Hab. simpl in Hle. lia.
Qed.

Example recommendWeapons_example :
  let r := DuplicateFinder.recommendWeapons (DuplicateFinder.new DEFAULT_OPTIONS)
             [mkWeapon "a" 7 1800; lockItem (mkWeapon "b" 7 1790); mkWeapon "c" 7 1810;
              lockItem (mkWeapon "d" 7 1805)] in
  (List.map itemInstanceId (rec_keep r), List.map itemInstanceId (rec_discard r),
   List.map itemInstanceId (rec_review r)) = (["d"], ["c"; "a"], ["b"]).
Proof. vm_compute. reflexivity. Qed.

Lemma processRemaining_spec best rest d r rs :
  let '(d', r', rs') := DuplicateFinder.processRemaining best rest (d, r, rs) in
  exists dn rn,
    d' = d ++ dn /\ r' = r ++ rn /\
    Permutation (dn ++ rn) (List.map fst rest) /\
    (forall x, In x dn -> exists sc, In (x, sc) rest /\ discardRule best sc) /\
    (forall x, In x rn -> exists sc, In (x, sc) rest /\ reviewRule best sc).
Proof.
  revert d r rs. induction rest as [|[it sc] rest IH]; intros d r rs.
  - simpl. exists [], []. rewrite !app_nil_r. repeat split; auto; intros x [].
  - cbn [DuplicateFinder.processRemaining].
    assert (Hcase :
      forall acc',
        (acc' = (d ++ [it], r, snd acc') /\ discardRule best sc) \/
        (acc' = (d, r ++ [it], snd acc') /\ reviewRule best sc) ->
        let '(d', r', rs') := DuplicateFinder.processRemaining best rest acc' in
        exists dn rn,
          d' = d ++ dn /\ r' = r ++ rn /\
          Permutation (dn ++ rn) (it :: List.map fst rest) /\
          (forall x, In x dn -> exists sc0, In (x, sc0) ((it, sc) :: rest) /\
                                            discardRule best sc0) /\
          (forall x, In x rn -> exists sc0, In (x, sc0) ((it, sc) :: rest) /\
                                            reviewRule best sc0)).
    { intros acc' [[-> Hd]|[-> Hr]].
      - specialize (IH (d ++ [it]) r (snd acc')).
        destruct (DuplicateFinder.processRemaining best rest _) as [[d' r'] rs'].
        destruct IH as (dn & rn & -> & -> & Hp & Hdn & Hrn).
        exists (it :: dn), rn. rewrite <- app_assoc. repeat split; auto.
        + simpl. constructor. exact Hp.
        + intros x [<-|Hx]; [exists sc; split; [left; reflexivity | exact Hd]|].
          destruct (Hdn x Hx) as (s0 & H1 & H2). exists s0. split; [right|]; assumption.
        + intros x Hx. destruct (Hrn x Hx) as (s0 & H1 & H2).
          exists s0. split; [right|]; assumption.
      - specialize (IH d (r ++ [it]) (snd acc')).
        destruct (DuplicateFinder.processRemaining best rest _) as [[d' r'] rs'].
        destruct IH as (dn & rn & -> & -> & Hp & Hdn & Hrn).
        exists dn, (it :: rn). rewrite <- app_assoc. repeat split; auto.
        + eapply perm_trans; [apply Permutation_sym, Permutation_middle|].
          constructor. exact Hp.
        + intros x Hx. destruct (Hdn x Hx) as (s0 & H1 & H2).
          exists s0. split; [right|]; assumption.
        + intros x [<-|Hx]; [exists sc; split; [left; reflexivity | exact Hr]|].
          destruct (Hrn x Hx) as (s0 & H1 & H2). exists s0. split; [right|]; assumption. }
    apply Hcase. unfold discardRule, reviewRule.
    destruct best as [b|], sc as [s|]; simpl;
      repeat match goal with
             | |- context [if ?c then _ else _] => destruct c eqn:?
             end;
      repeat match goal with
             | H : (_ >? _) = true |- _ => apply Z.gtb_lt in H
             | H : (_ >? _) = false |- _ => rewrite Z.gtb_ltb in H; apply Z.ltb_ge in H
             | H : (_ >=? _) = true |- _ => apply Z.geb_le in H
             | H : (_ >=? _) = false |- _ => rewrite Z.geb_leb in H; apply Z.leb_gt in H
             end;
      first [left; split; [reflexivity | auto; lia] | right; split; [reflexivity | lia]].
Qed.

Lemma factorProtection_spec discard review ud rs :
  let '(r', ud', rs') := DuplicateFinder.factorProtection discard (review, ud, rs) in
  r' = review ++ List.filter (fun it => isLocked it || isMasterworked it) discard /\
  ud' = ud ++ List.filter (fun it => negb (isLocked it || isMasterworked it)) discard.
Proof.
  revert review ud rs. induction discard as [|it l IH]; intros review ud rs.
  - simpl. rewrite !app_nil_r. split; reflexivity.
  - cbn [DuplicateFinder.factorProtection]. simpl List.filter.
    destruct (isLocked it || isMasterworked it); simpl.
    + specialize (IH (review ++ [it]) ud
                    (rs ++ ["Moved " +:+ name it +:+ " to review (" +:+
                            (if isLocked it then "locked" else "masterworked") +:+ ")"])).
      destruct (DuplicateFinder.factorProtection l _) as [[r' ud'] rs'].
      destruct IH as [-> ->]. rewrite <- app_assoc. split; reflexivity.
    + specialize (IH review (ud ++ [it]) rs).
      destruct (DuplicateFinder.factorProtection l _) as [[r' ud'] rs'].
      destruct IH as [-> ->]. rewrite <- app_assoc. split; reflexivity.
Qed.

Lemma firstn_min_length {A} (n : nat) (l : list A) :
  firstn (Nat.min n (length l)) l = firstn n l.
Proof.
  destruct (Nat.le_ge_cases n (length l)) as [H|H].
  - rewrite Nat.min_l by exact H. reflexivity.
  - rewrite Nat.min_r by exact H. rewrite firstn_all, firstn_all2 by exact H. reflexivity.
Qed.

Lemma filter_map_length {A B} (g : A -> B) (Q : B -> bool) (l : list A) :
  length (List.filter Q (List.map g l)) = length (List.filter (fun x => Q (g x)) l).
Proof.
  induction l as [|x l IH]; [reflexivity|].
  simpl. destruct (Q (g x)); simpl; rewrite IH; reflexivity.
Qed.

Lemma byScore_total a b : 0 < byScore a b -> byScore b a <= 0.
Proof. unfold byScore. lia. Qed.

Lemma byScore_trans a b c : byScore a b <= 0 -> byScore b c <= 0 -> byScore a c <= 0.
Proof. unfold byScore. lia. Qed.

(** X15. [recommendArmor] splits a group three ways without losing or
    repeating an item.  It keeps the [keepCount] best-scoring scorable
    members (fewer when fewer can be scored), and no member outside keep
    scores above a kept one.  Every member that cannot be scored is in
    review.  A discarded member is never locked or masterworked, and it
    either scores below 60 or trails some member of the group by more than
    15 points. *)
Theorem recommendArmor_partition f items :
  let r := DuplicateFinder.recommendArmor f items in
  let score := ArmorScorer.scoreArmor (DuplicateFinder.scorer f) in
  Permutation (rec_keep r ++ rec_discard r ++ rec_review r) items /\
  length (rec_keep r) =
    Nat.min (keepCount (DuplicateFinder.options f))
            (length (List.filter (scorable f) items)) /\
  (forall x, In x (rec_discard r) ->
     isLocked x = false /\ isMasterworked x = false /\
     exists sx, score x = Some sx /\
       (totalScore sx < 60 \/
        exists b sb, In b items /\ score b = Some sb /\
                     15 < totalScore sb - totalScore sx)) /\
  (forall x, In x items -> score x = None -> In x (rec_review r)) /\
  (forall k, In k (rec_keep r) ->
     exists sk, score k = Some sk /\
       forall x sx, In x (rec_discard r ++ rec_review r) -> score x = Some sx ->
                    totalScore sx <= totalScore sk).
Proof.
  cbv zeta. unfold DuplicateFinder.recommendArmor.
  set (score := ArmorScorer.scoreArmor (DuplicateFinder.scorer f)).
  set (scored := List.map (fun it => (it, score it)) items).
  set (isS := fun s : InventoryItem * option ArmorScore =>
                match snd s with Some _ => true | None => false end).
  set (isN := fun s : InventoryItem * option ArmorScore =>
                match snd s with Some _ => false | None => true end).
  fold byScore.
  set (sorted := JS.sort byScore (List.filter isS scored)).
  set (kc := keepCount (DuplicateFinder.options f)).
  rewrite (firstn_min_length kc sorted).
  set (best := match sorted with s :: _ => snd s | [] => None end).
  pose proof (processRemaining_spec best (skipn kc sorted) [] []
                (List.map (fun s => "Keep " +:+ name (fst s) +:+ " (score: " +:+
                                    DuplicateFinder.showScore (snd s) +:+ ", stats: " +:+
                                    DuplicateFinder.showTotal (fst s) +:+ ")")
                          (firstn kc sorted))) as Hpr.
  destruct (DuplicateFinder.processRemaining best (skipn kc sorted) _)
    as [[discard review] reasons].
  destruct Hpr as (dn & rn & -> & -> & Hperm & Hdn & Hrn). simpl app.
  match goal with
  | |- context [DuplicateFinder.factorProtection dn (?rv, [], ?rs)] =>
      pose proof (factorProtection_spec dn rv [] rs) as Hfp;
      destruct (DuplicateFinder.factorProtection dn (rv, [], rs)) as [[review' ud] reasons']
  end.
  destruct Hfp as [-> ->]. cbn [rec_keep rec_discard rec_review]. simpl app.
  rewrite app_nil_r.
  set (P := fun it : InventoryItem => isLocked it || isMasterworked it).
  (* facts on the scored pairs *)
  assert (Hpair : forall x sc, In (x, sc) scored -> sc = score x /\ In x items).
  { intros x sc H. unfold scored in H. apply in_map_iff in H as (y & E & Hy).
    injection E as <- <-. split; [reflexivity | exact Hy]. }
  assert (Hsorted : forall x sc, In (x, sc) sorted ->
                      sc = score x /\ In x items /\ exists s, sc = Some s).
  { intros x sc H. unfold sorted in H. apply In_sort, filter_In in H as [H1 H2].
    destruct (Hpair x sc H1) as [E Hin]. repeat split; auto.
    unfold isS in H2. simpl in H2. destruct sc as [s|]; [eauto | discriminate]. }
  assert (HisN : forall s, isN s = negb (isS s)).
  { intros [x [s|]]; reflexivity. }
  assert (Hitems : Permutation (List.map fst sorted ++ List.map fst (List.filter isN scored))
                               items).
  { rewrite <- map_app.
    replace items with (List.map fst scored)
      by (unfold scored; rewrite map_map; apply map_id).
    apply Permutation_map.
    eapply perm_trans; [apply Permutation_app_tail, sort_perm|].
    erewrite (filter_ext isN); [apply filter_partition_perm | exact HisN]. }
  assert (Hsplit : Permutation (List.map fst (firstn kc sorted) ++ dn ++ rn)
                               (List.map fst sorted)).
  { rewrite <- (firstn_skipn kc sorted) at 2. rewrite map_app.
    apply Permutation_app_head. exact Hperm. }
  assert (Hbest : forall x s, In (x, Some s) sorted ->
                    exists b sb, best = Some sb /\ In b items /\ score b = Some sb /\
                                 totalScore s <= totalScore sb).
  { intros x s Hx. unfold best.
    pose proof (sort_sorted byScore byScore_total byScore_trans (List.filter isS scored)) as Hs.
    fold sorted in Hs. destruct sorted as [|[b sb0] rest]; [destruct Hx|].
    destruct (Hsorted b sb0 (or_introl eq_refl)) as (E & Hb & sb & ->).
    exists b, sb. simpl. repeat split; auto.
    destruct Hx as [Hx|Hx]; [injection Hx as _ <-; lia|].
    inversion Hs as [|? ? _ Hall]; subst. rewrite List.Forall_forall in Hall.
    specialize (Hall _ Hx). unfold byScore in Hall. simpl in Hall. lia. }
  repeat apply conj.
  - eapply perm_trans; [|exact Hitems].
    eapply perm_trans; [|apply Permutation_app_tail, Hsplit].
    rewrite <- !app_assoc. apply Permutation_app_head.
    pose (W := List.map fst (List.filter isN scored)).
    pose (B := List.filter P dn).
    pose (A := List.filter (fun it => negb (P it)) dn).
    change (Permutation (A ++ rn ++ W ++ B) (dn ++ rn ++ W)).
    apply (perm_trans (l' := B ++ A ++ rn ++ W)).
    + replace (A ++ rn ++ W ++ B) with ((A ++ rn ++ W) ++ B)
        by (rewrite <- !app_assoc; reflexivity).
      apply Permutation_app_comm.
    + rewrite (app_assoc B A). apply Permutation_app_tail.
      apply (filter_partition_perm P).
  - rewrite length_map, length_firstn. unfold sorted. rewrite length_sort.
    f_equal. unfold scored. rewrite filter_map_length. reflexivity.
  - intros x Hx. apply filter_In in Hx as [Hx HP]. unfold P in HP.
    apply negb_true_iff, orb_false_iff in HP as [HL HM].
    split; [exact HL | split; [exact HM|]].
    destruct (Hdn x Hx) as (sc & Hin & Hrule).
    assert (Hin' : In (x, sc) sorted).
    { rewrite <- (firstn_skipn kc sorted). apply in_or_app. right. exact Hin. }
    destruct (Hsorted x sc Hin') as (E & _ & s & ->).
    exists s. split; [symmetry; exact E|].
    destruct (Hbest x s Hin') as (b & sb & Eb & Hb & Esb & _).
    rewrite Eb in Hrule. simpl in Hrule.
    destruct Hrule as [H|H]; [right; exists b, sb; auto | left; exact H].
  - intros x Hx Hnone. apply in_or_app. left. apply in_or_app. right.
    change x with (fst (x, score x)). apply in_map. apply filter_In. split.
    + unfold scored. apply in_map_iff. exists x. split; [reflexivity | exact Hx].
    + unfold isN. simpl. rewrite Hnone. reflexivity.
  - intros k Hk. apply in_map_iff in Hk as ([k' sk0] & <- & Hk). simpl.
    assert (Hk' : In (k', sk0) sorted).
    { rewrite <- (firstn_skipn kc sorted). apply in_or_app. left. exact Hk. }
    destruct (Hsorted k' sk0 Hk') as (E & _ & sk & ->).
    exists sk. split; [symmetry; exact E|].
    intros x sx Hx Hsx.
    assert (Hx' : In x dn \/ In x rn \/
                  In x (List.map fst (List.filter isN scored))).
    { rewrite !in_app_iff in Hx.
      destruct Hx as [Hx|[[Hx|Hx]|Hx]]; auto;
        apply filter_In in Hx as [Hx _]; auto. }
    assert (Hskip : forall sc, In (x, sc) (skipn kc sorted) ->
                               totalScore sx <= totalScore sk).
    { intros sc Hin.
      pose proof (sorted_firstn_skipn _ sorted kc
                    (sort_sorted byScore byScore_total byScore_trans _)
                    _ _ Hk Hin) as Hle.
      assert (Hin' : In (x, sc) sorted).
      { rewrite <- (firstn_skipn kc sorted). apply in_or_app. right. exact Hin. }
      destruct (Hsorted x sc Hin') as (Esc & _). rewrite Hsx in Esc. subst sc.
      unfold byScore in Hle. simpl in Hle. lia. }
    destruct Hx' as [Hx'|[Hx'|Hx']].
    + destruct (Hdn x Hx') as (sc & Hin & _). eapply Hskip, Hin.
    + destruct (Hrn x Hx') as (sc & Hin & _). eapply Hskip, Hin.
    + apply in_map_iff in Hx' as ([x' sc] & <- & Hin). simpl in Hsx.
      apply filter_In in Hin as [Hin HN]. destruct (Hpair x' sc Hin) as [Esc _].
      unfold isN in HN. simpl in HN. rewrite Esc, Hsx in HN. discriminate.
Qed.

Example recommendArmor_example :
  let r := DuplicateFinder.recommendArmor (DuplicateFinder.new DEFAULT_OPTIONS)
             [ mkArmor "a" 10 (Some (mkStats 2 16 16 10 10 10));
               mkArmor "b" 10 (Some (mkStats 2 20 26 15 6 8));
               mkArmor "c" 10 None;
               lockItem (mkArmor "d" 10 (Some (mkStats 2 2 2 2 2 2))) ] in
  (List.map itemInstanceId (rec_keep r), List.map itemInstanceId (rec_discard r),
   List.map itemInstanceId (rec_review r)) = (["b"], ["a"], ["c"; "d"]).
Proof. vm_compute. reflexivity. Qed.

(** ** Which items form a duplicate group *)







Lemma toGroup_Some f k grp g :
  DuplicateFinder.toGroup f (k, grp) = Some g <->
  minDuplicates (DuplicateFinder.options f) <= Z.of_nat (length grp) /\
  exists first rest,
    grp = first :: rest /\
    g = {| g_itemHash := JS.parseInt k; g_name := name first;
           g_slot := armorSlot first; g_classType := classType first;
           g_items := grp;
           g_recommendation := DuplicateFinder.generateRecommendation f grp |}.
Proof.
  unfold DuplicateFinder.toGroup.
  destruct (Z.of_nat (length grp) <? minDuplicates (DuplicateFinder.options f)) eqn:E.
  - apply Z.ltb_lt in E. split; [discriminate | intros [H _]; lia].
  - apply Z.ltb_ge in E. destruct grp as [|first rest].
    + split; [discriminate | intros (_ & a & b & H & _); discriminate].
    + split.
      * intros H. injection H as <-. split; [exact E|]. exists first, rest. auto.
      * intros (_ & a & b & H & ->). injection H as <- <-. reflexivity.
Qed.

Lemma collectGroups_In_iff f groups g :
  In g (DuplicateFinder.collectGroups f groups) <->
  exists k grp, In (k, grp) groups /\ DuplicateFinder.toGroup f (k, grp) = Some g.
Proof.
  unfold DuplicateFinder.collectGroups. rewrite in_flat_map. split.
  - intros ([k grp] & Hin & Hg).
    destruct (DuplicateFinder.toGroup f (k, grp)) as [g'|] eqn:E; [|destruct Hg].
    destruct Hg as [<-|[]]. exists k, grp. auto.
  - intros (k & grp & Hin & E). exists (k, grp). split; [exact Hin|].
    rewrite E. left. reflexivity.
Qed.



(** ** Parsing a backup *)

Lemma parseLoadout_ids (l : list DIMLoadoutExport) :
  List.map loadoutId (flat_map parseLoadout l) =
  List.map le_id (List.filter (fun le => (0 <? length (instanceIds le))%nat) l).
Proof.
  induction l as [|le l IH]; [reflexivity|].
  simpl. unfold parseLoadout at 1.
  destruct (0 <? length (instanceIds le))%nat; simpl; rewrite IH; reflexivity.
Qed.

(** X17. [parseExport] keeps a loadout exactly when it has at least one
    item with an instance id, and in the order of the export: every parsed
    loadout has a non-empty id list without empty ids, taken from the
    equipped then the unequipped items of one export loadout whose id and
    name it carries; an export loadout made only of generic items is
    dropped; a missing loadout field gives no loadouts. *)
Theorem parseExport_loadouts data :
  let b := parseExport data in
  (forall l, In l (loadouts b) <->
     exists le, In le (orEmpty (ex_loadouts data)) /\ instanceIds le <> [] /\
                l = {| loadoutId := le_id le; loadoutName := le_name le;
                       loadoutClass := asDestinyClass (le_classType le);
                       itemIds := instanceIds le |}) /\
  (forall l, In l (loadouts b) ->
     itemIds l <> [] /\ forall id, In id (itemIds l) -> id <> "") /\
  List.map loadoutId (loadouts b) =
    List.map le_id (List.filter (fun le => (0 <? length (instanceIds le))%nat)
                                (orEmpty (ex_loadouts data))) /\
  (ex_loadouts data = None -> loadouts b = []).
Proof.
  cbv zeta. unfold parseExport. cbn [loadouts].
  assert (Hiff : forall l,
            In l (flat_map parseLoadout (orEmpty (ex_loadouts data))) <->
            exists le, In le (orEmpty (ex_loadouts data)) /\ instanceIds le <> [] /\
                       l = {| loadoutId := le_id le; loadoutName := le_name le;
                              loadoutClass := asDestinyClass (le_classType le);
                              itemIds := instanceIds le |}).
  { intros l. rewrite in_flat_map. unfold parseLoadout. split.
    - intros (le & Hle & Hl).
      destruct (0 <? length (instanceIds le))%nat eqn:E; [|destruct Hl].
      destruct Hl as [<-|[]]. exists le. repeat split; auto.
      intros H. rewrite H in E. discriminate.
    - intros (le & Hle & Hne & ->). exists le. split; [exact Hle|].
      destruct (0 <? length (instanceIds le))%nat eqn:E; [left; reflexivity|].
      apply length_zero_ltb in E. contradiction. }
  repeat apply conj.
  - exact Hiff.
  - intros l Hl. apply Hiff in Hl as (le & _ & Hne & ->). simpl.
    split; [exact Hne|]. intros id Hid. unfold instanceIds in Hid.
    apply in_flat_map in Hid as (it & _ & Hid).
    destruct (li_id it) as [[|c s]|]; simpl in Hid; [destruct Hid | | destruct Hid].
    destruct Hid as [<-|[]]. discriminate.
  - apply parseLoadout_ids.
  - intros ->. reflexivity.
Qed.

Lemma fold_insert_lookup (l : list (string * string)) (m : gmap string string) id :
  fold_left (fun m kv => <[fst kv := snd kv]> m) l m !! id =
  match lastBinding id l with
  | Some v => Some v
  | None => m !! id
  end.
Proof.
  revert m. induction l as [|[k v] l IH]; intros m; [reflexivity|].
  cbn [fold_left lastBinding]. rewrite IH. simpl.
  destruct (lastBinding id l); [reflexivity|].
  destruct (String.eqb k id) eqn:E.
  - apply String.eqb_eq in E. subst k. apply lookup_insert_eq.
  - apply String.eqb_neq in E. apply lookup_insert_ne, E.
Qed.

Lemma fold_legacy (l : list DIMTagExport) (m : gmap string string) :
  fold_left (fun m t => <[tx_id t := tx_tag t]> m) l m =
  fold_left (fun m kv => <[fst kv := snd kv]> m)
            (List.map (fun t => (tx_id t, tx_tag t)) l) m.
Proof. revert m. induction l as [|t l IH]; intros m; [reflexivity | apply IH]. Qed.

Lemma fold_optional (g : DIMAnnotationExport -> option string)
    (l : list DIMAnnotationExport) (m : gmap string string) :
  fold_left (fun m a => match truthyString (g a) with
                        | Some t => <[an_id a := t]> m
                        | None => m
                        end) l m =
  fold_left (fun m kv => <[fst kv := snd kv]> m)
            (flat_map (fun a => match truthyString (g a) with
                                | Some t => [(an_id a, t)]
                                | None => []
                                end) l) m.
Proof.
  revert m. induction l as [|a l IH]; intros m; [reflexivity|].
  cbn [fold_left flat_map]. rewrite IH.
  destruct (truthyString (g a)); reflexivity.
Qed.

(** X18. After [parseExport] the tag of an item is the tag of the last
    annotation record for it that carries a non-empty tag; without such
    an annotation it is the tag of the last legacy tag record for it; and
    without either the item has no tag.  Its note is the note of the last
    annotation record for it with a non-empty note. *)
Theorem parseExport_tags data id :
  let b := parseExport data in
  tags b !! id =
    match lastBinding id (annotationTags data) with
    | Some t => Some t
    | None => lastBinding id (legacyTags data)
    end /\
  notes b !! id = lastBinding id (annotationNotes data).
Proof.
  cbv zeta. unfold parseExport. cbn [tags notes]. split.
  - rewrite (fold_optional an_tag), fold_insert_lookup.
    fold (annotationTags data).
    destruct (lastBinding id (annotationTags data)); [reflexivity|].
    rewrite fold_legacy, fold_insert_lookup. fold (legacyTags data).
    destruct (lastBinding id (legacyTags data)); [reflexivity | apply lookup_empty].
  - rewrite (fold_optional an_notes), fold_insert_lookup.
    fold (annotationNotes data).
    destruct (lastBinding id (annotationNotes data)); [reflexivity | apply lookup_empty].
Qed.

Example parseExport_example :
  let data :=
    {| ex_loadouts :=
         Some [ {| le_id := "l1"; le_name := "PvP"; le_classType := 1;
                   le_equipped := [ {| li_id := Some "i1"; li_hash := 1; li_amount := None |};
                                    {| li_id := None; li_hash := 2; li_amount := Some 3 |} ];
                   le_unequipped := [ {| li_id := Some ""; li_hash := 3; li_amount := None |} ] |};
                {| le_id := "l2"; le_name := "Mats"; le_classType := 3;
                   le_equipped := [ {| li_id := None; li_hash := 4; li_amount := None |} ];
                   le_unequipped := [] |} ];
       ex_tags := Some [ {| tx_id := "i1"; tx_tag := "junk" |};
                         {| tx_id := "i2"; tx_tag := "keep" |} ];
       ex_annotations := Some [ {| an_id := "i1"; an_tag := Some "favorite"; an_notes := None |};
                                {| an_id := "i2"; an_tag := Some ""; an_notes := Some "n" |} ] |} in
  let p := loadExport {| DIMParser.backup := None |} data in
  List.map (fun l => (loadoutId l, itemIds l)) (loadouts (parseExport data)) = [("l1", ["i1"])] /\
  DIMParser.getTag p "i1" = Some "favorite" /\
  DIMParser.getTag p "i2" = Some "keep" /\
  DIMParser.getNote p "i2" = Some "n" /\
  DIMParser.getTag p "i3" = None.
Proof. repeat split; vm_compute; reflexivity. Qed.

(** ** Queries on the loaded backup *)

Lemma fold_union_elem (ids : gset string) (l : list string) id :
  id ∈ fold_left (fun ids id => {[id]} ∪ ids) l ids <-> id ∈ ids \/ In id l.
Proof.
  revert ids. induction l as [|x l IH]; intros ids; simpl; [tauto|].
  rewrite IH, elem_of_union, elem_of_singleton. intuition congruence.
Qed.

Lemma fold_loadouts_elem (ids : gset string) (ls : list DIMLoadout) id :
  id ∈ fold_left (fun ids l => fold_left (fun ids id => {[id]} ∪ ids) (itemIds l) ids) ls ids
  <-> id ∈ ids \/ exists l, In l ls /\ In id (itemIds l).
Proof.
  revert ids. induction ls as [|l ls IH]; intros ids; simpl.
  - split; [auto | intros [H|(l & [] & _)]; exact H].
  - rewrite IH, fold_union_elem. split.
    + intros [[H|H]|(l' & H1 & H2)]; eauto 6.
    + intros [H|(l' & [<-|H1] & H2)]; eauto 6.
Qed.

(** X19. The three loadout queries agree: [isInLoadout] answers true
    exactly when [getLoadoutsForItem] returns a loadout, exactly when the
    id is in [getAllLoadoutItemIds]; every loadout returned holds the id;
    and with no backup loaded all three are empty. *)
Theorem loadout_queries_agree p id :
  (DIMParser.isInLoadout p id = true <-> DIMParser.getLoadoutsForItem p id <> []) /\
  (DIMParser.isInLoadout p id = true <-> id ∈ getAllLoadoutItemIds p) /\
  (forall l, In l (DIMParser.getLoadoutsForItem p id) -> In id (itemIds l)) /\
  (DIMParser.backup p = None ->
   DIMParser.isInLoadout p id = false /\ DIMParser.getLoadoutsForItem p id = [] /\
   getAllLoadoutItemIds p = ∅).
Proof.
  unfold DIMParser.isInLoadout, DIMParser.getLoadoutsForItem, getAllLoadoutItemIds.
  destruct (DIMParser.backup p) as [b|].
  - split; [|split; [|split]].
    + rewrite existsb_exists. split.
      * intros (l & Hl & Hi) E.
        assert (Hin : In l (List.filter (fun l => DIMParser.includes (itemIds l) id)
                                        (loadouts b)))
          by (apply filter_In; auto).
        rewrite E in Hin. destruct Hin.
      * intros Hne.
        destruct (List.filter _ (loadouts b)) as [|l rest] eqn:E; [contradiction|].
        assert (Hin : In l (List.filter (fun l => DIMParser.includes (itemIds l) id)
                                        (loadouts b)))
          by (rewrite E; left; reflexivity).
        apply filter_In in Hin. exists l. exact Hin.
    + rewrite existsb_exists, fold_loadouts_elem. split.
      * intros (l & Hl & Hi). right. exists l. split; [exact Hl|].
        apply includes_In, Hi.
      * intros [H|(l & Hl & Hi)]; [apply not_elem_of_empty in H; destruct H|].
        exists l. split; [exact Hl | apply includes_In, Hi].
    + intros l Hl. apply filter_In in Hl as [_ Hl]. apply includes_In, Hl.
    + discriminate.
  - split; [|split; [|split]].
    + split; [discriminate | intros H; contradiction].
    + split; [discriminate|]. intros H. apply not_elem_of_empty in H. destruct H.
    + intros l [].
    + intros _. repeat split.
Qed.

Lemma idsTagged_elem tag p id :
  id ∈ idsTagged tag p <-> DIMParser.getTag p id = Some tag.
Proof.
  unfold idsTagged, DIMParser.getTag.
  destruct (DIMParser.backup p) as [b|].
  - generalize (tags b). intros m.
    apply (map_fold_weak_ind
             (fun (ids : gset string) (m : gmap string string) =>
                id ∈ ids <-> m !! id = Some tag)).
    + rewrite lookup_empty. split; [intros H; apply not_elem_of_empty in H; destruct H
                                   | discriminate].
    + intros i x m0 r Hnone IH.
      destruct (String.eqb x tag) eqn:E.
      * apply String.eqb_eq in E. subst x.
        rewrite elem_of_union, elem_of_singleton, IH.
        destruct (decide (i = id)) as [->|Hne].
        -- rewrite lookup_insert_eq. tauto.
        -- rewrite lookup_insert_ne by exact Hne. split; [intros [H|H]; congruence | auto].
      * apply String.eqb_neq in E. rewrite IH.
        destruct (decide (i = id)) as [->|Hne].
        -- rewrite lookup_insert_eq, Hnone. split; [discriminate | congruence].
        -- rewrite lookup_insert_ne by exact Hne. tauto.
  - split; [intros H; apply not_elem_of_empty in H; destruct H | discriminate].
Qed.

(** X20. Each tag query returns exactly the ids whose tag is the queried
    one, so the favorite, junk and keep sets are pairwise disjoint: no item
    is reported under two of them. *)
Theorem tag_queries_exact p id :
  (id ∈ getFavoriteItemIds p <-> DIMParser.getTag p id = Some "favorite") /\
  (id ∈ getJunkItemIds p <-> DIMParser.getTag p id = Some "junk") /\
  (id ∈ getKeepItemIds p <-> DIMParser.getTag p id = Some "keep") /\
  ~ (id ∈ getFavoriteItemIds p /\ id ∈ getJunkItemIds p) /\
  ~ (id ∈ getFavoriteItemIds p /\ id ∈ getKeepItemIds p) /\
  ~ (id ∈ getJunkItemIds p /\ id ∈ getKeepItemIds p).
Proof.
  unfold getFavoriteItemIds, getJunkItemIds, getKeepItemIds.
  rewrite !idsTagged_elem.
  split; [tauto | split; [tauto | split; [tauto|]]].
  repeat split; intros [H1 H2]; rewrite H1 in H2; discriminate.
Qed.

(** ** From the backup to the plan *)

(** X21. An item that an export loadout lists by instance id is kept by a
    planner whose parser loaded that export, as long as loadouts protect:
    its recommendation is KEEP and its protection list names that
    loadout. *)
Theorem loadout_item_is_kept p q data now items rec le li :
  dimParser p = loadExport q data ->
  protectDIMLoadouts (protectionRules p) = true ->
  In rec (recommendations (generatePlan p now items)) ->
  In le (orEmpty (ex_loadouts data)) ->
  In li (le_equipped le ++ le_unequipped le) ->
  li_id li = Some (itemInstanceId (item rec)) ->
  itemInstanceId (item rec) <> "" ->
  action rec = KEEP /\
  In (le_name le)
     (List.map loadoutName
        (DIMParser.getLoadoutsForItem (dimParser p) (itemInstanceId (item rec)))) /\
  exists l, protectedBy rec = Some l /\
            In ("DIM Loadouts: " +:+
                JS.join ", "
                  (List.map loadoutName
                     (DIMParser.getLoadoutsForItem (dimParser p)
                        (itemInstanceId (item rec))))) l.
Proof.
  intros Hp Hrule Hin Hle Hli Hid Hne.
  apply plan_recommendation in Hin as (it & _ & ->).
  rewrite analyzeItem_item in *.
  assert (Hids : In (itemInstanceId it) (instanceIds le)).
  { unfold instanceIds. apply in_flat_map. exists li. split; [exact Hli|].
    rewrite Hid. destruct (itemInstanceId it) as [|c s]; [contradiction|].
    left. reflexivity. }
  set (l0 := {| loadoutId := le_id le; loadoutName := le_name le;
                loadoutClass := asDestinyClass (le_classType le);
                itemIds := instanceIds le |}).
  assert (Hl0 : In l0 (DIMParser.getLoadoutsForItem (dimParser p) (itemInstanceId it))).
  { rewrite Hp. unfold DIMParser.getLoadoutsForItem, loadExport. cbn [DIMParser.backup].
    apply filter_In. split.
    - unfold parseExport. cbn [loadouts]. apply in_flat_map. exists le.
      split; [exact Hle|]. unfold parseLoadout.
      destruct (0 <? length (instanceIds le))%nat eqn:E; [left; reflexivity|].
      apply length_zero_ltb in E. rewrite E in Hids. destruct Hids.
    - apply includes_In. exact Hids. }
  assert (Hrule' : ruleApplies p it
            ("DIM Loadouts: " +:+
             JS.join ", "
               (List.map loadoutName
                  (DIMParser.getLoadoutsForItem (dimParser p) (itemInstanceId it))))).
  { left. repeat split; auto.
    - rewrite Hp. reflexivity.
    - intros E. rewrite E in Hl0. destruct Hl0. }
  apply In_protectionReasons in Hrule'.
  rewrite analyzeItem_protected by (intros E; rewrite E in Hrule'; destruct Hrule').
  simpl. split; [reflexivity|]. split.
  - change (le_name le) with (loadoutName l0). apply in_map, Hl0.
  - exists (protectionReasons p it). split; [reflexivity | exact Hrule'].
Qed.

Lemma loadout_item_is_kept_witness :
  let p := exportPlanner scenarioC_export in
  let rec := analyzeItem p scenarioC_item [scenarioC_item] in
  let le := {| le_id := "l1"; le_name := "PvP Build"; le_classType := 0;
               le_equipped := [ {| li_id := Some "scenario-c"; li_hash := 606;
                                   li_amount := None |} ];
               le_unequipped := [] |} in
  let li := {| li_id := Some "scenario-c"; li_hash := 606; li_amount := None |} in
  dimParser p = loadExport {| DIMParser.backup := None |} scenarioC_export /\
  protectDIMLoadouts (protectionRules p) = true /\
  In rec (recommendations (generatePlan p 0 [scenarioC_item])) /\
  In le (orEmpty (ex_loadouts scenarioC_export)) /\
  In li (le_equipped le ++ le_unequipped le) /\
  li_id li = Some (itemInstanceId (item rec)) /\
  itemInstanceId (item rec) <> "" /\
  action rec = KEEP.
Proof.
  intros p rec le li.
  assert (H3 : In rec (recommendations (generatePlan p 0 [scenarioC_item])))
    by (left; reflexivity).
  assert (H4 : In le (orEmpty (ex_loadouts scenarioC_export))) by (left; reflexivity).
  assert (H5 : In li (le_equipped le ++ le_unequipped le)) by (left; reflexivity).
  assert (H7 : itemInstanceId (item rec) <> "") by discriminate.
  split; [reflexivity | split; [reflexivity | split; [exact H3 | split; [exact H4 |
    split; [exact H5 | split; [reflexivity | split; [exact H7|]]]]]]].
  exact (proj1 (loadout_item_is_kept p {| DIMParser.backup := None |} scenarioC_export 0 [scenarioC_item] rec le li
                  eq_refl eq_refl H3 H4 H5 eq_refl H7)).
Defined.

(** ** Items as the client delivers them *)



Lemma processRawItem_tier raw instances statsData loc charId equipped it :
  BungieClient.processRawItem raw instances statsData loc charId equipped = Some it ->
  tier it = Legendary \/ tier it = Rare.
Proof.
  unfold BungieClient.processRawItem.
  destruct (truthyString (raw_itemInstanceId raw)) as [id|]; [|discriminate].
  destruct (instances !! id) as [inst|]; [|discriminate].
  destruct (BungieClient.getItemType (bucketHash raw)); try discriminate;
    intros H; injection H as <-; simpl;
    destruct (BungieClient.orZero (quality inst) >? 0); auto.
Qed.



Example processRawItem_example :
  option_map (fun it => (itemInstanceId it, itemType it, tier it, armorSlot it,
                         powerLevel it, isMasterworked it, stats it))
    (BungieClient.processRawItem clientFixture_raw clientFixture_instances
       clientFixture_stats Vault None false)
  = Some ("c-1", armor, Legendary, Some Helmet, 1810, false,
          Some {| mobility := 2; resilience := 10; recovery := 2; discipline := 6;
                  intellect := 2; strength := 0; total := 22 |}).
Proof. vm_compute. reflexivity. Qed.

Lemma protectionReasons_setExotics p b it :
  tier it <> Exotic ->
  protectionReasons (updateProtectionRules p (setExotics (protectionRules p) b)) it =
  protectionReasons p it.
Proof.
  intros Ht. unfold protectionReasons, updateProtectionRules, setExotics.
  cbn [protectionRules dimParser protectDIMLoadouts protectLockedItems
       protectMasterworked protectExotics customProtectedIds].
  rewrite (bool_decide_eq_false_2 _ Ht), !andb_false_r. reflexivity.
Qed.

Lemma analyzeItem_setExotics p b it all :
  tier it <> Exotic ->
  analyzeItem (updateProtectionRules p (setExotics (protectionRules p) b)) it all =
  analyzeItem p it all.
Proof.
  intros Ht. unfold analyzeItem.
  rewrite (protectionReasons_setExotics p b it Ht).
  reflexivity.
Qed.

(** X23. On an inventory that comes from the client the rule that protects
    exotics makes no difference: switching [protectExotics] on or off
    leaves the whole plan unchanged, because the client never delivers an
    item of tier Exotic. *)
Theorem exotic_rule_idle_on_client_items p b now items :
  (forall it, In it items -> fromClient it) ->
  generatePlan (updateProtectionRules p (setExotics (protectionRules p) b)) now items =
  generatePlan p now items.
Proof.
  intros Hall.
  assert (Ht : forall it, In it items -> tier it <> Exotic).
  { intros it Hit. destruct (Hall it Hit) as (raw & ins & sd & loc & cid & eq & H).
    destruct (processRawItem_tier _ _ _ _ _ _ _ H) as [-> | ->]; discriminate. }
  unfold generatePlan.
  change (targetItems (updateProtectionRules p (setExotics (protectionRules p) b)) items)
    with (targetItems p items).
  assert (Hmap :
    List.map (fun it => analyzeItem
                (updateProtectionRules p (setExotics (protectionRules p) b))
                it (targetItems p items)) (targetItems p items) =
    List.map (fun it => analyzeItem p it (targetItems p items)) (targetItems p items)).
  { apply map_ext_in. intros it Hit. apply analyzeItem_setExotics, Ht.
    apply targetItems_In in Hit. tauto. }
  rewrite Hmap. reflexivity.
Qed.

Lemma exotic_rule_idle_on_client_items_witness :
  exists it,
    BungieClient.processRawItem clientFixture_raw clientFixture_instances
      clientFixture_stats Vault None false = Some it /\
    (forall x, In x [it] -> fromClient x) /\
    generatePlan
      (updateProtectionRules plainPlanner (setExotics (protectionRules plainPlanner) false))
      0 [it] =
    generatePlan plainPlanner 0 [it].
Proof.
  destruct (BungieClient.processRawItem clientFixture_raw clientFixture_instances
              clientFixture_stats Vault None false) as [it|] eqn:E;
    [|vm_compute in E; discriminate E].
  exists it.
  assert (H : forall x, In x [it] -> fromClient x).
  { intros x [<-|[]]. unfold fromClient. eauto 10. }
  split; [reflexivity | split; [exact H|]].
  exact (exotic_rule_idle_on_client_items plainPlanner false 0 [it] H).
Defined.

(** ** The build-safety check and the vault summary *)

Lemma find_Some_id (inventory : list InventoryItem) id it :
  List.find (fun i => String.eqb (itemInstanceId i) id) inventory = Some it ->
  In it inventory /\ itemInstanceId it = id.
Proof.
  intros H. apply find_some in H as [H1 H2]. apply String.eqb_eq in H2. auto.
Qed.

(** X24. [checkBuildSafety] fails exactly when no inventory item has the
    id.  When it answers, it reports on the first item with that id, and it
    answers "safe to dismantle" exactly when no loadout uses the item, its
    tag is neither favorite nor keep, and it is neither locked nor
    masterworked; the reasons of a safe item are at most its tag and the
    presence of a note. *)
Theorem checkBuildSafety_answer inventory parser id :
  let result := VaultCuratorServer.checkBuildSafety inventory parser id in
  (result = None <-> forall it, In it inventory -> itemInstanceId it <> id) /\
  (forall r, result = Some r ->
     exists it,
       List.find (fun i => String.eqb (itemInstanceId i) id) inventory = Some it /\
       bs_instanceId r = id /\ bs_name r = name it /\
       dimTag r = DIMParser.getTag parser id /\
       dimNote r = DIMParser.getNote parser id /\
       bs_loadouts r = List.map loadoutName (DIMParser.getLoadoutsForItem parser id) /\
       (safeToDismantle r = true <->
        DIMParser.getLoadoutsForItem parser id = [] /\
        DIMParser.getTag parser id <> Some "favorite" /\
        DIMParser.getTag parser id <> Some "keep" /\
        isLocked it = false /\ isMasterworked it = false) /\
       (safeToDismantle r = true ->
        forall reason, In reason (bs_reasons r) ->
          reason = "Has DIM note" \/
          exists t, DIMParser.getTag parser id = Some t /\ reason = "DIM tag: " +:+ t)).
Proof.
  cbv zeta. unfold VaultCuratorServer.checkBuildSafety.
  destruct (List.find _ inventory) as [it|] eqn:Ef.
  - destruct (find_Some_id _ _ _ Ef) as [Hin Hid]. split.
    + split; [discriminate|]. intros H. exfalso. apply (H it Hin Hid).
    + intros r Hr. injection Hr as <-. exists it. cbn.
      assert (Htag : forall t,
                VaultCuratorServer.isTag (DIMParser.getTag parser id) t = false <->
                DIMParser.getTag parser id <> Some t).
      { intros t. unfold VaultCuratorServer.isTag.
        destruct (DIMParser.getTag parser id) as [s|].
        - rewrite String.eqb_neq. split; [congruence | intros H E; apply H; congruence].
        - split; [discriminate | reflexivity]. }
      assert (Hsafe :
        (length (DIMParser.getLoadoutsForItem parser id) =? 0)%nat &&
        negb (VaultCuratorServer.isTag (DIMParser.getTag parser id) "favorite") &&
        negb (VaultCuratorServer.isTag (DIMParser.getTag parser id) "keep") &&
        negb (isLocked it) && negb (isMasterworked it) = true <->
        DIMParser.getLoadoutsForItem parser id = [] /\
        DIMParser.getTag parser id <> Some "favorite" /\
        DIMParser.getTag parser id <> Some "keep" /\
        isLocked it = false /\ isMasterworked it = false).
      { rewrite !andb_true_iff, !negb_true_iff, !Htag, Nat.eqb_eq, length_zero_iff_nil.
        tauto. }
      split; [reflexivity|]. split; [exact Hid|].
      repeat (split; [reflexivity|]).
      split; [exact Hsafe|].
      intros Hs reason Hr. apply Hsafe in Hs as (Hl & _ & _ & Hlk & Hmw).
      rewrite Hl, Hlk, Hmw in Hr. simpl in Hr. rewrite !app_nil_r in Hr.
      apply in_app_or in Hr as [Hr|Hr].
      * right. destruct (DIMParser.getTag parser id) as [[|c s]|]; simpl in Hr;
          try destruct Hr as [<-|[]]; try destruct Hr. eauto.
      * left. destruct (truthyString (DIMParser.getNote parser id)); simpl in Hr;
          [destruct Hr as [<-|[]]; reflexivity | destruct Hr].
  - split; [|discriminate]. split; [|reflexivity].
    intros _ it Hin Hid.
    apply (find_none _ _ Ef) in Hin. apply String.eqb_neq in Hin. contradiction.
Qed.

(** X25. What the planner does not keep, the build-safety check calls safe:
    under rules that protect loadout items, locked items and masterworked
    items, an item whose recommendation is JUNK or REVIEW is reported "safe
    to dismantle" by [checkBuildSafety] run with the planner's parser on an
    inventory where the id denotes that item. *)
Theorem not_kept_is_safe_to_dismantle p now items rec inventory :
  protectDIMLoadouts (protectionRules p) = true ->
  protectLockedItems (protectionRules p) = true ->
  protectMasterworked (protectionRules p) = true ->
  In rec (recommendations (generatePlan p now items)) ->
  action rec <> KEEP ->
  List.find (fun i => String.eqb (itemInstanceId i) (itemInstanceId (item rec))) inventory
    = Some (item rec) ->
  exists r,
    VaultCuratorServer.checkBuildSafety inventory (dimParser p)
      (itemInstanceId (item rec)) = Some r /\
    safeToDismantle r = true.
Proof.
  intros R1 R2 R3 Hin Hact Hfind.
  apply plan_recommendation in Hin as (it & _ & ->).
  rewrite analyzeItem_item in *.
  assert (Hun : unprotected p it).
  { apply protectionReasons_nil_iff.
    destruct (protectionReasons p it) as [|x l] eqn:E; [reflexivity|].
    exfalso. apply Hact. rewrite analyzeItem_protected by (rewrite E; discriminate).
    reflexivity. }
  destruct Hun as (U1 & U2 & U3 & _ & _ & U6).
  unfold VaultCuratorServer.checkBuildSafety. rewrite Hfind.
  eexists. split; [reflexivity|]. cbn.
  assert (Hload : DIMParser.getLoadoutsForItem (dimParser p) (itemInstanceId it) = []).
  { destruct (DIMParser.getLoadoutsForItem (dimParser p) (itemInstanceId it)) eqn:E;
      [reflexivity|].
    exfalso. apply U1. split; [exact R1|]. split; [|discriminate].
    unfold DIMParser.getLoadoutsForItem, DIMParser.loaded in *.
    destruct (DIMParser.backup (dimParser p)); [reflexivity | discriminate]. }
  assert (Htag : forall t, (t = "favorite" \/ t = "keep") ->
            VaultCuratorServer.isTag (DIMParser.getTag (dimParser p) (itemInstanceId it)) t
            = false).
  { intros t Ht. unfold VaultCuratorServer.isTag.
    destruct (DIMParser.getTag (dimParser p) (itemInstanceId it)) as [s|] eqn:E;
      [|reflexivity].
    apply String.eqb_neq. intros ->. apply U6. split.
    - unfold DIMParser.getTag, DIMParser.loaded in *.
      destruct (DIMParser.backup (dimParser p)); [reflexivity | discriminate].
    - destruct Ht as [-> | ->]; auto. }
  rewrite Hload, (Htag "favorite"), (Htag "keep") by auto. simpl.
  destruct (isLocked it); [exfalso; apply U2; auto|].
  destruct (isMasterworked it); [exfalso; apply U3; auto|].
  reflexivity.
Qed.

Lemma not_kept_is_safe_to_dismantle_witness :
  let rec := analyzeItem plainPlanner scenarioE_item [scenarioE_item] in
  protectDIMLoadouts (protectionRules plainPlanner) = true /\
  protectLockedItems (protectionRules plainPlanner) = true /\
  protectMasterworked (protectionRules plainPlanner) = true /\
  In rec (recommendations (generatePlan plainPlanner 0 [scenarioE_item])) /\
  action rec <> KEEP /\
  List.find (fun i => String.eqb (itemInstanceId i) (itemInstanceId (item rec)))
    [scenarioE_item] = Some (item rec) /\
  exists r,
    VaultCuratorServer.checkBuildSafety [scenarioE_item] (dimParser plainPlanner)
      (itemInstanceId (item rec)) = Some r /\
    safeToDismantle r = true.
Proof.
  intros rec.
  assert (H4 : In rec (recommendations (generatePlan plainPlanner 0 [scenarioE_item])))
    by (left; reflexivity).
  assert (H5 : action rec <> KEEP) by (vm_compute; discriminate).
  assert (H6 : List.find (fun i => String.eqb (itemInstanceId i) (itemInstanceId (item rec)))
                 [scenarioE_item] = Some (item rec)) by reflexivity.
  split; [reflexivity | split; [reflexivity | split; [reflexivity | split; [exact H4 |
    split; [exact H5 | split; [exact H6|]]]]]].
  exact (not_kept_is_safe_to_dismantle plainPlanner 0 [scenarioE_item] rec [scenarioE_item]
           eq_refl eq_refl eq_refl H4 H5 H6).
Defined.

(** The converse fails: an exotic item without lock, masterwork, loadout or
    tag is kept by the planner, yet reported safe to dismantle. *)
Example exotic_is_kept_but_reported_safe :
  let it := {| itemInstanceId := "ex-1"; itemHash := 77; name := "exotic";
               itemType := weapon; tier := Exotic; location := Vault;
               characterId := None; isEquipped := false; isLocked := false;
               isMasterworked := false; powerLevel := 1800; armorSlot := None;
               classType := None; stats := None; damageType := None;
               weaponType := None |} in
  List.map action (recommendations (generatePlan plainPlanner 0 [it])) = [KEEP] /\
  option_map safeToDismantle
    (VaultCuratorServer.checkBuildSafety [it] (dimParser plainPlanner) "ex-1") = Some true.
Proof. split; vm_compute; reflexivity. Qed.

Lemma length_by_type (l : list InventoryItem) :
  length l =
  (length (List.filter (fun i => bool_decide (itemType i = weapon)) l) +
   length (List.filter (fun i => bool_decide (itemType i = armor)) l) +
   length (List.filter (fun i => bool_decide (itemType i = other)) l))%nat.
Proof.
  induction l as [|x l IH]; [reflexivity|].
  simpl. destruct (itemType x); simpl; lia.
Qed.

(** X26. The vault summary counts the vault items only, and its three
    type counts add up to the total; the used percentage is the total
    against a capacity of 600, rounded, so it is between 0 and 100 as long
    as the vault holds at most 600 items and exceeds 100 from 606 items on. *)
Theorem vaultSummary_counts inventory :
  let s := VaultCuratorServer.getVaultSummary inventory in
  vs_totalItems s =
    length (List.filter (fun i => bool_decide (location i = Vault)) inventory) /\
  vs_totalItems s = (vs_weapons s + vs_armor s + vs_other s)%nat /\
  (vs_totalItems s <= length inventory)%nat /\
  vaultCapacity s = 600 /\
  0 <= vaultUsedPercent s /\
  ((vs_totalItems s <= 600)%nat -> vaultUsedPercent s <= 100) /\
  ((606 <= vs_totalItems s)%nat -> 100 < vaultUsedPercent s).
Proof.
  cbv zeta. unfold VaultCuratorServer.getVaultSummary.
  cbn [vs_totalItems vs_weapons vs_armor vs_other vaultCapacity vaultUsedPercent].
  set (n := length (List.filter (fun i => bool_decide (location i = Vault)) inventory)).
  assert (Hn : (0 <= inject_Z (Z.of_nat n))%Q).
  { change 0%Q with (inject_Z 0). rewrite <- Zle_Qle. lia. }
  assert (Hm : (inject_Z (Z.of_nat n) / 600 * 100 == inject_Z (Z.of_nat n) * (1 # 6))%Q)
    by field.
  repeat apply conj.
  - reflexivity.
  - apply length_by_type.
  - apply List.filter_length_le.
  - reflexivity.
  - apply (Math_round_ge _ 0). rewrite Hm. change (inject_Z 0) with 0%Q.
    set (q := inject_Z (Z.of_nat n)) in *. lra.
  - intros H. apply Math_round_le. rewrite Hm.
    assert (Hq : (inject_Z (Z.of_nat n) <= 600)%Q).
    { change 600%Q with (inject_Z 600). rewrite <- Zle_Qle. lia. }
    change (inject_Z 100) with 100%Q.
    set (q := inject_Z (Z.of_nat n)) in *. lra.
  - intros H.
    assert (Hq : (606 <= inject_Z (Z.of_nat n))%Q).
    { change 606%Q with (inject_Z 606). rewrite <- Zle_Qle. lia. }
    assert (101 <= JS.Math_round (inject_Z (Z.of_nat n) / 600 * 100)); [|lia].
    apply Math_round_ge. rewrite Hm. change (inject_Z 101) with 101%Q.
    set (q := inject_Z (Z.of_nat n)) in *. lra.
Qed.

(** ** The summary of the duplicate groups *)

Lemma bySlot_get_set_same k v m : bySlot_get k (bySlot_set k v m) = Some v.
Proof.
  induction m as [|[k' v'] m IH]; simpl.
  - rewrite bool_decide_eq_true_2; reflexivity.
  - destruct (bool_decide (k' = k)) eqn:E; simpl; rewrite E; [reflexivity | exact IH].
Qed.

Lemma bySlot_get_set_other k k0 v m :
  k0 <> k -> bySlot_get k (bySlot_set k0 v m) = bySlot_get k m.
Proof.
  intros Hne. induction m as [|[k' v'] m IH]; simpl.
  - rewrite bool_decide_eq_false_2; [reflexivity | exact Hne].
  - destruct (bool_decide (k' = k0)) eqn:E; simpl.
    + apply bool_decide_eq_true_1 in E. subst k'.
      rewrite !bool_decide_eq_false_2 by exact Hne. reflexivity.
    + rewrite IH. reflexivity.
Qed.

Lemma sumZ_app l1 l2 : sumZ (l1 ++ l2) = sumZ l1 + sumZ l2.
Proof. unfold sumZ. induction l1 as [|x l1 IH]; simpl; [reflexivity | rewrite IH; lia]. Qed.

Lemma memberCount_app l1 l2 : memberCount (l1 ++ l2) = memberCount l1 + memberCount l2.
Proof. unfold memberCount. rewrite map_app. apply sumZ_app. Qed.

(** The loop of [getSummary] after the groups [seen]. *)
Lemma summary_loop (l seen : list DuplicateGroup) (acc : DuplicateSummary) :
  ds_totalDuplicates acc = memberCount seen - Z.of_nat (length seen) ->
  ds_totalDiscard acc =
    sumZ (List.map (fun g => Z.of_nat (length (rec_discard (g_recommendation g)))) seen) ->
  ds_totalReview acc =
    sumZ (List.map (fun g => Z.of_nat (length (rec_review (g_recommendation g)))) seen) ->
  (forall slot, bySlot_get slot (ds_bySlot acc) =
     if existsb (inSlot slot) seen
     then Some (memberCount (List.filter (inSlot slot) seen)) else None) ->
  let s := fold_left summaryStep l acc in
  let all := seen ++ l in
  ds_totalGroups s = ds_totalGroups acc /\
  ds_totalDuplicates s = memberCount all - Z.of_nat (length all) /\
  ds_totalDiscard s =
    sumZ (List.map (fun g => Z.of_nat (length (rec_discard (g_recommendation g)))) all) /\
  ds_totalReview s =
    sumZ (List.map (fun g => Z.of_nat (length (rec_review (g_recommendation g)))) all) /\
  (forall slot, bySlot_get slot (ds_bySlot s) =
     if existsb (inSlot slot) all
     then Some (memberCount (List.filter (inSlot slot) all)) else None).
Proof.
  revert seen acc. induction l as [|g l IH]; intros seen acc H1 H2 H3 H4; cbv zeta.
  - rewrite app_nil_r. simpl. auto.
  - cbn [fold_left].
    replace (seen ++ g :: l) with ((seen ++ [g]) ++ l) by (rewrite <- app_assoc; reflexivity).
    specialize (IH (seen ++ [g]) (summaryStep acc g)). cbv zeta in IH.
    apply IH; clear IH; unfold summaryStep; cbn [ds_totalDuplicates ds_totalDiscard
      ds_totalReview ds_bySlot].
    + rewrite H1, memberCount_app, length_app. unfold memberCount, sumZ. simpl. lia.
    + rewrite H2, map_app, sumZ_app. unfold sumZ. simpl. lia.
    + rewrite H3, map_app, sumZ_app. unfold sumZ. simpl. lia.
    + intros slot. rewrite existsb_app, List.filter_app, memberCount_app.
      cbn [existsb List.filter]. rewrite orb_false_r. unfold inSlot at 2 4.
      destruct (g_slot g) as [sl|] eqn:Es.
      * destruct (decide (sl = slot)) as [->|Hne].
        -- rewrite bool_decide_eq_true_2 by reflexivity.
           rewrite bySlot_get_set_same, orb_true_r, H4. f_equal.
           unfold memberCount at 3. unfold sumZ. simpl.
           destruct (existsb (inSlot slot) seen) eqn:Ex; [lia|].
           assert (Hf : List.filter (inSlot slot) seen = []).
           { clear -Ex. induction seen as [|x seen IH]; [reflexivity|].
             simpl in *. apply orb_false_iff in Ex as [E1 E2]. rewrite E1. exact (IH E2). }
           rewrite Hf. unfold memberCount, sumZ. simpl. lia.
        -- rewrite bool_decide_eq_false_2 by congruence.
           rewrite bySlot_get_set_other by exact Hne.
           rewrite orb_false_r, H4. unfold memberCount at 3. unfold sumZ. simpl.
           rewrite Z.add_0_r. reflexivity.
      * rewrite bool_decide_eq_false_2 by discriminate.
        rewrite orb_false_r, H4. unfold memberCount at 3. unfold sumZ. simpl.
        rewrite Z.add_0_r. reflexivity.
Qed.

Lemma filter_complement_length {A} (P N : A -> bool) (l : list A) :
  (forall x, N x = negb (P x)) ->
  (length (List.filter P l) + length (List.filter N l))%nat = length l.
Proof.
  intros H. induction l as [|x l IH]; [reflexivity|].
  simpl. rewrite H. destruct (P x); simpl; lia.
Qed.

Lemma recommendWeapons_length f items :
  let r := DuplicateFinder.recommendWeapons f items in
  (length (rec_keep r) + length (rec_discard r) + length (rec_review r))%nat = length items.
Proof.
  cbv zeta. unfold DuplicateFinder.recommendWeapons, JS.slice_to, JS.slice_from.
  cbn [rec_keep rec_discard rec_review].
  set (kc := keepCount (DuplicateFinder.options f)).
  set (sorted := JS.sort weaponOrder items).
  pose proof (filter_complement_length
                (fun it : InventoryItem => isLocked it || isMasterworked it)
                (fun it => negb (isLocked it || isMasterworked it))
                (skipn kc sorted) (fun _ => eq_refl)) as Hf.
  pose proof (f_equal (@length _) (firstn_skipn kc sorted)) as Hl.
  rewrite length_app in Hl. unfold sorted at 3 in Hl. rewrite length_sort in Hl. lia.
Qed.

Lemma recommendArmor_length f items :
  let r := DuplicateFinder.recommendArmor f items in
  (length (rec_keep r) + length (rec_discard r) + length (rec_review r))%nat = length items.
Proof.
  cbv zeta. unfold DuplicateFinder.recommendArmor.
  set (score := ArmorScorer.scoreArmor (DuplicateFinder.scorer f)).
  set (scored := List.map (fun it => (it, score it)) items).
  set (isS := fun s : InventoryItem * option ArmorScore =>
                match snd s with Some _ => true | None => false end).
  set (isN := fun s : InventoryItem * option ArmorScore =>
                match snd s with Some _ => false | None => true end).
  fold byScore.
  set (sorted := JS.sort byScore (List.filter isS scored)).
  set (kc := keepCount (DuplicateFinder.options f)).
  rewrite (firstn_min_length kc sorted).
  set (best := match sorted with s :: _ => snd s | [] => None end).
  pose proof (processRemaining_spec best (skipn kc sorted) [] []
                (List.map (fun s => "Keep " +:+ name (fst s) +:+ " (score: " +:+
                                    DuplicateFinder.showScore (snd s) +:+ ", stats: " +:+
                                    DuplicateFinder.showTotal (fst s) +:+ ")")
                          (firstn kc sorted))) as Hpr.
  destruct (DuplicateFinder.processRemaining best (skipn kc sorted) _)
    as [[discard review] reasons].
  destruct Hpr as (dn & rn & -> & -> & Hperm & _ & _). simpl app.
  match goal with
  | |- context [DuplicateFinder.factorProtection dn (?rv, [], ?rs)] =>
      pose proof (factorProtection_spec dn rv [] rs) as Hfp;
      destruct (DuplicateFinder.factorProtection dn (rv, [], rs)) as [[review' ud] reasons']
  end.
  destruct Hfp as [-> ->]. cbn [rec_keep rec_discard rec_review]. simpl app.
  rewrite app_nil_r, !length_app, !length_map.
  pose proof (filter_complement_length
                (fun it : InventoryItem => isLocked it || isMasterworked it)
                (fun it => negb (isLocked it || isMasterworked it))
                dn (fun _ => eq_refl)) as Hf.
  apply Permutation_length in Hperm. rewrite length_app, length_map in Hperm.
  pose proof (f_equal (@length _) (firstn_skipn kc sorted)) as Hl.
  rewrite length_app in Hl. unfold sorted at 3 in Hl. rewrite length_sort in Hl.
  assert (Hsn : (length (List.filter isS scored) + length (List.filter isN scored))%nat
                = length scored).
  { apply filter_complement_length. intros [x [sx|]]; reflexivity. }
  unfold scored at 3 in Hsn. rewrite length_map in Hsn. lia.
Qed.

Lemma generateRecommendation_length f items :
  let r := DuplicateFinder.generateRecommendation f items in
  (length (rec_keep r) + length (rec_discard r) + length (rec_review r))%nat = length items.
Proof.
  cbv zeta. unfold DuplicateFinder.generateRecommendation.
  destruct items as [|first rest]; [apply recommendWeapons_length|].
  destruct (itemType first);
    [apply recommendWeapons_length | apply recommendArmor_length | apply recommendWeapons_length].
Qed.

(** X27. [getSummary] on the groups of [findDuplicates]: the duplicate
    count is the number of grouped items less one per group and is never
    negative; discards, reviews and kept items together are all grouped
    items, so [totalDiscard + totalReview] equals [totalDuplicates] exactly
    when as many items are kept as there are groups; and [bySlot] holds, for each slot that
    has a group, the number of items (not of duplicates) in its groups, and
    no entry for other slots. *)
Theorem duplicateSummary_counts f items :
  let groups := DuplicateFinder.findDuplicates f items in
  let s := getSummary groups in
  ds_totalGroups s = Z.of_nat (length groups) /\
  ds_totalDuplicates s = memberCount groups - ds_totalGroups s /\
  0 <= ds_totalDuplicates s /\
  ds_totalDiscard s + ds_totalReview s + keptCount groups = memberCount groups /\
  (ds_totalDiscard s + ds_totalReview s = ds_totalDuplicates s <->
   keptCount groups = ds_totalGroups s) /\
  (forall slot, bySlot_get slot (ds_bySlot s) =
     if existsb (inSlot slot) groups
     then Some (memberCount (List.filter (inSlot slot) groups)) else None).
Proof.
  cbv zeta. set (groups := DuplicateFinder.findDuplicates f items).
  unfold getSummary.
  destruct (summary_loop groups []
              {| ds_totalGroups := Z.of_nat (length groups); ds_totalDuplicates := 0;
                 ds_totalDiscard := 0; ds_totalReview := 0; ds_bySlot := [] |})
    as (Hg & Hd & Hdi & Hrv & Hslot); try reflexivity.
  simpl app in *. cbn [ds_totalGroups] in Hg.
  assert (Hgroups : forall g, In g groups ->
            g_items g <> [] /\
            g_recommendation g = DuplicateFinder.generateRecommendation f (g_items g)).
  { intros g Hin. unfold groups, DuplicateFinder.findDuplicates in Hin.
    apply In_sort, collectGroups_In_iff in Hin as (k & grp & _ & E).
    apply toGroup_Some in E as (_ & first & rest & -> & ->). simpl.
    split; [discriminate | reflexivity]. }
  assert (Hsums : forall l, (forall g, In g l -> In g groups) ->
            Z.of_nat (length l) <= memberCount l /\
            sumZ (List.map (fun g => Z.of_nat (length (rec_discard (g_recommendation g)))) l) +
            sumZ (List.map (fun g => Z.of_nat (length (rec_review (g_recommendation g)))) l) +
            keptCount l = memberCount l).
  { induction l as [|g l IH]; intros Hl; [split; reflexivity|].
    destruct (IH (fun g0 H => Hl g0 (or_intror H))) as [IH1 IH2].
    destruct (Hgroups g (Hl g (or_introl eq_refl))) as [Hne Hrec].
    pose proof (generateRecommendation_length f (g_items g)) as Hlen. cbv zeta in Hlen.
    rewrite <- Hrec in Hlen.
    unfold memberCount, keptCount, sumZ in *. simpl.
    destruct (g_items g) as [|x xs]; [contradiction|]. simpl length in *. split; lia. }
  destruct (Hsums groups (fun _ H => H)) as [Hle Hsum].
  rewrite Hg, Hd, Hdi, Hrv.
  split; [reflexivity|]. split; [reflexivity|]. split; [lia|]. split; [exact Hsum|].
  split; [lia | exact Hslot].
Qed.

(** A group of armor that cannot be scored keeps nothing and puts every
    member in review: the summary then counts more reviews than duplicates. *)
Example duplicateSummary_unscored_armor :
  let groups := DuplicateFinder.findDuplicates (DuplicateFinder.new DEFAULT_OPTIONS)
                  [mkArmor "a" 10 None; mkArmor "b" 10 None] in
  let s := getSummary groups in
  (ds_totalGroups s, ds_totalDuplicates s, ds_totalDiscard s, ds_totalReview s,
   ds_bySlot s) = (1, 1, 0, 2, [(Helmet, 2)]).
Proof. vm_compute. reflexivity. Qed.
